(** * mysclv: email / WhatsApp validation widgets and the edge proxy

  A shallow embedding of the client-side validators
  (EmailValidator, WhatsAppValidator and their helper classes) and of
  the Cloudflare worker (cf-worker.js), with the properties of the
  design specification stated and settled against them.

  Conventions of the embedding:
  - a JavaScript string is a [string]: a character is one code unit,
    taken to be below 256;
  - a JavaScript number that the code only uses as an integer
    (timestamps, counters, HTTP status codes) is a [Z];
  - [null] and [undefined] are [None] wherever the code does not tell
    them apart;
  - the record of an object (the validator's [state], a class instance)
    has one field per property, and one setter per field;
  - an [async] function is cut at every [await] that leaves the current
    macrotask (network, timers): the part before the [await] is a
    function that records what is pending, the part after it is a
    function run by the event that resumes it;
  - the closures handed to the DOM batcher are first-order commands
    interpreted by [flush]. *)

From Stdlib Require Import ZArith Lia List Bool Ascii String Sorted Permutation.
From stdpp Require Import base option list strings gmap pretty.
Import ListNotations.

Set Warnings "-register-all".
Local Open Scope string_scope.
Local Open Scope list_scope.
Local Open Scope Z_scope.

(** ** JavaScript string primitives used by the sources *)

Module JsString.

Definition is_digit (c : ascii) : bool :=
  let n := nat_of_ascii c in (48 <=? n)%nat && (n <=? 57)%nat.

(** White space removed by [String.prototype.trim]: TAB, LF, VT, FF, CR,
    SPACE and NBSP (the code units below 256 that ECMAScript lists). *)
Definition is_white_space (c : ascii) : bool :=
  let n := nat_of_ascii c in
  ((9 <=? n)%nat && (n <=? 13)%nat) || (n =? 32)%nat || (n =? 160)%nat.

Fixpoint filter_chars (keep : ascii -> bool) (s : string) : string :=
  match s with
  | EmptyString => EmptyString
  | String c r =>
      if keep c then String c (filter_chars keep r) else filter_chars keep r
  end.

(** [s.startsWith(p)] *)
Fixpoint startsWith (s p : string) {struct p} : bool :=
  match p, s with
  | EmptyString, _ => true
  | String _ _, EmptyString => false
  | String a p', String b s' => if Ascii.eqb a b then startsWith s' p' else false
  end.

(** [s.slice(n)] / [s.substring(n)] for a non-negative [n]. *)
Fixpoint slice_from (n : nat) (s : string) : string :=
  match n, s with
  | O, _ => s
  | S n', String _ r => slice_from n' r
  | S _, EmptyString => EmptyString
  end.

(** [s.includes(p)] *)
Fixpoint includes (s p : string) : bool :=
  startsWith s p ||
  match s with
  | EmptyString => false
  | String _ r => includes r p
  end.

Fixpoint trim_start (s : string) : string :=
  match s with
  | EmptyString => EmptyString
  | String c r => if is_white_space c then trim_start r else s
  end.

(** The string without its trailing white space. *)
Fixpoint trim_end (s : string) : string :=
  match s with
  | EmptyString => EmptyString
  | String c r =>
      match trim_end r with
      | EmptyString => if is_white_space c then EmptyString else String c EmptyString
      | r' => String c r'
      end
  end.

Definition trim (s : string) : string := trim_end (trim_start s).

(** The character class [[^\d+]] negated: what the [replace] by the empty string
    keeps. *)
Definition digit_or_plus (c : ascii) : bool :=
  is_digit c || Ascii.eqb c "+"%char.

Definition len (s : string) : Z := Z.of_nat (String.length s).

(** JavaScript truthiness of a string. *)
Definition truthy (s : string) : bool :=
  match s with EmptyString => false | _ => true end.

End JsString.

(** ** PhoneFormatter (WhatsApp validator) *)

Module PhoneFormatter.
Import JsString.

(** [s.substring(a, b)] for [0 <= a <= b]. *)
Fixpoint prefix_of (n : nat) (s : string) : string :=
  match n, s with
  | S n', String c r => String c (prefix_of n' r)
  | _, _ => EmptyString
  end.

Definition substring (a b : nat) (s : string) : string :=
  prefix_of (b - a) (slice_from a s).

(** [parts.filter(part => part).join(" ")] *)
Definition join_parts (parts : list string) : string :=
  match List.filter truthy parts with
  | [] => EmptyString
  | p :: rest => fold_left (fun acc q => acc +:+ " " +:+ q) rest p
  end.

(** [format(value)]: the grouping shown in the field after blur. *)
Definition format (value : string) : string :=
  let cleaned := filter_chars is_digit value in
  if startsWith cleaned "62" then
    join_parts [substring 0 2 cleaned; substring 2 5 cleaned;
                substring 5 9 cleaned; substring 9 13 cleaned]
  else if startsWith cleaned "0" then
    join_parts [substring 0 4 cleaned; substring 4 8 cleaned; substring 8 12 cleaned]
  else cleaned.

Definition normalize (phone : string) : string :=
  let normalized := filter_chars digit_or_plus phone in
  if startsWith normalized "0" then "+62" +:+ slice_from 1 normalized
  else if startsWith normalized "62" then "+" +:+ normalized
  else if negb (startsWith normalized "+")
          && (9 <=? len normalized) && (len normalized <=? 13)
       then "+62" +:+ normalized
  else normalized.

End PhoneFormatter.


(** ** JavaScript values and exceptions (worker side) *)

Module Js.
Import JsString.

(** The values [JSON.parse] can produce, plus [undefined] (the value of a
    missing property).  A number is carried as the two observations the
    worker makes of it: whether it is non-zero (its truthiness) and its
    [String()] rendering. *)
Inductive jsval : Type :=
  | JUndefined
  | JNull
  | JBool (b : bool)
  | JNum (nonzero : bool) (text : string)
  | JStr (s : string)
  | JArr (items : list jsval)
  | JObj (fields : list (string * jsval)).

(** The outcome of an expression that may throw: the exception carries
    the [name] and the [message] of the thrown [Error]. *)
Inductive result (A : Type) : Type :=
  | Returns (a : A)
  | Throws (name message : string).
Arguments Returns {A} a.
Arguments Throws {A} name message.

Definition bind {A B : Type} (k : A -> result B) (r : result A) : result B :=
  match r with
  | Returns a => k a
  | Throws n m => Throws n m
  end.

#[global] Instance result_ret : MRet result := fun _ a => Returns a.
#[global] Instance result_bind : MBind result := fun _ _ k r => bind k r.

(** [!v] is [negb (truthy v)]. *)
Definition truthy (v : jsval) : bool :=
  match v with
  | JUndefined | JNull => false
  | JBool b => b
  | JNum nonzero _ => nonzero
  | JStr s => JsString.truthy s
  | JArr _ | JObj _ => true
  end.

Fixpoint has_key (k : string) (fields : list (string * jsval)) : bool :=
  match fields with
  | [] => false
  | (k', _) :: r => String.eqb k k' || has_key k r
  end.

Fixpoint get_field (k : string) (fields : list (string * jsval)) : jsval :=
  match fields with
  | [] => JUndefined
  | (k', v) :: r => if String.eqb k k' then v else get_field k r
  end.

(** What the language leaves to the engine: the messages of the
    exceptions the engine itself raises, the digits [parseInt] keeps of a
    long numeral (it may replace those after the 20th by zeros), and the
    digits [toString] prints for a double that is no safe integer (the
    shortest that read back as the same double). *)
Record engine : Type := {
  JSON_parse : string -> result jsval;
  msg_null_property : string;      (* reading a property of null *)
  msg_to_primitive : string;       (* object without a usable toString *)
  msg_null_body_status : string;   (* Response with a body and status 204/205 *)
  long_decimal : string -> Z;      (* the integer [parseInt] takes for a decimal
                                      numeral of more than 20 significant digits *)
  Number_toString : Z -> string;   (* [toString] of a finite double beyond 2^53 *)
}.

(** [String(v)].  An array joins its elements with commas ([null] renders
    empty); a plain object renders as [[object Object]] unless an own
    (hence non-callable) [toString] property shadows the inherited
    method, in which case the conversion throws a TypeError. *)
Fixpoint js_String (E : engine) (v : jsval) : result string :=
  match v with
  | JUndefined => Returns "undefined"
  | JNull => Returns "null"
  | JBool true => Returns "true"
  | JBool false => Returns "false"
  | JNum _ text => Returns text
  | JStr s => Returns s
  | JArr items =>
      (fix join (l : list jsval) : result string :=
         match l with
         | [] => Returns EmptyString
         | x :: r =>
             e ← match x with
                 | JNull | JUndefined => Returns EmptyString
                 | _ => js_String E x
                 end;
             match r with
             | [] => Returns e
             | _ => t ← join r; Returns (e +:+ "," +:+ t)
             end
         end) items
  | JObj fields =>
      if has_key "toString" fields
      then Throws "TypeError" (msg_to_primitive E)
      else Returns "[object Object]"
  end.

(** [v.k] for a value [v] that is neither null nor undefined: a
    property of a plain object, [undefined] on any other value (the keys
    the sources read are no properties of arrays or primitives). *)
Definition property (k : string) (v : jsval) : jsval :=
  match v with
  | JObj fields => get_field k fields
  | _ => JUndefined
  end.

(** [v === s] for a string [s]. *)
Definition is_string (s : string) (v : jsval) : bool :=
  match v with
  | JStr t => String.eqb t s
  | _ => false
  end.

(** [v.number] *)
Definition get_number (E : engine) (v : jsval) : result jsval :=
  match v with
  | JNull | JUndefined => Throws "TypeError" (msg_null_property E)
  | JObj fields => Returns (get_field "number" fields)
  | _ => Returns JUndefined
  end.

End Js.


(** ** Browser local storage and the two CacheManager classes *)

Module Storage.

(** What [JSON.parse] makes of a stored text, as far as the cache code
    looks at it: [Unparsable] when [JSON.parse] throws or yields [null]
    (every property read then throws), otherwise the three properties the
    code reads, each possibly missing. *)
Inductive stored (R : Type) : Type :=
  | Unparsable
  | Parsed (result : option R) (expiry : option Z) (timestamp : option Z).
Arguments Unparsable {R}.
Arguments Parsed {R} result expiry timestamp.

(** [localStorage]: the items in the order [localStorage.key(i)]
    enumerates them, and whether [setItem] currently succeeds (it throws
    when storage is disabled or the quota is exhausted). *)
Record t (R : Type) : Type := mk {
  items : list (string * stored R);
  writable : bool;
}.
Arguments mk {R} items writable.
Arguments items {R} t.
Arguments writable {R} t.

Section Ops.
Context {R : Type}.

Fixpoint lookup_item (k : string) (l : list (string * stored R)) : option (stored R) :=
  match l with
  | [] => None
  | (k', v) :: r => if String.eqb k k' then Some v else lookup_item k r
  end.

Fixpoint replace_item (k : string) (v : stored R) (l : list (string * stored R))
  : list (string * stored R) :=
  match l with
  | [] => [(k, v)]
  | (k', v') :: r =>
      if String.eqb k k' then (k, v) :: r else (k', v') :: replace_item k v r
  end.

Definition remove_item (k : string) (l : list (string * stored R))
  : list (string * stored R) :=
  List.filter (fun kv => negb (String.eqb k (fst kv))) l.

Definition getItem (k : string) (s : t R) : option (stored R) :=
  lookup_item k (items s).

(** [setItem]: [None] when it throws. *)
Definition setItem (k : string) (v : stored R) (s : t R) : option (t R) :=
  if writable s then Some (mk (replace_item k v (items s)) (writable s))
  else None.

Definition removeItem (k : string) (s : t R) : t R :=
  mk (remove_item k (items s)) (writable s).

Definition keys (s : t R) : list string := map fst (items s).

End Ops.
End Storage.

Module Cache.
Import JsString Storage.

Record config : Type := {
  SUCCESS_TTL : Z;
  FAILURE_TTL : Z;
  MAX_SIZE : Z;
  KEY_PREFIX : string;
}.

(** CONFIG.CACHE of the email validator. *)
Definition email_config : config :=
  {| SUCCESS_TTL := 600000; FAILURE_TTL := 300000; MAX_SIZE := 50;
     KEY_PREFIX := "email_v_" |}.

(** CONFIG.CACHE of the WhatsApp validator; the two TTLs come from the
    [data-cache-success-ttl] / [data-cache-failure-ttl] attributes when
    these are present and non-zero. *)
Definition wa_config (custom_success custom_failure : option Z) : config :=
  {| SUCCESS_TTL := match custom_success with
                    | Some v => if v =? 0 then 600000 else v
                    | None => 600000
                    end;
     FAILURE_TTL := match custom_failure with
                    | Some v => if v =? 0 then 300000 else v
                    | None => 300000
                    end;
     MAX_SIZE := 50;
     KEY_PREFIX := "wa_v_" |}.

(** The fields of a CacheManager instance ([cleanupScheduled] exists in
    the WhatsApp class only and stays [false] in the email one). *)
Record manager : Type := mkManager {
  available : option bool;
  cleanupScheduled : bool;
}.

Definition new_manager : manager := mkManager None false.

(** What [get] resolves to: [null], the [result] property of the stored
    record, or [undefined] when the record has none. *)
Inductive cached (R : Type) : Type :=
  | Null
  | Undefined
  | Value (r : R).
Arguments Null {R}.
Arguments Undefined {R}.
Arguments Value {R} r.

Section WithResult.
Context {R : Type}.
Variable C : config.
(** The probe key of [isAvailable] ("__email_test__" / "__wa_test__"). *)
Variable test_key : string.

(** [isAvailable()]: the first call probes the storage and memoizes. *)
Definition isAvailable (m : manager) (s : Storage.t R) : bool * manager * Storage.t R :=
  match available m with
  | Some a => (a, m, s)
  | None =>
      match setItem test_key Unparsable s with
      | Some s' => (true, mkManager (Some true) (cleanupScheduled m), removeItem test_key s')
      | None => (false, mkManager (Some false) (cleanupScheduled m), s)
      end
  end.

(** [get(key)] at clock reading [now]. *)
Definition get (now : Z) (key : string) (m : manager) (s : Storage.t R)
  : cached R * manager * Storage.t R :=
  let '(a, m, s) := isAvailable m s in
  if negb a then (Null, m, s)
  else
    let k := KEY_PREFIX C +:+ key in
    match getItem k s with
    | None | Some Unparsable => (Null, m, s)
    | Some (Parsed result expiry _) =>
        if match expiry with Some e => e <? now | None => false end
        then (Null, m, removeItem k s)
        else (match result with Some r => Value r | None => Undefined end, m, s)
    end.

(** The record [set] writes; [now1] and [now2] are its two successive
    readings of [Date.now()]. *)
Definition entry (result : R) (isSuccess : bool) (now1 now2 : Z) : stored R :=
  let ttl := if isSuccess then SUCCESS_TTL C else FAILURE_TTL C in
  Parsed (Some result) (Some (now1 + ttl)) (Some now2).

(** [set] of the email CacheManager. *)
Definition email_set (now1 now2 : Z) (key : string) (result : R) (isSuccess : bool)
    (m : manager) (s : Storage.t R) : manager * Storage.t R :=
  let '(a, m, s) := isAvailable m s in
  if negb a then (m, s)
  else
    match setItem (KEY_PREFIX C +:+ key) (entry result isSuccess now1 now2) s with
    | Some s' => (m, s')
    | None => (m, s)
    end.

(** Stable insertion sort by ascending timestamp:
    [items.sort((a, b) => a.timestamp - b.timestamp)]; an item moves
    behind the items that precede it only past strictly smaller ones. *)
Fixpoint insert_by_timestamp (x : string * Z) (l : list (string * Z)) : list (string * Z) :=
  match l with
  | [] => [x]
  | y :: r => if snd y <? snd x then y :: insert_by_timestamp x r else x :: y :: r
  end.

Definition sort_by_timestamp (l : list (string * Z)) : list (string * Z) :=
  foldr insert_by_timestamp [] l.

(** [data.timestamp || 0] of the item under [k], [0] when reading it
    throws. *)
Definition timestamp_of (s : Storage.t R) (k : string) : Z :=
  match getItem k s with
  | Some (Parsed _ _ (Some ts)) => ts
  | _ => 0
  end.

(** The body of the first [forEach] of [cleanup]. *)
Definition remove_if_expired (now : Z) (s : Storage.t R) (k : string) : Storage.t R :=
  match getItem k s with
  | Some (Parsed _ expiry _) =>
      if match expiry with Some e => e <? now | None => false end
      then removeItem k s else s
  | _ => removeItem k s
  end.

(** [cleanup()] of the WhatsApp CacheManager at clock reading [now]. *)
Definition cleanup (now : Z) (m : manager) (s : Storage.t R) : manager * Storage.t R :=
  let '(a, m, s) := isAvailable m s in
  if negb a then (m, s)
  else
    let ks := List.filter (fun k => startsWith k (KEY_PREFIX C)) (keys s) in
    let s1 := foldl (remove_if_expired now) s ks in
    if MAX_SIZE C <? Z.of_nat (length ks) then
      let sorted := sort_by_timestamp (map (fun k => (k, timestamp_of s1 k)) ks) in
      let toRemove := take (length sorted - Z.to_nat (MAX_SIZE C)) sorted in
      (m, foldl (fun s item => removeItem (fst item) s) s1 toRemove)
    else (m, s1).

(** [scheduleCleanup()]: returns whether an idle callback was registered. *)
Definition scheduleCleanup (m : manager) : manager * bool :=
  if cleanupScheduled m then (m, false)
  else (mkManager (available m) true, true).

(** The idle callback registered by [scheduleCleanup]. *)
Definition idle_callback (now : Z) (m : manager) (s : Storage.t R) : manager * Storage.t R :=
  let '(m, s) := cleanup now m s in
  (mkManager (available m) false, s).

(** [set] of the WhatsApp CacheManager; [now] is the clock reading of the
    [cleanup] triggered by a failed write.  The boolean tells whether an
    idle callback was registered. *)
Definition wa_set (now1 now2 now : Z) (key : string) (result : R) (isSuccess : bool)
    (m : manager) (s : Storage.t R) : manager * Storage.t R * bool :=
  let '(a, m, s) := isAvailable m s in
  if negb a then (m, s, false)
  else
    let '(m, scheduled) := scheduleCleanup m in
    match setItem (KEY_PREFIX C +:+ key) (entry result isSuccess now1 now2) s with
    | Some s' => (m, s', scheduled)
    | None => let '(m, s) := cleanup now m s in (m, s, scheduled)
    end.

End WithResult.
End Cache.


(** ** QueueManager (same code in both validators) *)

Module Queue.

(** CONFIG.QUEUE *)
Definition MAX_SIZE : Z := 5.
Definition MAX_CONCURRENT : Z := 2.

Section WithJob.
(** A job stands for the callback stored with a queue entry. *)
Context {Job : Type} `{EqDecision Job}.

Record item : Type := mkItem {
  value : string;        (* the [email] / [phoneNumber] field *)
  job : Job;             (* the [callback] field *)
}.

(** The two fields of the class, and the jobs that were dispatched and
    have not called their completion callback yet.  [running] is not a
    field of the class: it records which completion callbacks are still
    outstanding, each of which is called once. *)
Record t : Type := mk {
  queue : list item;
  activeCount : Z;
  running : list Job;
}.

Definition empty : t := mk [] 0 [].

(** [queue.findIndex(i => i.value === v)] followed by [splice(index, 1)]. *)
Fixpoint remove_first (v : string) (q : list item) : list item :=
  match q with
  | [] => []
  | i :: r => if String.eqb (value i) v then r else i :: remove_first v r
  end.

(** [cancel(v)] *)
Definition cancel (v : string) (st : t) : t :=
  if String.eqb v "all" then mk [] (activeCount st) (running st)
  else mk (remove_first v (queue st)) (activeCount st) (running st).

(** [queue.pop()]: the remaining queue and the last item. *)
Fixpoint pop (q : list item) : option (list item * item) :=
  match q with
  | [] => None
  | [i] => Some ([], i)
  | i :: r => match pop r with
              | Some (r', last) => Some (i :: r', last)
              | None => None
              end
  end.

(** The entry [process()] would dispatch, with the rest of the queue:
    none while MAX_CONCURRENT jobs run or the queue is empty. *)
Definition next (st : t) : option (list item * item) :=
  if (MAX_CONCURRENT <=? activeCount st) || (Z.of_nat (length (queue st)) =? 0)
  then None
  else pop (queue st).

(** [process()]: dispatches at most one job; the dispatched callback is
    recorded in [running]. *)
Definition process (st : t) : t :=
  match next st with
  | Some (rest, i) => mk rest (activeCount st + 1) (running st ++ [job i])
  | None => st
  end.

(** [add(v, callback)] *)
Definition add (v : string) (j : Job) (st : t) : t :=
  let st := cancel v st in
  if Z.of_nat (length (queue st)) <? MAX_SIZE
  then process (mk (queue st ++ [mkItem v j]) (activeCount st) (running st))
  else st.

Fixpoint remove_job (j : Job) (l : list Job) : list Job :=
  match l with
  | [] => []
  | x :: r => if decide (x = j) then r else x :: remove_job j r
  end.

(** The first statement of the completion callback handed to job [j]:
    [this.activeCount--]. *)
Definition release (j : Job) (st : t) : t :=
  mk (queue st) (activeCount st - 1) (remove_job j (running st)).

(** The completion callback handed to job [j] by [process]. *)
Definition done (j : Job) (st : t) : t := process (release j st).

(** What can happen to a queue manager. *)
Inductive event : Type :=
  | Add (v : string) (j : Job)
  | Cancel (v : string)
  | Done (j : Job).

(** A completion callback exists only for a running job. *)
Definition enabled (e : event) (st : t) : Prop :=
  match e with
  | Done j => In j (running st)
  | _ => True
  end.

Definition step (e : event) (st : t) : t :=
  match e with
  | Add v j => add v j st
  | Cancel v => cancel v st
  | Done j => done j st
  end.

Inductive reachable : t -> Prop :=
  | reachable_empty : reachable empty
  | reachable_step e st : reachable st -> enabled e st -> reachable (step e st).

End WithJob.
Arguments item Job : clear implicits.
Arguments t Job : clear implicits.
Arguments event Job : clear implicits.
End Queue.


(** ** RateLimiter and RequestManager (WhatsApp validator) *)

Module RateLimiter.

Record t : Type := mk {
  maxRequests : Z;
  timeWindow : Z;
  requests : list Z;          (* the time stamps pushed by [addRequest] *)
}.

(** [cleanup()] at clock reading [now]. *)
Definition cleanup (now : Z) (r : t) : t :=
  mk (maxRequests r) (timeWindow r)
     (List.filter (fun time => now - time <? timeWindow r) (requests r)).

(** [canMakeRequest()] *)
Definition canMakeRequest (now : Z) (r : t) : bool * t :=
  let r := cleanup now r in
  (Z.of_nat (length (requests r)) <? maxRequests r, r).

Definition addRequest (now : Z) (r : t) : t :=
  mk (maxRequests r) (timeWindow r) (requests r ++ [now]).

(** [Math.min(...requests)] of a non-empty array. *)
Definition oldest (first : Z) (rest : list Z) : Z := fold_left Z.min rest first.

(** [getRemainingTime()] at clock reading [now]. *)
Definition getRemainingTime (now : Z) (r : t) : Z :=
  match requests r with
  | [] => 0
  | first :: rest => Z.max 0 (timeWindow r - (now - oldest first rest))
  end.

End RateLimiter.

Module RequestManager.

(** A network call issued by [executeRequest] and not settled yet: the
    promise that stands for it, the number posted, and the delay after
    which its AbortController fires. *)
Record call : Type := mkCall {
  call_promise : nat;
  call_phone : string;
  call_timeout : Z;
}.

(** The fields of the class ([activeRequests] maps a number to the
    promise of its request), a counter naming the promises, and the
    network calls in flight. *)
Record t : Type := mk {
  activeRequests : gmap string nat;
  rateLimiter : RateLimiter.t;
  next_promise : nat;
  in_flight : list call;
}.

(** [a || b] on numbers: [b] when [a] is absent or zero. *)
Definition or_else (a : option Z) (b : Z) : Z :=
  match a with
  | Some v => if v =? 0 then b else v
  | None => b
  end.

(** The delay [executeRequest] arms its abort timer with:
    [customTimeout || CONFIG.TIMEOUTS[attemptNumber] || 5000]. *)
Definition request_timeout (TIMEOUTS : list Z) (attemptNumber : nat)
    (customTimeout : option Z) : Z :=
  or_else customTimeout (or_else (TIMEOUTS !! attemptNumber) 5000).

(** [makeRequest(phone, attemptNumber, customTimeout)] up to its [await]:
    the promise the caller waits for, whether this caller issued the
    network call (and so runs the [finally] block), and the new state. *)
Definition makeRequest (TIMEOUTS : list Z) (phone : string) (attemptNumber : nat)
    (customTimeout : option Z) (rm : t) : nat * bool * t :=
  match activeRequests rm !! phone with
  | Some p => (p, false, rm)
  | None =>
      let p := next_promise rm in
      (p, true,
       mk (<[phone := p]> (activeRequests rm)) (rateLimiter rm) (S p)
          (in_flight rm ++
             [mkCall p phone (request_timeout TIMEOUTS attemptNumber customTimeout)]))
  end.

(** The network call of promise [p] settles at clock reading [now]:
    [executeRequest] records a successful request in the rate limiter,
    and the [finally] block of the [makeRequest] that issued the call
    deletes the number from [activeRequests]. *)
Definition settle (now : Z) (p : nat) (success : bool) (rm : t) : t :=
  match List.find (fun c => Nat.eqb (call_promise c) p) (in_flight rm) with
  | None => rm
  | Some c =>
      mk (delete (call_phone c) (activeRequests rm))
         (if success then RateLimiter.addRequest now (rateLimiter rm) else rateLimiter rm)
         (next_promise rm)
         (List.filter (fun c => negb (Nat.eqb (call_promise c) p)) (in_flight rm))
  end.

(** The network calls in flight for [phone]. *)
Definition outstanding (phone : string) (rm : t) : list call :=
  List.filter (fun c => String.eqb (call_phone c) phone) (in_flight rm).

Inductive event : Type :=
  | MakeRequest (phone : string) (attemptNumber : nat) (customTimeout : option Z)
  | Settle (now : Z) (p : nat) (success : bool).

Definition step (TIMEOUTS : list Z) (e : event) (rm : t) : t :=
  match e with
  | MakeRequest phone n c => snd (makeRequest TIMEOUTS phone n c rm)
  | Settle now p ok => settle now p ok rm
  end.

(** [canMakeRequest()] and [getRemainingTime()] pass the question on to
    the rate limiter. *)
Definition canMakeRequest (now : Z) (rm : t) : bool * t :=
  let '(ok, rl) := RateLimiter.canMakeRequest now (rateLimiter rm) in
  (ok, mk (activeRequests rm) rl (next_promise rm) (in_flight rm)).

Definition getRemainingTime (now : Z) (rm : t) : Z :=
  RateLimiter.getRemainingTime now (rateLimiter rm).

Definition init (maxRequests timeWindow : Z) : t :=
  mk ∅ (RateLimiter.mk maxRequests timeWindow []) 0 [].

End RequestManager.


(** ** The edge proxy (cf-worker.js) *)

Module Worker.
Import JsString Js.

(** CONFIG of the worker. *)
Definition PER_MINUTE : Z := 10.
Definition WINDOW_MINUTE : Z := 60.
Definition WHITELISTED_IPS : list string := [].

(** [formatPhoneNumber(number)]; the result is [JNull] or a [JStr]. *)
Definition formatPhoneNumber (E : engine) (number : jsval) : result jsval :=
  if negb (truthy number) then Returns JNull
  else
    s ← js_String E number;
    let cleaned := filter_chars digit_or_plus (trim s) in
    if startsWith cleaned "0" then Returns (JStr ("+62" +:+ slice_from 1 cleaned))
    else if startsWith cleaned "62" then Returns (JStr ("+" +:+ cleaned))
    else if startsWith cleaned "+" then Returns (JStr cleaned)
    else Returns (JStr ("+62" +:+ cleaned)).

(** The parts of a [Request] the worker reads. *)
Record request : Type := {
  method : string;
  cf_connecting_ip : option string;     (* header CF-Connecting-IP *)
  x_forwarded_for : option string;      (* header X-Forwarded-For *)
  origin_header : option string;        (* header Origin *)
  content_type : option string;         (* header content-type *)
  body_text : string;                   (* what [request.text()] yields *)
}.

(** The KV namespace bound as TEST_LIMITER: its entries, and whether its
    operations currently throw. *)
Record kv : Type := mkKv {
  kv_entries : gmap string (string * Z);   (* value and expirationTtl *)
  kv_get_throws : bool;
  kv_put_throws : bool;
}.

Record env : Type := {
  TEST_LIMITER : option kv;
  STARSENDER_DEVICE_KEY : option string;
}.

(** What [fetch] to the upstream API and [response.text()] produce. *)
Inductive fetch_outcome : Type :=
  | FetchThrows (name message : string)
  | FetchResponse (status : Z) (statusText : string) (text : string).

Record response : Type := mkResponse {
  status : Z;
  body : option jsval;              (* [None]: the null body of a preflight *)
  allow_origin : string;
}.

(** [a || b] on header values. *)
Definition str_or (a : option string) (b : string) : string :=
  match a with
  | Some s => if JsString.truthy s then s else b
  | None => b
  end.

(** [s.split(',')[0]] *)
Fixpoint before_comma (s : string) : string :=
  match s with
  | EmptyString => EmptyString
  | String c r => if Ascii.eqb c ","%char then EmptyString else String c (before_comma r)
  end.

Definition getClientIP (r : request) : string :=
  match cf_connecting_ip r with
  | Some ip => if JsString.truthy ip then ip
               else str_or (option_map (fun x => trim (before_comma x)) (x_forwarded_for r))
                           "unknown"
  | None => str_or (option_map (fun x => trim (before_comma x)) (x_forwarded_for r))
                   "unknown"
  end.

(** ResponseBuilder.json: the Response constructor refuses a body
    together with a null-body status. *)
Definition null_body_status (st : Z) : bool :=
  (st =? 101) || (st =? 103) || (st =? 204) || (st =? 205) || (st =? 304).

Definition json (E : engine) (data : jsval) (st : Z) (origin : string) : result response :=
  if null_body_status st then Throws "TypeError" (msg_null_body_status E)
  else Returns (mkResponse st (Some data) origin).

Definition preflight (origin : string) : response := mkResponse 204 None origin.

(** *** Rate limiting *)

(** A counter is a JavaScript number: NaN, an infinity, or a finite
    double, carried as the integer it equals (the counters hold no
    fraction: [parseInt] yields an integer, and so does an integer plus
    one after rounding).  Minus zero is carried as zero: the code cannot
    tell them apart. *)
Inductive jsnum : Type :=
  | NaN
  | Infinity (negative : bool)
  | Num (z : Z).

(** The double nearest to the integer [x], ties to even: an integer of
    at most 53 bits is its own double, a longer one keeps its 53 leading
    bits, rounded; from 2^1024 on the result is an infinity. *)
Definition to_double (x : Z) : jsnum :=
  let a := Z.abs x in
  let bits := Z.log2 a + 1 in
  if bits <=? 53 then Num x
  else
    let sh := bits - 53 in
    let q := Z.shiftr a sh in
    let r := a - Z.shiftl q sh in
    let half := Z.shiftl 1 (sh - 1) in
    let q' := if (half <? r) || ((r =? half) && Z.odd q) then q + 1 else q in
    let v := Z.shiftl q' sh in
    if 2 ^ 1024 <=? v then Infinity (x <? 0)
    else Num (if x <? 0 then - v else v).

Fixpoint digits_value (acc : Z) (s : string) : Z :=
  match s with
  | String c r =>
      if is_digit c then digits_value (10 * acc + (Z.of_nat (nat_of_ascii c) - 48)) r
      else acc
  | EmptyString => acc
  end.

(** The leading decimal digits of [s]. *)
Fixpoint digit_prefix (s : string) : string :=
  match s with
  | String c r => if is_digit c then String c (digit_prefix r) else EmptyString
  | EmptyString => EmptyString
  end.

(** [parseInt(s, 10)].  A numeral has more than 20 significant digits
    exactly when its value is 10^20 or more; the integer taken for such
    a numeral is the engine's. *)
Definition parseInt (E : engine) (s : string) : jsnum :=
  let s := trim_start s in
  let '(negative, s) :=
    match s with
    | String c r =>
        if Ascii.eqb c "-"%char then (true, r)
        else if Ascii.eqb c "+"%char then (false, r)
        else (false, s)
    | EmptyString => (false, s)
    end in
  match s with
  | String c _ =>
      if is_digit c
      then
        let mathInt := if digits_value 0 s <? 10 ^ 20 then digits_value 0 s
                       else long_decimal E (digit_prefix s) in
        to_double (if negative then - mathInt else mathInt)
      else NaN
  | EmptyString => NaN
  end.

(** [n + 1] *)
Definition add_one (n : jsnum) : jsnum :=
  match n with
  | Num z => to_double (z + 1)
  | _ => n
  end.

(** [n >= limit] for an integer [limit]. *)
Definition at_least (n : jsnum) (limit : Z) : bool :=
  match n with
  | NaN => false
  | Infinity negative => negb negative
  | Num z => limit <=? z
  end.

(** [n.toString()]: a safe integer prints as its decimal numeral. *)
Definition number_toString (E : engine) (n : jsnum) : string :=
  match n with
  | NaN => "NaN"
  | Infinity false => "Infinity"
  | Infinity true => "-Infinity"
  | Num z => if Z.abs z <=? 2 ^ 53 then pretty z else Number_toString E z
  end.

(** [getCount(rateLimiter, key)] *)
Definition getCount (E : engine) (k : kv) (key : string) : jsnum :=
  if kv_get_throws k then Num 0
  else
    match kv_entries k !! key with
    | Some (value, _) => if JsString.truthy value then parseInt E value else Num 0
    | None => Num 0
    end.

(** [rateLimiter.put(key, value, { expirationTtl: ttl })] that does not
    throw. *)
Definition kv_put (key value : string) (ttl : Z) (k : kv) : kv :=
  mkKv (<[key := (value, ttl)]> (kv_entries k)) (kv_get_throws k) (kv_put_throws k).

(** [incrementCounter(rateLimiter, key, ttl)] *)
Definition incrementCounter (E : engine) (k : kv) (key : string) (ttl : Z) : jsnum * kv :=
  let newValue := add_one (getCount E k key) in
  if kv_put_throws k then (Num 1, k)
  else (newValue, kv_put key (number_toString E newValue) ttl k).

Definition minuteKey (now : Z) (clientIP : string) : string :=
  "rate_minute_" +:+ clientIP +:+ "_" +:+ pretty (now / (WINDOW_MINUTE * 1000)).

(** [checkRateLimit(clientIP, rateLimiter)] at clock reading [now], run
    from its first statement to its return with no other request touching
    the store in between: the [allowed] property of its result, and the
    store afterwards. *)
Definition checkRateLimit (E : engine) (now : Z) (clientIP : string) (k : kv) : bool * kv :=
  let key := minuteKey now clientIP in
  if at_least (getCount E k key) PER_MINUTE then (false, k)
  else (true, snd (incrementCounter E k key WINDOW_MINUTE)).

(** [checkRateLimit] cut at its awaits, for requests that overlap: the
    call waits for the count it compares with the limit (line 147), then
    for the count [incrementCounter] reads (line 190), then for the write
    (line 192); other calls may run at each wait. *)
Inductive rate_call : Type :=
  | AwaitsCount (key : string)
  | AwaitsRecount (key : string)
  | AwaitsPut (key : string) (newValue : jsnum)
  | Decided (allowed : bool).

Definition rate_call_start (now : Z) (clientIP : string) : rate_call :=
  AwaitsCount (minuteKey now clientIP).

(** The call resumes from its wait and runs to the next one. *)
Definition rate_call_resume (E : engine) (c : rate_call) (k : kv) : rate_call * kv :=
  match c with
  | AwaitsCount key =>
      if at_least (getCount E k key) PER_MINUTE then (Decided false, k)
      else (AwaitsRecount key, k)
  | AwaitsRecount key => (AwaitsPut key (add_one (getCount E k key)), k)
  | AwaitsPut key newValue =>
      (Decided true,
       if kv_put_throws k then k
       else kv_put key (number_toString E newValue) WINDOW_MINUTE k)
  | Decided _ => (c, k)
  end.

(** Every call of [calls] resumes once, in the order of the list. *)
Fixpoint resume_each (E : engine) (calls : list rate_call) (k : kv) : list rate_call * kv :=
  match calls with
  | [] => ([], k)
  | c :: rest =>
      let '(c, k) := rate_call_resume E c k in
      let '(rest, k) := resume_each E rest k in
      (c :: rest, k)
  end.

(** *** Validation *)

Definition error_body (message : string) (extra : list (string * jsval)) : jsval :=
  JObj ([("status", JBool false); ("message", JStr message)] ++ extra).

(** [parseRequestBody(request)]: the parsed body, or the error object. *)
Definition parseRequestBody (E : engine) (r : request) : jsval + jsval :=
  let contentType := str_or (content_type r) EmptyString in
  if negb (includes contentType "application/json")
  then inr (error_body "Content-Type must be application/json"
                       [("received", JStr contentType)])
  else if negb (JsString.truthy (body_text r))
  then inr (error_body "Empty request body" [])
  else
    match JSON_parse E (body_text r) with
    | Returns v => inl v
    | Throws _ message =>
        inr (error_body "Invalid JSON in request body" [("error", JStr message)])
    end.

(** [callStarsenderAPI(phoneNumber, apiKey)]: the parsed data and the
    status of the upstream answer. *)
Definition callStarsenderAPI (E : engine) (upstream : fetch_outcome) : result (jsval * Z) :=
  match upstream with
  | FetchThrows name message =>
      if String.eqb name "AbortError"
      then Throws "Error" "API timeout after 8 seconds"
      else Throws name message
  | FetchResponse st statusText text =>
      if negb ((200 <=? st) && (st <=? 299))
      then Throws "Error" ("API responded with " +:+ pretty st +:+ ": " +:+ statusText)
      else if includes text "<html" || includes text "<!DOCTYPE"
      then Throws "Error" "Received HTML instead of JSON"
      else
        data ← JSON_parse E text;
        Returns (data, st)
  end.

(** The status and message chosen by the [catch] block of
    [processValidation]. *)
Definition error_status (message : string) : Z * string :=
  if includes message "timeout" then (504, "WhatsApp API request timed out")
  else if includes message "fetch" || includes message "API"
  then (502, "Failed to connect to WhatsApp API")
  else if includes message "HTML" then (502, "WhatsApp API service error")
  else (500, "Internal server error").

(** The [try] block of [processValidation]; [upstream] tells what the
    upstream call does when asked about a number with a key. *)
Definition processValidation_try (E : engine) (upstream : string -> string -> fetch_outcome)
    (r : request) (e : env) (origin : string) : result response :=
  match parseRequestBody E r with
  | inr err => json E err 400 origin
  | inl body =>
      number ← get_number E body;
      if negb (truthy number)
      then json E (error_body "Phone number is required" [("received", body)]) 400 origin
      else
        phoneNumber ← formatPhoneNumber E number;
        match phoneNumber with
        | JStr phone =>
            if negb (JsString.truthy phone)
            then json E (error_body "Invalid phone number format" []) 400 origin
            else
              match STARSENDER_DEVICE_KEY e with
              | Some key =>
                  if JsString.truthy key then
                    apiResult ← callStarsenderAPI E (upstream phone key);
                    json E (fst apiResult) (snd apiResult) origin
                  else json E (error_body "Server misconfiguration: API key missing" [])
                            500 origin
              | None => json E (error_body "Server misconfiguration: API key missing" [])
                          500 origin
              end
        | _ => json E (error_body "Invalid phone number format" []) 400 origin
        end
  end.

(** [processValidation(request, env, origin)] *)
Definition processValidation (E : engine) (upstream : string -> string -> fetch_outcome)
    (r : request) (e : env) (origin : string) : result response :=
  match processValidation_try E upstream r e origin with
  | Returns resp => Returns resp
  | Throws _ message =>
      let '(errorStatus, errorMessage) := error_status message in
      json E (error_body errorMessage [("error", JStr message)]) errorStatus origin
  end.

Definition rate_limited_body : jsval :=
  JObj [("success", JBool false);
        ("data", JObj [("status", JBool false);
                       ("message", JStr "Service temporarily unavailable")]);
        ("message", JStr "Please try again later")].

(** The [try] block of [handleRequest].  The store it returns leaves out
    the monitoring keys written by [logViolation], which no request path
    reads. *)
Definition handleRequest_try (E : engine) (upstream : string -> string -> fetch_outcome)
    (now : Z) (r : request) (e : env) : result response * option kv :=
  let clientIP := getClientIP r in
  let origin := str_or (origin_header r) "*" in
  if String.eqb (method r) "OPTIONS" then (Returns (preflight origin), TEST_LIMITER e)
  else if negb (String.eqb (method r) "POST")
  then (json E (JObj [("status", JBool false);
                      ("message", JStr "Method not allowed. Use POST.");
                      ("method", JStr (method r))]) 405 origin,
        TEST_LIMITER e)
  else if existsb (String.eqb clientIP) WHITELISTED_IPS
  then (processValidation E upstream r e origin, TEST_LIMITER e)
  else
    match TEST_LIMITER e with
    | None => (processValidation E upstream r e origin, None)
    | Some k =>
        let '(allowed, k') := checkRateLimit E now clientIP k in
        if negb allowed then (json E rate_limited_body 200 origin, Some k')
        else (processValidation E upstream r e origin, Some k')
    end.

(** [handleRequest(request, env, ctx)] *)
Definition handleRequest (E : engine) (upstream : string -> string -> fetch_outcome)
    (now : Z) (r : request) (e : env) : result response * option kv :=
  let origin := str_or (origin_header r) "*" in
  match handleRequest_try E upstream now r e with
  | (Returns resp, k) => (Returns resp, k)
  | (Throws _ message, k) =>
      (json E (JObj [("status", JBool false);
                     ("message", JStr "Internal server error");
                     ("error", JStr message)]) 500 origin, k)
  end.

(** *** Monitoring *)

(** [s.split(d)[0]] for a one-character separator. *)
Fixpoint before_char (d : ascii) (s : string) : string :=
  match s with
  | EmptyString => EmptyString
  | String c r => if Ascii.eqb c d then EmptyString else String c (before_char d r)
  end.

(** [logViolation(clientIP, reason, rateLimiter)]: the store after its
    two writes.  [date] is the text of [new Date().toISOString()] and
    [stringify] is [JSON.stringify]; a failing write is caught and
    leaves the store as it is. *)
Definition logViolation (E : engine) (stringify : jsval -> string)
    (date clientIP reason : string) (k : kv) : kv :=
  let violationKey := "violation_" +:+ date +:+ "_" +:+ clientIP in
  let value := stringify (JObj [("ip", JStr clientIP); ("reason", JStr reason);
                                ("timestamp", JStr date)]) in
  let dailyKey := "violations_count_" +:+ before_char "T" date in
  let count := getCount E k dailyKey in
  if kv_put_throws k then k
  else
    kv_put dailyKey (number_toString E (add_one count)) (86400 * 7)
      (kv_put violationKey value 86400 k).

(** [s.substring(0, n)] *)
Fixpoint substring_to (n : nat) (s : string) : string :=
  match n, s with
  | S n', String c r => String c (substring_to n' r)
  | _, _ => EmptyString
  end.

(** [trackRequest(clientIP, rateLimiter)] *)
Definition trackRequest (E : engine) (date : string) (k : kv) : kv :=
  let hourKey := "requests_" +:+ substring_to 13 date in
  snd (incrementCounter E k hourKey (86400 * 7)).

End Worker.


(** ** The email validator *)

Module Email.
Import JsString.

(** CONFIG *)
Definition DEBOUNCE_DELAY : Z := 800.
Definition ERROR_INPUT : string := "Email yang Anda masukkan salah".
Definition ERROR_SUBMIT : string := "Perbaiki email sebelum submit!".
Definition TEST_KEY : string := "__email_test__".

Inductive icon : Type := NoIcon | Loading | Success | ErrorIcon.
Inductive action : Type := Enable | Disable | Clear.

(** The closures handed to [domBatcher.schedule], by the method that
    creates them. *)
Inductive dom_op : Type :=
  | UpdateUI (isValid : option bool) (message : string) (isLoading : bool)
  | InputIcon (type : icon)
  | SubmitButton (a : action)
  | SubmitError                         (* the span update of showValidationError *)
  | AttachSuggestion (suggestion : string).

(** What the page shows, as far as the validator writes it. *)
Record ui : Type := mkUi {
  icon_shown : icon;   (* the icon container *)
  status_text : option (string * bool);   (* the status span when visible: its text, and whether it is styled as an error *)
  border : option bool;   (* input border: green ([Some true]), red ([Some false]) or neither *)
  button_disabled : bool;   (* [submitButton.disabled] *)
  button_message : bool;   (* the message under the button is visible *)
  suggestion_handler : option string;   (* the suggestion a click handler is attached for *)
}.

Definition set_icon_shown (v : icon) (st : ui) : ui :=
  mkUi v (status_text st) (border st) (button_disabled st) (button_message st) (suggestion_handler st).
Definition set_status_text (v : option (string * bool)) (st : ui) : ui :=
  mkUi (icon_shown st) v (border st) (button_disabled st) (button_message st) (suggestion_handler st).
Definition set_border (v : option bool) (st : ui) : ui :=
  mkUi (icon_shown st) (status_text st) v (button_disabled st) (button_message st) (suggestion_handler st).
Definition set_button_disabled (v : bool) (st : ui) : ui :=
  mkUi (icon_shown st) (status_text st) (border st) v (button_message st) (suggestion_handler st).
Definition set_button_message (v : bool) (st : ui) : ui :=
  mkUi (icon_shown st) (status_text st) (border st) (button_disabled st) v (suggestion_handler st).
Definition set_suggestion_handler (v : option string) (st : ui) : ui :=
  mkUi (icon_shown st) (status_text st) (border st) (button_disabled st) (button_message st) v.

Definition initial_ui (disabled : bool) : ui := mkUi NoIcon None None disabled false None.

(** How a [fetch] followed by [response.json()] ends: [data] is the
    JSON value of the body. *)
Inductive fetch_outcome : Type :=
  | Failed                                (* rejected, aborted after 3000 ms, or not JSON *)
  | Answered (data : Js.jsval).

(** Where a suspended [validateEmail(email)] waits: for the answer to
    the fetch of loop round [i], or for the 1500 ms pause after round
    [i]. *)
Inductive phase : Type := Fetching | Waiting.

Record validation : Type := mkValidation {
  v_email : string;
  v_round : nat;
  v_phase : phase;
}.

(** The validator instance together with the page and the environment it acts on. *)
Record state : Type := mk {
  input_value : string;   (* [emailInput.value] *)
  validationState : option bool;
  lastValidatedEmail : string;
  isValidating : bool;
  activeEmail : option string;
  invalidEdited : bool;
  debounceTimer : bool;   (* a debounce timer is armed *)
  originalButton_disabled : bool;   (* [state.originalButton.disabled] *)
  queueManager : Queue.t string;   (* jobs are the e-mail their callback validates *)
  cacheManager : Cache.manager;
  storage : Storage.t bool;   (* [localStorage] *)
  batch : list dom_op;   (* [domBatcher.queue] *)
  view : ui;
  validations : list validation;   (* the suspended [validateEmail] calls *)
  clock : Z;   (* [Date.now()] *)
}.

Definition set_input_value (v : string) (st : state) : state :=
  mk v (validationState st) (lastValidatedEmail st) (isValidating st) (activeEmail st) (invalidEdited st) (debounceTimer st) (originalButton_disabled st) (queueManager st) (cacheManager st) (storage st) (batch st) (view st) (validations st) (clock st).
Definition set_validationState (v : option bool) (st : state) : state :=
  mk (input_value st) v (lastValidatedEmail st) (isValidating st) (activeEmail st) (invalidEdited st) (debounceTimer st) (originalButton_disabled st) (queueManager st) (cacheManager st) (storage st) (batch st) (view st) (validations st) (clock st).
Definition set_lastValidatedEmail (v : string) (st : state) : state :=
  mk (input_value st) (validationState st) v (isValidating st) (activeEmail st) (invalidEdited st) (debounceTimer st) (originalButton_disabled st) (queueManager st) (cacheManager st) (storage st) (batch st) (view st) (validations st) (clock st).
Definition set_isValidating (v : bool) (st : state) : state :=
  mk (input_value st) (validationState st) (lastValidatedEmail st) v (activeEmail st) (invalidEdited st) (debounceTimer st) (originalButton_disabled st) (queueManager st) (cacheManager st) (storage st) (batch st) (view st) (validations st) (clock st).
Definition set_activeEmail (v : option string) (st : state) : state :=
  mk (input_value st) (validationState st) (lastValidatedEmail st) (isValidating st) v (invalidEdited st) (debounceTimer st) (originalButton_disabled st) (queueManager st) (cacheManager st) (storage st) (batch st) (view st) (validations st) (clock st).
Definition set_invalidEdited (v : bool) (st : state) : state :=
  mk (input_value st) (validationState st) (lastValidatedEmail st) (isValidating st) (activeEmail st) v (debounceTimer st) (originalButton_disabled st) (queueManager st) (cacheManager st) (storage st) (batch st) (view st) (validations st) (clock st).
Definition set_debounceTimer (v : bool) (st : state) : state :=
  mk (input_value st) (validationState st) (lastValidatedEmail st) (isValidating st) (activeEmail st) (invalidEdited st) v (originalButton_disabled st) (queueManager st) (cacheManager st) (storage st) (batch st) (view st) (validations st) (clock st).
Definition set_originalButton_disabled (v : bool) (st : state) : state :=
  mk (input_value st) (validationState st) (lastValidatedEmail st) (isValidating st) (activeEmail st) (invalidEdited st) (debounceTimer st) v (queueManager st) (cacheManager st) (storage st) (batch st) (view st) (validations st) (clock st).
Definition set_queueManager (v : Queue.t string) (st : state) : state :=
  mk (input_value st) (validationState st) (lastValidatedEmail st) (isValidating st) (activeEmail st) (invalidEdited st) (debounceTimer st) (originalButton_disabled st) v (cacheManager st) (storage st) (batch st) (view st) (validations st) (clock st).
Definition set_cacheManager (v : Cache.manager) (st : state) : state :=
  mk (input_value st) (validationState st) (lastValidatedEmail st) (isValidating st) (activeEmail st) (invalidEdited st) (debounceTimer st) (originalButton_disabled st) (queueManager st) v (storage st) (batch st) (view st) (validations st) (clock st).
Definition set_storage (v : Storage.t bool) (st : state) : state :=
  mk (input_value st) (validationState st) (lastValidatedEmail st) (isValidating st) (activeEmail st) (invalidEdited st) (debounceTimer st) (originalButton_disabled st) (queueManager st) (cacheManager st) v (batch st) (view st) (validations st) (clock st).
Definition set_batch (v : list dom_op) (st : state) : state :=
  mk (input_value st) (validationState st) (lastValidatedEmail st) (isValidating st) (activeEmail st) (invalidEdited st) (debounceTimer st) (originalButton_disabled st) (queueManager st) (cacheManager st) (storage st) v (view st) (validations st) (clock st).
Definition set_view (v : ui) (st : state) : state :=
  mk (input_value st) (validationState st) (lastValidatedEmail st) (isValidating st) (activeEmail st) (invalidEdited st) (debounceTimer st) (originalButton_disabled st) (queueManager st) (cacheManager st) (storage st) (batch st) v (validations st) (clock st).
Definition set_validations (v : list validation) (st : state) : state :=
  mk (input_value st) (validationState st) (lastValidatedEmail st) (isValidating st) (activeEmail st) (invalidEdited st) (debounceTimer st) (originalButton_disabled st) (queueManager st) (cacheManager st) (storage st) (batch st) (view st) v (clock st).
Definition set_clock (v : Z) (st : state) : state :=
  mk (input_value st) (validationState st) (lastValidatedEmail st) (isValidating st) (activeEmail st) (invalidEdited st) (debounceTimer st) (originalButton_disabled st) (queueManager st) (cacheManager st) (storage st) (batch st) (view st) (validations st) v.

Definition initial (value : string) (disabled : bool) (store : Storage.t bool) : state :=
  mk value None EmptyString false None false false disabled Queue.empty
     Cache.new_manager store [] (initial_ui disabled) [] 0.

(** [domBatcher.schedule(fn)] *)
Definition schedule (op : dom_op) (st : state) : state :=
  set_batch (batch st ++ [op]) st.

(** The three methods that only schedule a closure (the page is assumed
    to contain the input, its wrappers and the submit button). *)
Definition updateUI (isValid : option bool) (message : string) (isLoading : bool)
    (st : state) : state :=
  schedule (UpdateUI isValid message isLoading) st.

Definition updateInputIcon (type : icon) (st : state) : state :=
  schedule (InputIcon type) st.

Definition updateSubmitButton (a : action) (st : state) : state :=
  schedule (SubmitButton a) st.

Definition set_ui (f : ui -> ui) (st : state) : state := set_view (f (view st)) st.

Definition with_status (s : option (string * bool)) (u : ui) : ui :=
  mkUi (icon_shown u) s (border u) (button_disabled u) (button_message u)
       (suggestion_handler u).
Definition with_border (b : option bool) (u : ui) : ui :=
  mkUi (icon_shown u) (status_text u) b (button_disabled u) (button_message u)
       (suggestion_handler u).
Definition with_icon (i : icon) (u : ui) : ui :=
  mkUi i (status_text u) (border u) (button_disabled u) (button_message u)
       (suggestion_handler u).
Definition with_button (disabled message : bool) (u : ui) : ui :=
  mkUi (icon_shown u) (status_text u) (border u) disabled message
       (suggestion_handler u).
Definition with_suggestion (s : option string) (u : ui) : ui :=
  mkUi (icon_shown u) (status_text u) (border u) (button_disabled u)
       (button_message u) s.

(** What a scheduled closure does when the batch is flushed. *)
Definition run_op (op : dom_op) (st : state) : state :=
  match op with
  | UpdateUI isValid message isLoading =>
      if isLoading then
        let st := updateInputIcon Loading st in
        let st := set_ui (fun u => with_border None (with_status None u)) st in
        updateSubmitButton Clear st
      else
        match isValid with
        | Some true =>
            let st := updateInputIcon Success st in
            let st := set_ui (fun u => with_border (Some true) (with_status None u)) st in
            updateSubmitButton Enable st
        | Some false =>
            let st := updateInputIcon NoIcon st in
            let text := if JsString.truthy message then message else ERROR_INPUT in
            let st := set_ui (fun u => with_border (Some false)
                                         (with_status (Some (text, true)) u)) st in
            updateSubmitButton Disable st
        | None =>
            let st := updateInputIcon NoIcon st in
            let st := set_ui (fun u =>
                        with_border None
                          (with_status (if JsString.truthy message
                                        then Some (message, false) else None) u)) st in
            if negb (JsString.truthy (trim (input_value st)))
            then updateSubmitButton Clear st else st
        end
  | InputIcon type => set_ui (with_icon type) st
  | SubmitButton Disable => set_ui (with_button true true) st
  | SubmitButton _ => set_ui (with_button (originalButton_disabled st) false) st
  | SubmitError => set_ui (with_status (Some (ERROR_SUBMIT, true))) st
  | AttachSuggestion suggestion => set_ui (with_suggestion (Some suggestion)) st
  end.

(** [domBatcher.flush()], run by the animation frame. *)
Definition flush (st : state) : state :=
  foldl (fun st op => run_op op st) (set_batch [] st) (batch st).

Definition showValidationError (st : state) : state :=
  let st := schedule SubmitError st in
  let st := set_ui (with_border (Some false)) st in
  let st := updateInputIcon NoIcon st in
  updateSubmitButton Disable st.

(** What a handler did to the event it was given. *)
Record event_effect : Type := mkEffect {
  defaultPrevented : bool;
  propagationStopped : bool;
}.

(** [handleSubmit(e)] *)
Definition handleSubmit (st : state) : event_effect * state :=
  match validationState st with
  | Some false => (mkEffect true true, showValidationError st)
  | _ => (mkEffect false false, st)
  end.

(** [handleSubmitClick(e)] *)
Definition handleSubmitClick (st : state) : event_effect * state :=
  match validationState st with
  | Some false => (mkEffect true true, showValidationError st)
  | _ => (mkEffect false false, st)
  end.

Section WithPage.
(** [emailInput.checkValidity()] as a function of the input's value; it
    depends on the constraints the page puts on the input. *)
Variable E : Js.engine.
Variable checkValidity : string -> bool.

(** [validateEmail(email)] from its first statement to its first fetch;
    the boolean tells whether the call has run to its end. *)
Definition validateEmail_begin (email : string) (st : state) : state * bool :=
  let st := set_isValidating true st in
  let st := set_activeEmail (Some email) st in
  let st := set_invalidEdited false st in
  let '(cached, m, s) :=
    Cache.get Cache.email_config TEST_KEY (clock st) email (cacheManager st) (storage st) in
  let st := set_storage s (set_cacheManager m st) in
  match cached with
  | Cache.Value true =>
      let st := updateUI (Some true) EmptyString false st in
      let st := set_validationState (Some true) st in
      (set_lastValidatedEmail email st, true)
  | _ =>
      let st := updateUI None EmptyString true st in
      (set_validations (validations st ++ [mkValidation email 0 Fetching]) st, false)
  end.

(** The statements of [validateEmail] after its loop, for a [data] that
    is neither null nor undefined.  The template literal that renders a
    truthy [did_you_mean] throws when the value cannot be converted to a
    string; the call then leaves through its [finally] block with
    nothing changed. *)
Definition validateEmail_conclude (email : string) (data : Js.jsval) (st : state) : state :=
  let result := Js.property "result" data in
  let did_you_mean := Js.property "did_you_mean" data in
  if negb (Js.truthy data) || Js.is_string "unknown" result then
    set_validationState None (updateUI None EmptyString false st)
  else if Js.is_string "valid" result then
    let '(m, s) := Cache.email_set Cache.email_config TEST_KEY (clock st) (clock st)
                     email true true (cacheManager st) (storage st) in
    let st := set_storage s (set_cacheManager m st) in
    let st := updateUI (Some true) EmptyString false st in
    set_lastValidatedEmail email (set_validationState (Some true) st)
  else if Js.is_string "invalid" result && Js.truthy did_you_mean then
    match Js.js_String E did_you_mean with
    | Js.Returns suggestion =>
        let st := updateUI (Some false) ("Maksud Anda: " +:+ suggestion +:+ "?") false st in
        let st := schedule (AttachSuggestion suggestion) st in
        set_lastValidatedEmail email (set_validationState (Some false) st)
    | Js.Throws _ _ => st
    end
  else if Js.is_string "invalid" result then
    let st := updateUI (Some false) EmptyString false st in
    set_lastValidatedEmail email (set_validationState (Some false) st)
  else
    set_validationState None (updateUI None "Error validating email" false st).

(** The current input value no longer is the one under validation: the
    result is dropped and the display reset. *)
Definition validateEmail_discard (st : state) : state :=
  set_validationState None (updateUI None EmptyString false st).

(** [validateEmail(email)] resumed by the end of the fetch of round [i].
    The boolean tells whether the call has run to its end, by a return
    or by an exception that leaves through the [finally] block: reading
    [data.result] of a body that is null throws, outside the inner [try],
    and leaves the state as it is. *)
Definition validateEmail_fetched (email : string) (i : nat) (o : fetch_outcome)
    (st : state) : state * bool :=
  match o with
  | Failed =>
      (set_validationState None (updateUI None "Error validating email" false st), true)
  | Answered data =>
      if negb (String.eqb (trim (input_value st)) email)
      then (validateEmail_discard st, true)
      else
        match data with
        | Js.JNull | Js.JUndefined => (st, true)
        | _ =>
            if negb (Js.is_string "unknown" (Js.property "result" data))
            then (validateEmail_conclude email data st, true)
            else if (i <? 2)%nat
            then (set_validations (validations st ++ [mkValidation email i Waiting]) st,
                  false)
            else (validateEmail_conclude email data st, true)
        end
  end.

(** [validateEmail(email)] resumed after the 1500 ms pause of round [i]. *)
Definition validateEmail_waited (email : string) (i : nat) (st : state) : state * bool :=
  if negb (String.eqb (trim (input_value st)) email)
  then (validateEmail_discard st, true)
  else (set_validations (validations st ++ [mkValidation email (S i) Fetching]) st, false).

(** The [finally] block of [validateEmail]. *)
Definition validateEmail_finally (st : state) : state :=
  set_activeEmail None (set_isValidating false st).

(** A call of [validateEmail(email)] has run to its end: its [finally]
    block runs, then the completion callback of the queue, which may
    dispatch the next entry, whose validation may in turn end at once
    (on a cache hit).  [fuel] bounds the number of entries so run; the
    queue never holds more than five. *)
Fixpoint complete (fuel : nat) (email : string) (st : state) : state :=
  let st := validateEmail_finally st in
  let q := Queue.release email (queueManager st) in
  match Queue.next q with
  | None => set_queueManager q st
  | Some (_, entry) =>
      let st := set_queueManager (Queue.process q) st in
      let '(st, finished) := validateEmail_begin (Queue.job entry) st in
      if finished then
        match fuel with
        | S fuel => complete fuel (Queue.job entry) st
        | O => st
        end
      else st
  end.

Definition settle (email : string) (r : state * bool) : state :=
  let '(st, finished) := r in
  if finished then complete (S (length (Queue.queue (queueManager st)))) email st else st.

(** [queueManager.add(email, done => validateEmail(email).finally(done))] *)
Definition enqueue (email : string) (st : state) : state :=
  let q := Queue.cancel email (queueManager st) in
  if Z.of_nat (length (Queue.queue q)) <? Queue.MAX_SIZE then
    let q := Queue.mk (Queue.queue q ++ [Queue.mkItem email email])
                      (Queue.activeCount q) (Queue.running q) in
    match Queue.next q with
    | None => set_queueManager q st
    | Some (_, entry) =>
        let st := set_queueManager (Queue.process q) st in
        settle (Queue.job entry) (validateEmail_begin (Queue.job entry) st)
    end
  else set_queueManager q st.

Definition queueValidation (st : state) : state :=
  let email := trim (input_value st) in
  if negb (JsString.truthy email) || negb (checkValidity (input_value st))
  then updateUI None EmptyString false st
  else if (isValidating st
           && match activeEmail st with Some a => String.eqb a email | None => false end)
          || (match validationState st with Some true => true | _ => false end
              && String.eqb (lastValidatedEmail st) email)
  then st
  else enqueue email st.

(** [handleInput()], after the input's value has become [v]. *)
Definition handleInput (v : string) (st : state) : state :=
  let st := set_input_value v st in
  let value := trim v in
  let st :=
    match validationState st with
    | Some false => set_invalidEdited (negb (String.eqb value (lastValidatedEmail st))) st
    | _ => set_invalidEdited false st
    end in
  if JsString.truthy value && checkValidity v
  then set_debounceTimer true st
  else
    let st := set_debounceTimer false st in
    let st := updateUI None EmptyString false st in
    if negb (JsString.truthy value) then
      updateSubmitButton Clear (set_validationState None st)
    else
      match validationState st with
      | Some false => updateSubmitButton Disable st
      | _ => updateSubmitButton Clear st
      end.

Definition handleBlur (st : state) : state :=
  match validationState st with
  | Some false =>
      if invalidEdited st && JsString.truthy (trim (input_value st))
         && checkValidity (input_value st)
      then set_invalidEdited false (queueValidation st)
      else st
  | _ => st
  end.

(** Remove the [n]-th suspended validation. *)
Definition drop_validation (n : nat) (st : state) : state :=
  set_validations (take n (validations st) ++ drop (S n) (validations st)) st.

(** What can happen to the validator. *)
Inductive event : Type :=
  | Input (v : string)                    (* the user edits the field *)
  | Blur
  | Submit                                (* the form's submit event *)
  | SubmitClick                           (* a click on the submit button *)
  | DebounceFires
  | FetchSettles (n : nat) (o : fetch_outcome)
  | PauseElapsed (n : nat)
  | SuggestionClick
  | Frame                                 (* the animation frame *)
  | Advance (dt : Z).                     (* time passes *)

Definition step (e : event) (st : state) : state :=
  match e with
  | Input v => handleInput v st
  | Blur => handleBlur st
  | Submit => snd (handleSubmit st)
  | SubmitClick => snd (handleSubmitClick st)
  | DebounceFires =>
      if debounceTimer st then queueValidation (set_debounceTimer false st) else st
  | FetchSettles n o =>
      match validations st !! n with
      | Some (mkValidation email i Fetching) =>
          settle email (validateEmail_fetched email i o (drop_validation n st))
      | _ => st
      end
  | PauseElapsed n =>
      match validations st !! n with
      | Some (mkValidation email i Waiting) =>
          settle email (validateEmail_waited email i (drop_validation n st))
      | _ => st
      end
  | SuggestionClick =>
      match suggestion_handler (view st) with
      | Some s => queueValidation (set_input_value s st)
      | None => st
      end
  | Frame => flush st
  | Advance dt => set_clock (clock st + Z.max 0 dt) st
  end.

Definition run (events : list event) (st : state) : state :=
  foldl (fun st e => step e st) st events.

(** The fetches in flight for [email]. *)
Definition fetches_in_flight (email : string) (st : state) : list validation :=
  List.filter (fun v => String.eqb (v_email v) email
                        && match v_phase v with Fetching => true | Waiting => false end)
              (validations st).

End WithPage.
End Email.


(** ** The WhatsApp validator *)

Module WhatsApp.
Import JsString.

(** CONFIG, after the data attributes of the script tag are merged in. *)
Record config : Type := mkConfig {
  MIN_PHONE_LENGTH : Z;
  DEBOUNCE_DELAY : Z;
  RETRY_DELAYS : list Z;
  TIMEOUTS : list Z;
  MAX_REQUESTS : Z;
  TIME_WINDOW : Z;
  CACHE : Cache.config;
}.

Definition default_config : config :=
  mkConfig 10 1000 [3000; 5000] [10000; 7000; 5000] 20 60000 (Cache.wa_config None None).

Definition ERROR_INPUT : string := "No. WhatsApp yang Anda masukkan salah".
Definition ERROR_SUBMIT : string := "Perbaiki nomor WhatsApp sebelum submit!".
Definition RATE_LIMIT : string :=
  "Terlalu banyak percobaan validasi. Silakan tunggu sebentar.".
Definition TEST_KEY : string := "__wa_test__".

(** NetworkMonitor *)
Inductive quality : Type := Poor | Moderate | Good.

Definition getOptimalTimeout (q : quality) : Z :=
  match q with
  | Poor => 15000
  | Moderate => 10000
  | Good => 7000
  end.

Inductive icon : Type := NoIcon | Loading | Success.
Inductive action : Type := Enable | Disable | Clear.

(** The closures handed to [domBatcher.schedule], by the method that
    creates them; [hasOtherError] is the value [updateUI] computed when
    it created the closure. *)
Inductive dom_op : Type :=
  | UpdateUI (status : option bool) (message : string) (isLoading hasOtherError : bool)
  | InputIcon (type : icon)
  | SubmitButton (a : action)
  | Failsafe                            (* the closure of activateFailsafe *)
  | SubmitError.                        (* the closure of showValidationError *)

(** What the page shows, as far as the validator writes it. *)
Record ui : Type := mkUi {
  icon_shown : icon;   (* the icon container *)
  status_text : option (string * bool);   (* the message element when visible: its text, and whether it is styled as an error *)
  border_red : bool;
  border_green : bool;
  button_disabled : bool;   (* [submitButton.disabled] *)
  button_message : bool;   (* the message under the button is visible *)
}.


Definition initial_ui (disabled : bool) : ui := mkUi NoIcon None false false disabled false.

(** A [validateWhatsApp] call suspended on [await makeRequest(...)]. *)
Record waiter : Type := mkWaiter {
  w_attempt : nat;
  w_rawValue : string;
  w_phone : string;
  w_promise : nat;
}.

(** A retry armed by [setTimeout(..., retryDelay)]. *)
Record retry : Type := mkRetry {
  r_attempt : nat;
  r_rawValue : string;
  r_delay : Z;
}.

(** How the promise of a request settles: rejected (network failure,
    abort after the timeout, HTTP status of 400 or more, not JSON), or
    fulfilled with the parsed body. *)
Inductive net_outcome : Type :=
  | NetError
  | NetData (data : Js.jsval).

(** The validator instance together with the page and the environment it acts on. *)
Record state : Type := mk {
  input_value : string;   (* [phoneInput.value] *)
  focused : bool;   (* the input has the focus *)
  domModified : bool;
  firstInteraction : bool;
  debounceTimer : bool;   (* a debounce timer is armed *)
  lastCheckedNumber : string;
  validationState : option bool;
  originalButton_disabled : bool;   (* [state.originalButton.disabled] *)
  failsafeMode : bool;
  retryController : bool;   (* [state.retryController] is not null *)
  isRetrying : bool;
  actualValue : string;
  isFormatted : bool;
  queueManager : Queue.t unit;
  cacheManager : Cache.manager;
  storage : Storage.t bool;   (* [localStorage]; a result is its [isRegistered] *)
  requestManager : RequestManager.t;
  errors : Z;   (* [errorBoundary.errors.length] *)
  recoveries : nat;   (* armed timers of [attemptAutoRecovery] *)
  online : bool;   (* [networkMonitor.online] *)
  connectionQuality : quality;
  budget_ok : bool;   (* memory and DOM size are within budget *)
  requestCount : Z;   (* [performanceBudget.metrics.requestCount] *)
  lastRequestReset : Z;
  other_error : bool;   (* another message of the form is displayed *)
  batch : list dom_op;   (* [domBatcher.updateQueue] *)
  view : ui;
  waiting : list waiter;   (* [validateWhatsApp] calls suspended on [makeRequest] *)
  retries : list retry;   (* armed retry timers *)
  clock : Z;   (* [Date.now()] *)
  listening : bool;   (* the listeners added through [eventManager] are installed *)
}.

Definition set_input_value (v : string) (st : state) : state :=
  mk v (focused st) (domModified st) (firstInteraction st) (debounceTimer st) (lastCheckedNumber st) (validationState st) (originalButton_disabled st) (failsafeMode st) (retryController st) (isRetrying st) (actualValue st) (isFormatted st) (queueManager st) (cacheManager st) (storage st) (requestManager st) (errors st) (recoveries st) (online st) (connectionQuality st) (budget_ok st) (requestCount st) (lastRequestReset st) (other_error st) (batch st) (view st) (waiting st) (retries st) (clock st) (listening st).
Definition set_focused (v : bool) (st : state) : state :=
  mk (input_value st) v (domModified st) (firstInteraction st) (debounceTimer st) (lastCheckedNumber st) (validationState st) (originalButton_disabled st) (failsafeMode st) (retryController st) (isRetrying st) (actualValue st) (isFormatted st) (queueManager st) (cacheManager st) (storage st) (requestManager st) (errors st) (recoveries st) (online st) (connectionQuality st) (budget_ok st) (requestCount st) (lastRequestReset st) (other_error st) (batch st) (view st) (waiting st) (retries st) (clock st) (listening st).
Definition set_domModified (v : bool) (st : state) : state :=
  mk (input_value st) (focused st) v (firstInteraction st) (debounceTimer st) (lastCheckedNumber st) (validationState st) (originalButton_disabled st) (failsafeMode st) (retryController st) (isRetrying st) (actualValue st) (isFormatted st) (queueManager st) (cacheManager st) (storage st) (requestManager st) (errors st) (recoveries st) (online st) (connectionQuality st) (budget_ok st) (requestCount st) (lastRequestReset st) (other_error st) (batch st) (view st) (waiting st) (retries st) (clock st) (listening st).
Definition set_firstInteraction (v : bool) (st : state) : state :=
  mk (input_value st) (focused st) (domModified st) v (debounceTimer st) (lastCheckedNumber st) (validationState st) (originalButton_disabled st) (failsafeMode st) (retryController st) (isRetrying st) (actualValue st) (isFormatted st) (queueManager st) (cacheManager st) (storage st) (requestManager st) (errors st) (recoveries st) (online st) (connectionQuality st) (budget_ok st) (requestCount st) (lastRequestReset st) (other_error st) (batch st) (view st) (waiting st) (retries st) (clock st) (listening st).
Definition set_debounceTimer (v : bool) (st : state) : state :=
  mk (input_value st) (focused st) (domModified st) (firstInteraction st) v (lastCheckedNumber st) (validationState st) (originalButton_disabled st) (failsafeMode st) (retryController st) (isRetrying st) (actualValue st) (isFormatted st) (queueManager st) (cacheManager st) (storage st) (requestManager st) (errors st) (recoveries st) (online st) (connectionQuality st) (budget_ok st) (requestCount st) (lastRequestReset st) (other_error st) (batch st) (view st) (waiting st) (retries st) (clock st) (listening st).
Definition set_lastCheckedNumber (v : string) (st : state) : state :=
  mk (input_value st) (focused st) (domModified st) (firstInteraction st) (debounceTimer st) v (validationState st) (originalButton_disabled st) (failsafeMode st) (retryController st) (isRetrying st) (actualValue st) (isFormatted st) (queueManager st) (cacheManager st) (storage st) (requestManager st) (errors st) (recoveries st) (online st) (connectionQuality st) (budget_ok st) (requestCount st) (lastRequestReset st) (other_error st) (batch st) (view st) (waiting st) (retries st) (clock st) (listening st).
Definition set_validationState (v : option bool) (st : state) : state :=
  mk (input_value st) (focused st) (domModified st) (firstInteraction st) (debounceTimer st) (lastCheckedNumber st) v (originalButton_disabled st) (failsafeMode st) (retryController st) (isRetrying st) (actualValue st) (isFormatted st) (queueManager st) (cacheManager st) (storage st) (requestManager st) (errors st) (recoveries st) (online st) (connectionQuality st) (budget_ok st) (requestCount st) (lastRequestReset st) (other_error st) (batch st) (view st) (waiting st) (retries st) (clock st) (listening st).
Definition set_originalButton_disabled (v : bool) (st : state) : state :=
  mk (input_value st) (focused st) (domModified st) (firstInteraction st) (debounceTimer st) (lastCheckedNumber st) (validationState st) v (failsafeMode st) (retryController st) (isRetrying st) (actualValue st) (isFormatted st) (queueManager st) (cacheManager st) (storage st) (requestManager st) (errors st) (recoveries st) (online st) (connectionQuality st) (budget_ok st) (requestCount st) (lastRequestReset st) (other_error st) (batch st) (view st) (waiting st) (retries st) (clock st) (listening st).
Definition set_failsafeMode (v : bool) (st : state) : state :=
  mk (input_value st) (focused st) (domModified st) (firstInteraction st) (debounceTimer st) (lastCheckedNumber st) (validationState st) (originalButton_disabled st) v (retryController st) (isRetrying st) (actualValue st) (isFormatted st) (queueManager st) (cacheManager st) (storage st) (requestManager st) (errors st) (recoveries st) (online st) (connectionQuality st) (budget_ok st) (requestCount st) (lastRequestReset st) (other_error st) (batch st) (view st) (waiting st) (retries st) (clock st) (listening st).
Definition set_retryController (v : bool) (st : state) : state :=
  mk (input_value st) (focused st) (domModified st) (firstInteraction st) (debounceTimer st) (lastCheckedNumber st) (validationState st) (originalButton_disabled st) (failsafeMode st) v (isRetrying st) (actualValue st) (isFormatted st) (queueManager st) (cacheManager st) (storage st) (requestManager st) (errors st) (recoveries st) (online st) (connectionQuality st) (budget_ok st) (requestCount st) (lastRequestReset st) (other_error st) (batch st) (view st) (waiting st) (retries st) (clock st) (listening st).
Definition set_isRetrying (v : bool) (st : state) : state :=
  mk (input_value st) (focused st) (domModified st) (firstInteraction st) (debounceTimer st) (lastCheckedNumber st) (validationState st) (originalButton_disabled st) (failsafeMode st) (retryController st) v (actualValue st) (isFormatted st) (queueManager st) (cacheManager st) (storage st) (requestManager st) (errors st) (recoveries st) (online st) (connectionQuality st) (budget_ok st) (requestCount st) (lastRequestReset st) (other_error st) (batch st) (view st) (waiting st) (retries st) (clock st) (listening st).
Definition set_actualValue (v : string) (st : state) : state :=
  mk (input_value st) (focused st) (domModified st) (firstInteraction st) (debounceTimer st) (lastCheckedNumber st) (validationState st) (originalButton_disabled st) (failsafeMode st) (retryController st) (isRetrying st) v (isFormatted st) (queueManager st) (cacheManager st) (storage st) (requestManager st) (errors st) (recoveries st) (online st) (connectionQuality st) (budget_ok st) (requestCount st) (lastRequestReset st) (other_error st) (batch st) (view st) (waiting st) (retries st) (clock st) (listening st).
Definition set_isFormatted (v : bool) (st : state) : state :=
  mk (input_value st) (focused st) (domModified st) (firstInteraction st) (debounceTimer st) (lastCheckedNumber st) (validationState st) (originalButton_disabled st) (failsafeMode st) (retryController st) (isRetrying st) (actualValue st) v (queueManager st) (cacheManager st) (storage st) (requestManager st) (errors st) (recoveries st) (online st) (connectionQuality st) (budget_ok st) (requestCount st) (lastRequestReset st) (other_error st) (batch st) (view st) (waiting st) (retries st) (clock st) (listening st).
Definition set_queueManager (v : Queue.t unit) (st : state) : state :=
  mk (input_value st) (focused st) (domModified st) (firstInteraction st) (debounceTimer st) (lastCheckedNumber st) (validationState st) (originalButton_disabled st) (failsafeMode st) (retryController st) (isRetrying st) (actualValue st) (isFormatted st) v (cacheManager st) (storage st) (requestManager st) (errors st) (recoveries st) (online st) (connectionQuality st) (budget_ok st) (requestCount st) (lastRequestReset st) (other_error st) (batch st) (view st) (waiting st) (retries st) (clock st) (listening st).
Definition set_cacheManager (v : Cache.manager) (st : state) : state :=
  mk (input_value st) (focused st) (domModified st) (firstInteraction st) (debounceTimer st) (lastCheckedNumber st) (validationState st) (originalButton_disabled st) (failsafeMode st) (retryController st) (isRetrying st) (actualValue st) (isFormatted st) (queueManager st) v (storage st) (requestManager st) (errors st) (recoveries st) (online st) (connectionQuality st) (budget_ok st) (requestCount st) (lastRequestReset st) (other_error st) (batch st) (view st) (waiting st) (retries st) (clock st) (listening st).
Definition set_storage (v : Storage.t bool) (st : state) : state :=
  mk (input_value st) (focused st) (domModified st) (firstInteraction st) (debounceTimer st) (lastCheckedNumber st) (validationState st) (originalButton_disabled st) (failsafeMode st) (retryController st) (isRetrying st) (actualValue st) (isFormatted st) (queueManager st) (cacheManager st) v (requestManager st) (errors st) (recoveries st) (online st) (connectionQuality st) (budget_ok st) (requestCount st) (lastRequestReset st) (other_error st) (batch st) (view st) (waiting st) (retries st) (clock st) (listening st).
Definition set_requestManager (v : RequestManager.t) (st : state) : state :=
  mk (input_value st) (focused st) (domModified st) (firstInteraction st) (debounceTimer st) (lastCheckedNumber st) (validationState st) (originalButton_disabled st) (failsafeMode st) (retryController st) (isRetrying st) (actualValue st) (isFormatted st) (queueManager st) (cacheManager st) (storage st) v (errors st) (recoveries st) (online st) (connectionQuality st) (budget_ok st) (requestCount st) (lastRequestReset st) (other_error st) (batch st) (view st) (waiting st) (retries st) (clock st) (listening st).
Definition set_errors (v : Z) (st : state) : state :=
  mk (input_value st) (focused st) (domModified st) (firstInteraction st) (debounceTimer st) (lastCheckedNumber st) (validationState st) (originalButton_disabled st) (failsafeMode st) (retryController st) (isRetrying st) (actualValue st) (isFormatted st) (queueManager st) (cacheManager st) (storage st) (requestManager st) v (recoveries st) (online st) (connectionQuality st) (budget_ok st) (requestCount st) (lastRequestReset st) (other_error st) (batch st) (view st) (waiting st) (retries st) (clock st) (listening st).
Definition set_recoveries (v : nat) (st : state) : state :=
  mk (input_value st) (focused st) (domModified st) (firstInteraction st) (debounceTimer st) (lastCheckedNumber st) (validationState st) (originalButton_disabled st) (failsafeMode st) (retryController st) (isRetrying st) (actualValue st) (isFormatted st) (queueManager st) (cacheManager st) (storage st) (requestManager st) (errors st) v (online st) (connectionQuality st) (budget_ok st) (requestCount st) (lastRequestReset st) (other_error st) (batch st) (view st) (waiting st) (retries st) (clock st) (listening st).
Definition set_online (v : bool) (st : state) : state :=
  mk (input_value st) (focused st) (domModified st) (firstInteraction st) (debounceTimer st) (lastCheckedNumber st) (validationState st) (originalButton_disabled st) (failsafeMode st) (retryController st) (isRetrying st) (actualValue st) (isFormatted st) (queueManager st) (cacheManager st) (storage st) (requestManager st) (errors st) (recoveries st) v (connectionQuality st) (budget_ok st) (requestCount st) (lastRequestReset st) (other_error st) (batch st) (view st) (waiting st) (retries st) (clock st) (listening st).
Definition set_connectionQuality (v : quality) (st : state) : state :=
  mk (input_value st) (focused st) (domModified st) (firstInteraction st) (debounceTimer st) (lastCheckedNumber st) (validationState st) (originalButton_disabled st) (failsafeMode st) (retryController st) (isRetrying st) (actualValue st) (isFormatted st) (queueManager st) (cacheManager st) (storage st) (requestManager st) (errors st) (recoveries st) (online st) v (budget_ok st) (requestCount st) (lastRequestReset st) (other_error st) (batch st) (view st) (waiting st) (retries st) (clock st) (listening st).
Definition set_budget_ok (v : bool) (st : state) : state :=
  mk (input_value st) (focused st) (domModified st) (firstInteraction st) (debounceTimer st) (lastCheckedNumber st) (validationState st) (originalButton_disabled st) (failsafeMode st) (retryController st) (isRetrying st) (actualValue st) (isFormatted st) (queueManager st) (cacheManager st) (storage st) (requestManager st) (errors st) (recoveries st) (online st) (connectionQuality st) v (requestCount st) (lastRequestReset st) (other_error st) (batch st) (view st) (waiting st) (retries st) (clock st) (listening st).
Definition set_requestCount (v : Z) (st : state) : state :=
  mk (input_value st) (focused st) (domModified st) (firstInteraction st) (debounceTimer st) (lastCheckedNumber st) (validationState st) (originalButton_disabled st) (failsafeMode st) (retryController st) (isRetrying st) (actualValue st) (isFormatted st) (queueManager st) (cacheManager st) (storage st) (requestManager st) (errors st) (recoveries st) (online st) (connectionQuality st) (budget_ok st) v (lastRequestReset st) (other_error st) (batch st) (view st) (waiting st) (retries st) (clock st) (listening st).
Definition set_lastRequestReset (v : Z) (st : state) : state :=
  mk (input_value st) (focused st) (domModified st) (firstInteraction st) (debounceTimer st) (lastCheckedNumber st) (validationState st) (originalButton_disabled st) (failsafeMode st) (retryController st) (isRetrying st) (actualValue st) (isFormatted st) (queueManager st) (cacheManager st) (storage st) (requestManager st) (errors st) (recoveries st) (online st) (connectionQuality st) (budget_ok st) (requestCount st) v (other_error st) (batch st) (view st) (waiting st) (retries st) (clock st) (listening st).
Definition set_other_error (v : bool) (st : state) : state :=
  mk (input_value st) (focused st) (domModified st) (firstInteraction st) (debounceTimer st) (lastCheckedNumber st) (validationState st) (originalButton_disabled st) (failsafeMode st) (retryController st) (isRetrying st) (actualValue st) (isFormatted st) (queueManager st) (cacheManager st) (storage st) (requestManager st) (errors st) (recoveries st) (online st) (connectionQuality st) (budget_ok st) (requestCount st) (lastRequestReset st) v (batch st) (view st) (waiting st) (retries st) (clock st) (listening st).
Definition set_batch (v : list dom_op) (st : state) : state :=
  mk (input_value st) (focused st) (domModified st) (firstInteraction st) (debounceTimer st) (lastCheckedNumber st) (validationState st) (originalButton_disabled st) (failsafeMode st) (retryController st) (isRetrying st) (actualValue st) (isFormatted st) (queueManager st) (cacheManager st) (storage st) (requestManager st) (errors st) (recoveries st) (online st) (connectionQuality st) (budget_ok st) (requestCount st) (lastRequestReset st) (other_error st) v (view st) (waiting st) (retries st) (clock st) (listening st).
Definition set_view (v : ui) (st : state) : state :=
  mk (input_value st) (focused st) (domModified st) (firstInteraction st) (debounceTimer st) (lastCheckedNumber st) (validationState st) (originalButton_disabled st) (failsafeMode st) (retryController st) (isRetrying st) (actualValue st) (isFormatted st) (queueManager st) (cacheManager st) (storage st) (requestManager st) (errors st) (recoveries st) (online st) (connectionQuality st) (budget_ok st) (requestCount st) (lastRequestReset st) (other_error st) (batch st) v (waiting st) (retries st) (clock st) (listening st).
Definition set_waiting (v : list waiter) (st : state) : state :=
  mk (input_value st) (focused st) (domModified st) (firstInteraction st) (debounceTimer st) (lastCheckedNumber st) (validationState st) (originalButton_disabled st) (failsafeMode st) (retryController st) (isRetrying st) (actualValue st) (isFormatted st) (queueManager st) (cacheManager st) (storage st) (requestManager st) (errors st) (recoveries st) (online st) (connectionQuality st) (budget_ok st) (requestCount st) (lastRequestReset st) (other_error st) (batch st) (view st) v (retries st) (clock st) (listening st).
Definition set_retries (v : list retry) (st : state) : state :=
  mk (input_value st) (focused st) (domModified st) (firstInteraction st) (debounceTimer st) (lastCheckedNumber st) (validationState st) (originalButton_disabled st) (failsafeMode st) (retryController st) (isRetrying st) (actualValue st) (isFormatted st) (queueManager st) (cacheManager st) (storage st) (requestManager st) (errors st) (recoveries st) (online st) (connectionQuality st) (budget_ok st) (requestCount st) (lastRequestReset st) (other_error st) (batch st) (view st) (waiting st) v (clock st) (listening st).
Definition set_clock (v : Z) (st : state) : state :=
  mk (input_value st) (focused st) (domModified st) (firstInteraction st) (debounceTimer st) (lastCheckedNumber st) (validationState st) (originalButton_disabled st) (failsafeMode st) (retryController st) (isRetrying st) (actualValue st) (isFormatted st) (queueManager st) (cacheManager st) (storage st) (requestManager st) (errors st) (recoveries st) (online st) (connectionQuality st) (budget_ok st) (requestCount st) (lastRequestReset st) (other_error st) (batch st) (view st) (waiting st) (retries st) v (listening st).
Definition set_listening (v : bool) (st : state) : state :=
  mk (input_value st) (focused st) (domModified st) (firstInteraction st) (debounceTimer st) (lastCheckedNumber st) (validationState st) (originalButton_disabled st) (failsafeMode st) (retryController st) (isRetrying st) (actualValue st) (isFormatted st) (queueManager st) (cacheManager st) (storage st) (requestManager st) (errors st) (recoveries st) (online st) (connectionQuality st) (budget_ok st) (requestCount st) (lastRequestReset st) (other_error st) (batch st) (view st) (waiting st) (retries st) (clock st) v.

Section WithConfig.
Variable C : config.

Definition initial (value : string) (disabled : bool) (store : Storage.t bool) : state :=
  mk value false false false false EmptyString None false false false false
     EmptyString false Queue.empty Cache.new_manager store
     (RequestManager.init (MAX_REQUESTS C) (TIME_WINDOW C))
     0 0 true Good true 0 0 false [] (initial_ui disabled) [] [] 0 true.

Definition set_ui (f : ui -> ui) (st : state) : state := set_view (f (view st)) st.

Definition with_icon (i : icon) (u : ui) : ui :=
  mkUi i (status_text u) (border_red u) (border_green u) (button_disabled u)
       (button_message u).
Definition with_status (s : option (string * bool)) (u : ui) : ui :=
  mkUi (icon_shown u) s (border_red u) (border_green u) (button_disabled u)
       (button_message u).
Definition with_borders (red green : bool) (u : ui) : ui :=
  mkUi (icon_shown u) (status_text u) red green (button_disabled u) (button_message u).
Definition with_button_disabled (d : bool) (u : ui) : ui :=
  mkUi (icon_shown u) (status_text u) (border_red u) (border_green u) d
       (button_message u).
Definition with_button_message (m : bool) (u : ui) : ui :=
  mkUi (icon_shown u) (status_text u) (border_red u) (border_green u)
       (button_disabled u) m.

(** [domBatcher.schedule(fn)] *)
Definition schedule (op : dom_op) (st : state) : state :=
  set_batch (batch st ++ [op]) st.

(** The page is assumed to contain the input, its wrappers and the
    submit button, so the element lookups of these methods succeed. *)
Definition updateInputIcon (type : icon) (st : state) : state :=
  if negb (domModified st) then st else schedule (InputIcon type) st.

Definition updateSubmitButton (a : action) (st : state) : state :=
  if negb (domModified st) then st else schedule (SubmitButton a) st.

Definition updateUI (status : option bool) (message : string) (isLoading : bool)
    (st : state) : state :=
  if negb (domModified st) then set_validationState status st
  else schedule (UpdateUI status message isLoading (other_error st)) st.

(** What a scheduled closure does when the batch is flushed. *)
Definition run_op (op : dom_op) (st : state) : state :=
  match op with
  | UpdateUI status message isLoading hasOtherError =>
      if hasOtherError && negb isLoading then
        let st := set_ui (with_status None) st in
        let st := updateInputIcon NoIcon st in
        match validationState st with
        | Some false => updateSubmitButton Disable st
        | _ => st
        end
      else
        let st := set_ui (fun u => with_borders (border_red u) false u) st in
        if isLoading then
          let st := updateInputIcon Loading st in
          set_ui (with_status None) st
        else
          match status with
          | Some true =>
              let st := set_ui (fun u => with_borders false (border_green u) u) st in
              let st := updateInputIcon Success st in
              let st := set_ui (with_status None) st in
              let st := set_validationState (Some true) st in
              updateSubmitButton Enable st
          | Some false =>
              let st := set_ui (with_borders true false) st in
              let st := updateInputIcon NoIcon st in
              let text := if JsString.truthy message then message else ERROR_INPUT in
              let st := set_ui (with_status (Some (text, true))) st in
              let st := set_validationState (Some false) st in
              updateSubmitButton Disable st
          | None =>
              let st := updateInputIcon NoIcon st in
              let st := set_ui (with_status None) st in
              if negb (JsString.truthy (trim (input_value st)))
              then updateSubmitButton Clear st else st
          end
  | InputIcon type => set_ui (with_icon type) st
  | SubmitButton Enable =>
      set_ui (fun u => with_button_message false
                         (with_button_disabled (originalButton_disabled st) u)) st
  | SubmitButton Disable =>
      set_ui (fun u => with_button_message true (with_button_disabled true u)) st
  | SubmitButton Clear =>
      match validationState st with
      | Some false => st
      | _ => set_ui (with_button_message false) st
      end
  | Failsafe =>
      let st := set_ui (fun u => with_status None (with_borders false false u)) st in
      let st := updateInputIcon NoIcon st in
      let st := set_validationState None st in
      let st := updateSubmitButton Enable st in
      set_ui (with_button_message false) st
  | SubmitError => set_ui (with_status (Some (ERROR_SUBMIT, true))) st
  end.

(** [domBatcher.flush()], run by the animation frame. *)
Definition flush (st : state) : state :=
  foldl (fun st op => run_op op st) (set_batch [] st) (batch st).

(** *** ErrorBoundary and PerformanceBudget *)

Definition attemptAutoRecovery (st : state) : state :=
  set_recoveries (S (recoveries st)) (set_errors (Z.min (errors st) 3) st).

Definition handleGracefulDegradation (st : state) : bool * state :=
  if 5 <? errors st then (true, attemptAutoRecovery st) else (false, st).

Definition captureError (st : state) : state :=
  let st := set_errors (errors st + 1) st in
  let st := if 10 <? errors st then set_errors (errors st - 1) st else st in
  snd (handleGracefulDegradation st).

(** [performanceBudget.incrementRequest()] *)
Definition incrementRequest (st : state) : bool * state :=
  let st := if 60000 <? clock st - lastRequestReset st
            then set_lastRequestReset (clock st) (set_requestCount 0 st)
            else st in
  let st := set_requestCount (requestCount st + 1) st in
  (requestCount st <? 15, st).

(** [requestManager.canMakeRequest()] *)
Definition canMakeRequest (st : state) : bool * state :=
  let rm := requestManager st in
  let '(ok, rl) := RateLimiter.canMakeRequest (clock st) (RequestManager.rateLimiter rm) in
  (ok, set_requestManager
         (RequestManager.mk (RequestManager.activeRequests rm) rl
            (RequestManager.next_promise rm) (RequestManager.in_flight rm)) st).

(** *** Validation *)

Definition activateFailsafe (st : state) : state :=
  schedule Failsafe (set_failsafeMode true st).

Definition handleValidationResult (isRegistered : bool) (phone : string)
    (st : state) : state :=
  let st := if isRegistered then updateUI (Some true) "WhatsApp aktif!" false st
            else updateUI (Some false) ERROR_INPUT false st in
  set_validationState (Some isRegistered) (set_lastCheckedNumber phone st).

(** [v.k] for a value that is not null. *)
Definition property (k : string) (v : Js.jsval) : Js.jsval :=
  match v with
  | Js.JObj fields => Js.get_field k fields
  | _ => Js.JUndefined
  end.

Definition is_true (v : Js.jsval) : bool :=
  match v with Js.JBool true => true | _ => false end.

(** The [isRegistered] computed from the body of the answer; [None]
    when reading [data.data] throws. *)
Definition isRegistered_of (data : Js.jsval) : option bool :=
  match data with
  | Js.JNull | Js.JUndefined => None
  | _ =>
      let d := property "data" data in
      if Js.truthy d && match d with Js.JObj _ | Js.JArr _ => true | _ => false end
      then Some (is_true (property "status" d))
      else match property "status" data with
           | Js.JUndefined => Some false
           | v => Some (is_true v)
           end
  end.

(** [validateWhatsApp(attemptNumber, onComplete)] from its first
    statement to [await makeRequest(...)]; the boolean tells whether the
    call has ended (and has called [onComplete]). *)
Definition validateWhatsApp_begin (attemptNumber : nat) (st : state) : state * bool :=
  let '(degraded, st) := handleGracefulDegradation st in
  if degraded then (activateFailsafe st, true)
  else if negb (online st) then (updateUI None "Tidak ada koneksi internet" false st, true)
  else if negb (budget_ok st) then (activateFailsafe st, true)
  else
    let st := if failsafeMode st && (attemptNumber =? 0)%nat
              then set_failsafeMode false st else st in
    if failsafeMode st && negb (isRetrying st) then (updateInputIcon NoIcon st, true)
    else
      let rawValue := trim (input_value st) in
      if negb (JsString.truthy rawValue) then
        let st := updateUI None EmptyString false st in
        let st := set_lastCheckedNumber EmptyString st in
        let st := set_validationState None st in
        (updateSubmitButton Clear st, true)
      else if len rawValue <? MIN_PHONE_LENGTH C then
        (updateUI None EmptyString false st, true)
      else
        let '(cached, m, s) :=
          Cache.get (CACHE C) TEST_KEY (clock st) rawValue (cacheManager st) (storage st) in
        let st := set_storage s (set_cacheManager m st) in
        match cached, attemptNumber with
        | Cache.Value isRegistered, O =>
            (handleValidationResult isRegistered rawValue st, true)
        | Cache.Undefined, O => (st, false)     (* reading [isRegistered] throws *)
        | _, _ =>
            let '(allowed, st) :=
              if (attemptNumber =? 0)%nat then canMakeRequest st else (true, st) in
            if negb allowed then (updateUI (Some false) RATE_LIMIT false st, true)
            else
              let '(within, st) := incrementRequest st in
              if negb within then
                (updateUI (Some false)
                   "Terlalu banyak validasi. Silakan tunggu sebentar." false st, true)
              else
                let phone := PhoneFormatter.normalize rawValue in
                if String.eqb phone (lastCheckedNumber st)
                   && match validationState st with Some _ => true | None => false end
                   && (attemptNumber =? 0)%nat
                then (st, true)
                else
                  let st := if (attemptNumber =? 0)%nat
                            then updateUI None EmptyString true st else st in
                  let st := if retryController st && (attemptNumber =? 0)%nat
                            then set_retryController false st else st in
                  let timeout := getOptimalTimeout (connectionQuality st) in
                  let '(p, _, rm) :=
                    RequestManager.makeRequest (TIMEOUTS C) phone attemptNumber
                      (Some timeout) (requestManager st) in
                  let st := set_requestManager rm st in
                  (set_waiting (waiting st ++ [mkWaiter attemptNumber rawValue phone p]) st,
                   false)
        end.

(** The [catch] block of [validateWhatsApp]. *)
Definition validateWhatsApp_rejected (w : waiter) (st : state) : state * bool :=
  let st := captureError st in
  if (w_attempt w <? 2)%nat then
    let retryDelay := default 0 (RETRY_DELAYS C !! w_attempt w) in
    let st := set_isRetrying true st in
    (set_retries (retries st ++ [mkRetry (w_attempt w) (w_rawValue w) retryDelay]) st,
     false)
  else
    let '(degraded, st) := handleGracefulDegradation st in
    if degraded then (activateFailsafe st, true)
    else
      let st := set_retryController false (set_isRetrying false st) in
      (activateFailsafe st, true).

(** [validateWhatsApp] resumed with the body of the answer. *)
Definition validateWhatsApp_resolved (w : waiter) (data : Js.jsval) (st : state)
  : state * bool :=
  let st := set_retryController false (set_isRetrying false st) in
  match isRegistered_of data with
  | None => validateWhatsApp_rejected w st
  | Some isRegistered =>
      let '(m, s, _) :=
        Cache.wa_set (CACHE C) TEST_KEY (clock st) (clock st) (clock st)
          (w_rawValue w) isRegistered isRegistered (cacheManager st) (storage st) in
      let st := set_storage s (set_cacheManager m st) in
      (handleValidationResult isRegistered (w_phone w) st, true)
  end.

Definition validateWhatsApp_resume (w : waiter) (o : net_outcome) (st : state)
  : state * bool :=
  match o with
  | NetError => validateWhatsApp_rejected w st
  | NetData data => validateWhatsApp_resolved w data st
  end.

(** [onComplete()]: the completion callback of the queue; it may
    dispatch the next entry, whose validation may in turn end at once.
    [fuel] bounds the number of entries so run; the queue never holds
    more than five. *)
Fixpoint onComplete (fuel : nat) (st : state) : state :=
  let q := Queue.release tt (queueManager st) in
  match Queue.next q with
  | None => set_queueManager q st
  | Some _ =>
      let st := set_queueManager (Queue.process q) st in
      let '(st, finished) := validateWhatsApp_begin 0 st in
      if finished then
        match fuel with
        | S fuel => onComplete fuel st
        | O => st
        end
      else st
  end.

Definition settle (r : state * bool) : state :=
  let '(st, finished) := r in
  if finished then onComplete (S (length (Queue.queue (queueManager st)))) st else st.

(** The callback of the retry timer. *)
Definition retry_callback (r : retry) (st : state) : state :=
  if String.eqb (trim (input_value st)) (r_rawValue r)
  then settle (validateWhatsApp_begin (S (r_attempt r)) st)
  else settle (updateInputIcon NoIcon (set_isRetrying false st), true).

(** [queueManager.add(phoneNumber, onComplete => validateWhatsApp(0, onComplete))] *)
Definition enqueue (phoneNumber : string) (st : state) : state :=
  let q := Queue.cancel phoneNumber (queueManager st) in
  if Z.of_nat (length (Queue.queue q)) <? Queue.MAX_SIZE then
    let q := Queue.mk (Queue.queue q ++ [Queue.mkItem phoneNumber tt])
                      (Queue.activeCount q) (Queue.running q) in
    match Queue.next q with
    | None => set_queueManager q st
    | Some _ =>
        let st := set_queueManager (Queue.process q) st in
        settle (validateWhatsApp_begin 0 st)
    end
  else set_queueManager q st.

Definition queueValidation (st : state) : state :=
  if negb (domModified st) then st
  else
    let phoneNumber := trim (input_value st) in
    if negb (JsString.truthy phoneNumber) || (len phoneNumber <? MIN_PHONE_LENGTH C)
    then st
    else enqueue phoneNumber st.

(** *** Event handlers *)

(** [onFirstInteraction()] *)
Definition onFirstInteraction (st : state) : state :=
  if firstInteraction st then st
  else
    let st := set_firstInteraction true st in
    let st := set_domModified true st in
    set_originalButton_disabled (button_disabled (view st)) st.

Definition validateSilently (value : string) (st : state) : state :=
  if MIN_PHONE_LENGTH C <=? len value then set_lastCheckedNumber value st else st.

(** [handleInput(e)] *)
Definition handleInput (st : state) : state :=
  let value := trim (input_value st) in
  if negb (domModified st) then validateSilently value st
  else
    let st := if retryController st
              then set_isRetrying false (set_retryController false st) else st in
    let st := if negb (String.eqb value (lastCheckedNumber st))
              then set_queueManager
                     (Queue.cancel (lastCheckedNumber st) (queueManager st)) st
              else st in
    let st := if failsafeMode st then set_failsafeMode false st else st in
    if negb (JsString.truthy value) then
      let st := set_validationState None st in
      let st := set_lastCheckedNumber EmptyString st in
      let st := updateUI None EmptyString false st in
      let st := updateInputIcon NoIcon st in
      updateSubmitButton Clear st
    else
      let st := match validationState st with
                | Some false => updateSubmitButton Disable st
                | _ => st
                end in
      if MIN_PHONE_LENGTH C <=? len value then set_debounceTimer true st
      else
        let st := set_debounceTimer false st in
        let st := updateUI None EmptyString false st in
        let st := set_lastCheckedNumber EmptyString st in
        match validationState st with
        | Some false => updateSubmitButton Disable st
        | _ => st
        end.

(** [handleBlur(e)] *)
Definition handleBlur (st : state) : state :=
  if negb (domModified st) then st
  else
    let st := set_debounceTimer false st in
    let value := trim (input_value st) in
    if MIN_PHONE_LENGTH C <=? len value then queueValidation st
    else if negb (JsString.truthy value)
    then updateSubmitButton Clear (set_validationState None st)
    else st.

(** The blur and focus listeners installed by [setupPhoneFormatter]. *)
Definition formatter_blur (st : state) : state :=
  if negb (JsString.truthy (input_value st)) then st
  else
    let st := set_actualValue (input_value st) st in
    let st := set_input_value (PhoneFormatter.format (actualValue st)) st in
    set_isFormatted true st.

Definition formatter_restore (st : state) : state :=
  if isFormatted st
  then set_isFormatted false (set_input_value (actualValue st) st)
  else st.

(** The focus event: the input gets the focus and the focus listeners,
    while they are installed, run. *)
Definition on_focus (st : state) : state :=
  let st := set_focused true st in
  if negb (listening st) then st
  else if firstInteraction st then formatter_restore st else onFirstInteraction st.

(** [phoneInput.focus()] *)
Definition focus (st : state) : state :=
  if focused st then st else on_focus st.

Definition showValidationError (st : state) : state :=
  focus (schedule SubmitError st).

(** What a handler did to the event it was given. *)
Record event_effect : Type := mkEffect {
  defaultPrevented : bool;
  propagationStopped : bool;
}.

(** [handleFormSubmit(e)] *)
Definition handleFormSubmit (st : state) : event_effect * state :=
  if isRetrying st && retryController st then
    (mkEffect false false,
     activateFailsafe (set_isRetrying false (set_retryController false st)))
  else if failsafeMode st then (mkEffect false false, st)
  else
    match validationState st with
    | Some false => (mkEffect true true, showValidationError st)
    | _ => (mkEffect false false, st)
    end.

(** [handleSubmitClick(e)] *)
Definition handleSubmitClick (st : state) : event_effect * state :=
  if isRetrying st && retryController st then
    (mkEffect false false,
     activateFailsafe (set_isRetrying false (set_retryController false st)))
  else if failsafeMode st then (mkEffect false false, st)
  else
    match validationState st with
    | Some false => (mkEffect true true, showValidationError st)
    | _ => (mkEffect false false, st)
    end.

(** [handleKeypress(e)] for the Enter key: the default action of the
    key (the implicit submission of the form) is prevented before any
    guard. *)
Definition handleKeypress (st : state) : event_effect * state :=
  (mkEffect true false,
   if negb (domModified st) then st
   else if isRetrying st && retryController st
   then activateFailsafe (set_isRetrying false (set_retryController false st))
   else if failsafeMode st then st
   else
     match validationState st with
     | Some false => schedule SubmitError st
     | _ =>
         let st := set_debounceTimer false st in
         if MIN_PHONE_LENGTH C <=? len (trim (input_value st))
         then queueValidation st else st
     end).

(** The callback of a 30-second interval of
    [setupPerformanceMonitoring]; [memory] is the reading of
    [checkMemoryUsage()].  An interval is set by the constructor and by
    every visibilitychange listener when the page becomes visible, and
    only the last one set is ever cleared, so the callback may run in
    any state. *)
Definition monitor_tick (memory : bool) (st : state) : state :=
  if memory then st
  else
    let '(m, s) := Cache.cleanup (CACHE C) TEST_KEY (clock st)
                     (cacheManager st) (storage st) in
    set_storage s (set_cacheManager m st).

(** [cleanup()], run by the beforeunload listener: the batch is flushed,
    the listeners are removed, the queue and the cache are cleaned, the
    error list is emptied and [state] is reset.  Timers other than the
    debounce timer and requests in flight are left alone.  The
    monitoring interval it clears is set up again by the
    visibilitychange listeners, which stay installed, so [MonitorTick]
    remains possible. *)
Definition cleanup (st : state) : state :=
  let st := set_debounceTimer false st in
  let st := flush st in
  let st := set_listening false st in
  let st := set_queueManager (Queue.cancel "all" (queueManager st)) st in
  let '(m, s) := Cache.cleanup (CACHE C) TEST_KEY (clock st)
                   (cacheManager st) (storage st) in
  let st := set_storage s (set_cacheManager m st) in
  let st := set_errors 0 st in
  let st := set_domModified false st in
  let st := set_firstInteraction false st in
  let st := set_lastCheckedNumber EmptyString st in
  let st := set_validationState None st in
  let st := set_originalButton_disabled false st in
  let st := set_failsafeMode false st in
  let st := set_retryController false st in
  let st := set_isRetrying false st in
  let st := set_actualValue EmptyString st in
  set_isFormatted false st.

Definition drop_nth {A} (n : nat) (l : list A) : list A := take n l ++ drop (S n) l.

(** The promise [p] settles: the request manager is told first (its
    [finally] block runs before the callers resume), then every call
    suspended on [p] resumes, in the order the calls were made. *)
Definition network_settles (p : nat) (o : net_outcome) (st : state) : state :=
  let success := match o with NetData _ => true | NetError => false end in
  let st := set_requestManager
              (RequestManager.settle (clock st) p success (requestManager st)) st in
  let resumed := List.filter (fun w => Nat.eqb (w_promise w) p) (waiting st) in
  let st := set_waiting
              (List.filter (fun w => negb (Nat.eqb (w_promise w) p)) (waiting st)) st in
  foldl (fun st w => settle (validateWhatsApp_resume w o st)) st resumed.

(** What can happen to the validator. *)
Inductive event : Type :=
  | Focus
  | Blur
  | Input (v : string)                    (* the user edits the field *)
  | KeyEnter
  | SubmitForm                            (* the form's submit event *)
  | SubmitClick                           (* a click on the submit button *)
  | DebounceFires
  | NetworkSettles (p : nat) (o : net_outcome)
  | RetryFires (n : nat)
  | RecoveryFires
  | Frame                                 (* the animation frame *)
  | Idle                                  (* the idle callback of the cache *)
  | Advance (dt : Z)                      (* time passes *)
  | Connection (on : bool) (q : quality)
  | Budget (ok : bool)
  | OtherError (shown : bool)
  | PageError                             (* an error event of the window *)
  | MonitorTick (memory : bool)           (* the 30-second monitoring interval *)
  | Unload.                               (* the beforeunload event *)

(** An event of the page reaches the handlers only while the listeners
    are installed. *)
Definition step (e : event) (st : state) : state :=
  match e with
  | Focus => on_focus st
  | Blur =>
      let st := set_focused false st in
      if negb (listening st) then st
      else
        let st := handleBlur st in
        if firstInteraction st then formatter_blur st else st
  | Input v =>
      let st := set_input_value v st in
      if negb (listening st) then st
      else handleInput (onFirstInteraction st)
  | KeyEnter => if negb (listening st) then st else snd (handleKeypress st)
  | SubmitForm =>
      if negb (listening st) then st
      else
        let st := snd (handleFormSubmit st) in
        if firstInteraction st then formatter_restore st else st
  | SubmitClick => if negb (listening st) then st else snd (handleSubmitClick st)
  | DebounceFires =>
      if debounceTimer st then queueValidation (set_debounceTimer false st) else st
  | NetworkSettles p o => network_settles p o st
  | RetryFires n =>
      match retries st !! n with
      | Some r => retry_callback r (set_retries (drop_nth n (retries st)) st)
      | None => st
      end
  | RecoveryFires =>
      match recoveries st with
      | S n => let st := set_recoveries n st in
               if errors st <? 3 then set_errors 0 st else st
      | O => st
      end
  | Frame => flush st
  | Idle =>
      if Cache.cleanupScheduled (cacheManager st) then
        let '(m, s) := Cache.idle_callback (CACHE C) TEST_KEY (clock st)
                         (cacheManager st) (storage st) in
        set_storage s (set_cacheManager m st)
      else st
  | Advance dt => set_clock (clock st + Z.max 0 dt) st
  | Connection on q => set_connectionQuality q (set_online on st)
  | Budget ok => set_budget_ok ok st
  | OtherError shown => set_other_error shown st
  | PageError => captureError st
  | MonitorTick memory => monitor_tick memory st
  | Unload => cleanup st
  end.

Definition run (events : list event) (st : state) : state :=
  foldl (fun st e => step e st) st events.

End WithConfig.
End WhatsApp.

(** ** Facts about phone-number normalization *)

Section Normalization.
Import JsString Js.

(** Every character of the string satisfies [p]. *)
Fixpoint all_chars (p : ascii -> bool) (s : string) : bool :=
  match s with
  | EmptyString => true
  | String c r => p c && all_chars p r
  end.

Lemma all_chars_filter p s : all_chars p (filter_chars p s) = true.
Proof.
  induction s as [|c r IH]; simpl; [reflexivity|].
  destruct (p c) eqn:Hc; simpl; [rewrite Hc|]; exact IH.
Qed.

Lemma filter_chars_all p s : all_chars p s = true -> filter_chars p s = s.
Proof.
  induction s as [|c r IH]; simpl; [reflexivity|].
  intros [Hc Hr]%andb_prop. rewrite Hc, IH by exact Hr. reflexivity.
Qed.

Lemma all_chars_slice_from p n s :
  all_chars p s = true -> all_chars p (slice_from n s) = true.
Proof.
  revert s. induction n as [|n IH]; intros [|c r]; simpl; auto.
  intros [_ Hr]%andb_prop. auto.
Qed.

Lemma digit_or_plus_not_space c :
  digit_or_plus c = true -> is_white_space c = false.
Proof.
  destruct c as [[] [] [] [] [] [] [] []]; vm_compute; congruence.
Qed.

Lemma trim_start_no_space s :
  all_chars digit_or_plus s = true -> trim_start s = s.
Proof.
  destruct s as [|c r]; simpl; [reflexivity|].
  intros [Hc _]%andb_prop. rewrite (digit_or_plus_not_space _ Hc). reflexivity.
Qed.

Lemma trim_end_no_space s :
  all_chars digit_or_plus s = true -> trim_end s = s.
Proof.
  induction s as [|c r IH]; simpl; [reflexivity|].
  intros [Hc Hr]%andb_prop. rewrite (IH Hr).
  destruct r; [rewrite (digit_or_plus_not_space _ Hc)|]; reflexivity.
Qed.

Lemma trim_no_space s : all_chars digit_or_plus s = true -> trim s = s.
Proof.
  intros H. unfold trim. rewrite trim_start_no_space by exact H.
  apply trim_end_no_space, H.
Qed.

(** A cleaned string that already starts with [+] is a fixed point of
    both normalizations. *)
Lemma normalize_plus_fixed r :
  all_chars digit_or_plus r = true ->
  PhoneFormatter.normalize (String "+" r) = String "+" r.
Proof.
  intros H. unfold PhoneFormatter.normalize.
  change (filter_chars digit_or_plus (String "+" r))
    with (String "+"%char (filter_chars digit_or_plus r)).
  rewrite (filter_chars_all _ _ H). reflexivity.
Qed.

Lemma formatPhoneNumber_plus_fixed E r :
  all_chars digit_or_plus r = true ->
  Worker.formatPhoneNumber E (JStr (String "+" r)) = Returns (JStr (String "+" r)).
Proof.
  intros H.
  assert (H' : all_chars digit_or_plus (String "+" r) = true) by exact H.
  unfold Worker.formatPhoneNumber.
  change (negb (truthy (JStr (String "+" r)))) with false. cbv iota.
  change (js_String E (JStr (String "+" r))) with (Returns (String "+"%char r)).
  unfold mbind, result_bind, bind.
  rewrite (trim_no_space _ H'), (filter_chars_all _ _ H'). reflexivity.
Qed.

(** On a string, [formatPhoneNumber] returns [null] (empty input) or a
    cleaned string that starts with [+]. *)
Lemma formatPhoneNumber_string_cases E x :
  Worker.formatPhoneNumber E (JStr x) = Returns JNull
  \/ exists r, all_chars digit_or_plus r = true
       /\ Worker.formatPhoneNumber E (JStr x) = Returns (JStr (String "+" r)).
Proof.
  unfold Worker.formatPhoneNumber.
  destruct (negb (truthy (JStr x))); [now left | right].
  change (js_String E (JStr x)) with (Returns x).
  unfold mbind, result_bind, bind.
  pose proof (all_chars_filter digit_or_plus (trim x)) as Hn.
  set (n := filter_chars digit_or_plus (trim x)) in *.
  destruct (startsWith n "0") eqn:H0.
  { eexists; split; [|reflexivity].
    change (all_chars digit_or_plus (slice_from 1 n) = true).
    now apply all_chars_slice_from. }
  destruct (startsWith n "62") eqn:H62.
  { eexists; split; [|reflexivity]. exact Hn. }
  destruct (startsWith n "+") eqn:Hp.
  { destruct n as [|c r]; [discriminate|].
    cbn [startsWith] in Hp.
    destruct (Ascii.eqb_spec "+"%char c) as [<-|_]; [|discriminate].
    exists r. split; [exact Hn | reflexivity]. }
  eexists; split; [|reflexivity]. exact Hn.
Qed.

(** C10. Phone-number normalization is idempotent: for every input string
    [x], the client's [PhoneFormatter.normalize] satisfies
    [normalize (normalize x) = normalize x], and the worker's
    [formatPhoneNumber], applied to its own result on [x], returns that
    result unchanged (the result is [null] for the empty string, and
    [formatPhoneNumber(null)] is [null]). *)
Theorem normalization_idempotent (E : engine) (x : string) :
  PhoneFormatter.normalize (PhoneFormatter.normalize x) = PhoneFormatter.normalize x
  /\ (Worker.formatPhoneNumber E (JStr x) ≫= Worker.formatPhoneNumber E)
     = Worker.formatPhoneNumber E (JStr x).
Proof.
  split.
  - unfold PhoneFormatter.normalize at 2 3.
    pose proof (all_chars_filter digit_or_plus x) as Hn.
    set (n := filter_chars digit_or_plus x) in *.
    destruct (startsWith n "0") eqn:H0.
    { apply normalize_plus_fixed.
      change (all_chars digit_or_plus (slice_from 1 n) = true).
      now apply all_chars_slice_from. }
    destruct (startsWith n "62") eqn:H62.
    { apply normalize_plus_fixed. exact Hn. }
    destruct (negb (startsWith n "+") && (9 <=? len n) && (len n <=? 13)) eqn:Hc.
    { apply normalize_plus_fixed. exact Hn. }
    unfold PhoneFormatter.normalize.
    rewrite (filter_chars_all _ _ Hn), H0, H62, Hc. reflexivity.
  - destruct (formatPhoneNumber_string_cases E x) as [H | (r & Hr & H)];
      rewrite H; unfold mbind, result_bind, bind; [reflexivity|].
    now apply formatPhoneNumber_plus_fixed.
Qed.

End Normalization.

(** ** Facts about the result caches *)

Section CacheTTL.
Import Storage Cache.
Context {R : Type}.

Lemma lookup_replace_item k (v : stored R) l :
  lookup_item k (replace_item k v l) = Some v.
Proof.
  induction l as [|[k' v'] r IH]; simpl.
  - now rewrite String.eqb_refl.
  - destruct (String.eqb k k') eqn:Hk; simpl; rewrite ?String.eqb_refl, ?Hk; auto.
Qed.

Lemma lookup_remove_item k (l : list (string * stored R)) :
  lookup_item k (remove_item k l) = None.
Proof.
  induction l as [|[k' v'] r IH]; simpl; [reflexivity|].
  unfold remove_item in *. simpl.
  destruct (String.eqb k k') eqn:Hk; simpl; rewrite ?Hk; auto.
Qed.

(** A manager that has not found the storage unavailable, on a writable
    storage, finds it available; probing again changes nothing. *)
Lemma isAvailable_writable test_key (m : manager) (s : Storage.t R) :
  available m <> Some false -> writable s = true ->
  exists m' s', isAvailable test_key m s = (true, m', s')
    /\ available m' = Some true /\ writable s' = true
    /\ isAvailable test_key m' s' = (true, m', s').
Proof.
  intros Hm Hw. unfold isAvailable.
  destruct (available m) as [[]|] eqn:Ha; [| congruence |].
  - exists m, s. rewrite Ha. auto.
  - unfold setItem. rewrite Hw. eexists _, _. split; [reflexivity|].
    simpl. auto.
Qed.

(** What [get] does on a storage that holds an entry written by [set]
    at [t0] with time-to-live [ttl], for an available cache. *)
Lemma get_after_write C test_key (m : manager) (s : Storage.t R) key result ttl t0 t0' now :
  isAvailable test_key m s = (true, m, s) ->
  getItem (KEY_PREFIX C +:+ key) s
    = Some (Parsed (Some result) (Some (t0 + ttl)) (Some t0')) ->
  get C test_key now key m s =
    if t0 + ttl <? now
    then (Null, m, removeItem (KEY_PREFIX C +:+ key) s)
    else (Value result, m, s).
Proof.
  intros Ha Hg. unfold get. rewrite Ha. simpl negb. cbv iota.
  rewrite Hg. reflexivity.
Qed.

Lemma getItem_setItem k (v : stored R) (s s' : Storage.t R) :
  setItem k v s = Some s' -> getItem k s' = Some v /\ writable s' = true.
Proof.
  unfold setItem, getItem. destruct (writable s) eqn:Hw; [|discriminate].
  intros [= <-]. simpl. split; [apply lookup_replace_item | reflexivity].
Qed.

Lemma getItem_removeItem k (s : Storage.t R) : getItem k (removeItem k s) = None.
Proof. apply lookup_remove_item. Qed.

(** C7. A cache entry written by [set] at time [t0] as a success, with
    successTTL = 600000, is returned by [get] at [t0 + 599999] (the read
    is a function of the storage and the clock alone: it involves no
    network call and leaves the storage as it is), and at [t0 + 600001]
    [get] returns null and deletes the entry from storage.  This holds for
    the email and for the WhatsApp CacheManager, provided the storage
    accepts the write. *)
Theorem cache_ttl_boundaries (C : config) (test_key key : string) (result : R)
    (t0 t0' tc : Z) (m : manager) (s : Storage.t R) :
  SUCCESS_TTL C = 600000 ->
  available m <> Some false ->
  writable s = true ->
  (forall m1 s1,
      email_set C test_key t0 t0' key result true m s = (m1, s1) ->
      get C test_key (t0 + 599999) key m1 s1 = (Value result, m1, s1)
      /\ get C test_key (t0 + 600001) key m1 s1
           = (Null, m1, removeItem (KEY_PREFIX C +:+ key) s1)
      /\ getItem (KEY_PREFIX C +:+ key) (removeItem (KEY_PREFIX C +:+ key) s1) = None)
  /\ (forall m1 s1 scheduled,
      wa_set C test_key t0 t0' tc key result true m s = (m1, s1, scheduled) ->
      get C test_key (t0 + 599999) key m1 s1 = (Value result, m1, s1)
      /\ get C test_key (t0 + 600001) key m1 s1
           = (Null, m1, removeItem (KEY_PREFIX C +:+ key) s1)
      /\ getItem (KEY_PREFIX C +:+ key) (removeItem (KEY_PREFIX C +:+ key) s1) = None).
Proof.
  intros Httl Hm Hw.
  destruct (isAvailable_writable test_key m s Hm Hw)
    as (m' & s' & Ha & Hm' & Hw' & Ha').
  split.
  - intros m1 s1. unfold email_set. rewrite Ha. simpl negb. cbv iota.
    destruct (setItem _ _ s') as [s2|] eqn:Hset;
      [|unfold setItem in Hset; rewrite Hw' in Hset; discriminate].
    intros [= <- <-].
    destruct (getItem_setItem _ _ _ _ Hset) as [Hg Hw2].
    unfold entry in Hg. rewrite Httl in Hg.
    assert (Ha2 : isAvailable test_key m' s2 = (true, m', s2))
      by (unfold isAvailable; now rewrite Hm').
    rewrite !(get_after_write C test_key m' s2 key result 600000 t0 t0' _ Ha2 Hg).
    replace (t0 + 600000 <? t0 + 599999) with false by (symmetry; apply Z.ltb_ge; lia).
    replace (t0 + 600000 <? t0 + 600001) with true by (symmetry; apply Z.ltb_lt; lia).
    repeat split. apply getItem_removeItem.
  - intros m1 s1 scheduled. unfold wa_set. rewrite Ha. simpl negb. cbv iota.
    destruct (scheduleCleanup m') as [m2 sch] eqn:Hs.
    assert (Hm2 : available m2 = Some true).
    { unfold scheduleCleanup in Hs. destruct (cleanupScheduled m');
        injection Hs as <- <-; exact Hm'. }
    destruct (setItem _ _ s') as [s2|] eqn:Hset;
      [|unfold setItem in Hset; rewrite Hw' in Hset; discriminate].
    intros [= <- <- <-].
    destruct (getItem_setItem _ _ _ _ Hset) as [Hg Hw2].
    unfold entry in Hg. rewrite Httl in Hg.
    assert (Ha2 : isAvailable test_key m2 s2 = (true, m2, s2))
      by (unfold isAvailable; now rewrite Hm2).
    rewrite !(get_after_write C test_key m2 s2 key result 600000 t0 t0' _ Ha2 Hg).
    replace (t0 + 600000 <? t0 + 599999) with false by (symmetry; apply Z.ltb_ge; lia).
    replace (t0 + 600000 <? t0 + 600001) with true by (symmetry; apply Z.ltb_lt; lia).
    repeat split. apply getItem_removeItem.
Qed.

End CacheTTL.

(** The TTL boundaries on a concrete write: an empty, writable storage,
    the email configuration, a write at clock reading 1000. *)
Lemma cache_ttl_boundaries_witness :
  let m1 := Cache.mkManager (Some true) false in
  let s1 := Storage.mk
       [("email_v_a@b.co", Storage.Parsed (Some true) (Some 601000) (Some 1000))] true in
  Cache.get Cache.email_config "__email_test__" (1000 + 599999) "a@b.co" m1 s1
    = (Cache.Value true, m1, s1)
  /\ Cache.get Cache.email_config "__email_test__" (1000 + 600001) "a@b.co" m1 s1
    = (Cache.Null, m1, Storage.removeItem "email_v_a@b.co" s1)
  /\ Storage.getItem "email_v_a@b.co" (Storage.removeItem "email_v_a@b.co" s1) = None.
Proof.
  exact (proj1 (cache_ttl_boundaries Cache.email_config "__email_test__" "a@b.co"
                  true 1000 1000 1000 Cache.new_manager (Storage.mk [] true)
                  eq_refl ltac:(discriminate) eq_refl) _ _ eq_refl).
Defined.

Section CacheHits.

(** A cache hit ends the validation before any request is made: the
    email validator applies a cached [true] without starting a fetch,
    and the WhatsApp validator applies a cached verdict on a first
    attempt without calling the request manager. *)
Lemma email_cache_hit_no_fetch (email : string) (st : Email.state) m s :
  Cache.get Cache.email_config Email.TEST_KEY (Email.clock st) email
    (Email.cacheManager st) (Email.storage st) = (Cache.Value true, m, s) ->
  snd (Email.validateEmail_begin email st) = true
  /\ Email.validations (fst (Email.validateEmail_begin email st)) = Email.validations st
  /\ Email.validationState (fst (Email.validateEmail_begin email st)) = Some true.
Proof.
  intros Hg. unfold Email.validateEmail_begin. cbn. rewrite Hg. cbn. auto.
Qed.

End CacheHits.

(** ** Capacity eviction of the WhatsApp cache *)

Section CacheEviction.
Import Storage Cache JsString.
Context {R : Type}.


Lemma insert_by_timestamp_perm x l : insert_by_timestamp x l ≡ₚ x :: l.
Proof.
  induction l as [|y r IH]; simpl; [reflexivity|].
  destruct (snd y <? snd x); [|reflexivity].
  rewrite IH. apply perm_swap.
Qed.

Lemma sort_by_timestamp_perm l : sort_by_timestamp l ≡ₚ l.
Proof.
  induction l as [|x r IH]; simpl; [reflexivity|].
  rewrite insert_by_timestamp_perm. now rewrite IH.
Qed.





Lemma keys_removeItem k (s : Storage.t R) :
  keys (removeItem k s) = List.filter (fun k' => negb (String.eqb k k')) (keys s).
Proof.
  unfold keys, removeItem, remove_item. simpl.
  induction (items s) as [|[k' v] r IH]; simpl; [reflexivity|].
  destruct (String.eqb k k'); simpl; now rewrite IH.
Qed.




Lemma NoDup_filter_bool {A} (p : A -> bool) (l : list A) :
  NoDup l -> NoDup (List.filter p l).
Proof.
  induction 1 as [|x r Hx Hr IH]; simpl; [constructor|].
  destruct (p x); [|exact IH]. constructor; [|exact IH].
  rewrite list_elem_of_In, filter_In. rewrite list_elem_of_In in Hx. tauto.
Qed.

(** The keys under the cache prefix, in enumeration order. *)
Definition cache_keys (C : config) (s : Storage.t R) : list string :=
  List.filter (fun k => startsWith k (KEY_PREFIX C)) (keys s).

(** An entry as [set] writes it (a result, an expiry and the write
    timestamp [ts]) that has not expired at [now]. *)
Definition live_entry (now : Z) (s : Storage.t R) (k : string) (ts : Z) : Prop :=
  exists result expiry,
    getItem k s = Some (Parsed (Some result) (Some expiry) (Some ts))
    /\ now <= expiry.


Lemma live_entry_fun now s k ts ts' :
  live_entry now s k ts -> live_entry now s k ts' -> ts = ts'.
Proof. intros (r & e & Hg & _) (r' & e' & Hg' & _). congruence. Qed.


End CacheEviction.

Section EvictionExample.
Import Storage Cache.







End EvictionExample.

(** ** Facts about the queue manager *)

Section QueueFacts.
Import Queue.
Context {Job : Type} `{EqDecision Job}.
Abbreviation item := (Queue.item Job).
Abbreviation t := (Queue.t Job).

Definition other_than (v : string) (i : item) : bool := negb (String.eqb (value i) v).

Lemma pop_snoc (q : list item) (i : item) : pop (q ++ [i]) = Some (q, i).
Proof.
  induction q as [|x r IH]; simpl; [reflexivity|].
  rewrite IH. destruct r; reflexivity.
Qed.

Lemma pop_inv (q r : list item) (i : item) : pop q = Some (r, i) -> q = r ++ [i].
Proof.
  revert r. induction q as [|x q IH]; intros r; simpl; [discriminate|].
  destruct q as [|y q'].
  - now intros [= <- <-].
  - destruct (pop (y :: q')) as [[r' l]|]; [|discriminate].
    intros [= <- <-]. simpl. f_equal. now apply IH.
Qed.

Lemma pop_nonempty (q : list item) : q <> [] -> exists r i, q = r ++ [i].
Proof.
  intros Hq. destruct (pop q) as [[r i]|] eqn:Hp.
  - exists r, i. now apply pop_inv.
  - exfalso. induction q as [|x q IH]; [congruence|].
    simpl in Hp. destruct q as [|y q']; [discriminate|].
    destruct (pop (y :: q')) as [[]|]; [discriminate|]. now apply IH.
Qed.

(** With at most one entry per value, removing the first entry for [v]
    removes every entry for [v]. *)
Lemma remove_first_filter v (q : list item) :
  NoDup (map value q) -> remove_first v q = List.filter (other_than v) q.
Proof.
  induction q as [|i r IH]; simpl; [reflexivity|].
  intros [Hi Hr]%NoDup_cons. unfold other_than at 1.
  destruct (String.eqb_spec (value i) v) as [<-|Hne]; simpl.
  - symmetry. clear IH Hr. induction r as [|x r IH]; simpl; [reflexivity|].
    apply not_elem_of_cons in Hi as [Hx Hi]. unfold other_than at 1.
    destruct (String.eqb_spec (value x) (value i)) as [Heq|_]; [congruence|].
    simpl. f_equal. now apply IH.
  - f_equal. now apply IH.
Qed.

Lemma filter_length_le {A} (p : A -> bool) (l : list A) :
  (length (List.filter p l) <= length l)%nat.
Proof. induction l as [|x r IH]; simpl; [lia|]. destruct (p x); simpl; lia. Qed.

Lemma filter_full {A} (p : A -> bool) (l : list A) :
  length (List.filter p l) = length l -> List.filter p l = l.
Proof.
  induction l as [|x r IH]; simpl; [reflexivity|].
  destruct (p x); simpl.
  - intros [= Hl]. f_equal. now apply IH.
  - pose proof (filter_length_le p r). lia.
Qed.

Lemma NoDup_values_filter v (q : list item) :
  NoDup (map value q) -> NoDup (map value (List.filter (other_than v) q)).
Proof.
  induction q as [|i r IH]; simpl; [constructor|].
  intros [Hi Hr]%NoDup_cons. destruct (other_than v i); simpl; [|auto].
  apply NoDup_cons. split; [|auto].
  intros Hin. apply Hi. apply list_elem_of_In in Hin.
  apply in_map_iff in Hin as (x & Hx & Hin%filter_In).
  apply list_elem_of_In, in_map_iff. exists x. tauto.
Qed.

Lemma values_filter_absent v (q : list item) :
  ~ In v (map value (List.filter (other_than v) q)).
Proof.
  intros (x & Hx & Hin%filter_In)%in_map_iff. destruct Hin as [_ Hp].
  unfold other_than in Hp. rewrite Hx, String.eqb_refl in Hp. discriminate.
Qed.

Lemma length_remove_job (j : Job) (l : list Job) :
  In j l -> S (length (remove_job j l)) = length l.
Proof.
  induction l as [|x r IH]; simpl; [tauto|].
  destruct (decide (x = j)) as [->|Hne]; [reflexivity|].
  intros [Hx|Hin]; [congruence|]. simpl. now rewrite IH.
Qed.

(** The invariant of the class: the counter counts the running jobs, at
    most MAX_CONCURRENT of them; at most MAX_SIZE entries are pending, at
    most one per value. *)
Record invariant (st : t) : Prop := {
  inv_count : activeCount st = Z.of_nat (length (running st));
  inv_concurrent : activeCount st <= MAX_CONCURRENT;
  inv_size : Z.of_nat (length (queue st)) <= MAX_SIZE;
  inv_nodup : NoDup (map value (queue st));
}.

Lemma process_invariant (st : t) : invariant st -> invariant (process st).
Proof.
  intros [Hc Hm Hs Hn]. unfold process, next.
  destruct (MAX_CONCURRENT <=? activeCount st) eqn:Hleb; simpl; [now constructor|].
  destruct (Z.of_nat (length (queue st)) =? 0); [now constructor|].
  destruct (pop (queue st)) as [[rest i]|] eqn:Hp; [|now constructor].
  apply pop_inv in Hp. apply Z.leb_gt in Hleb.
  rewrite Hp in Hs, Hn. rewrite length_app in Hs. rewrite map_app in Hn.
  apply NoDup_app in Hn as (Hn & _ & _).
  constructor; simpl; rewrite ?length_app; simpl; try lia. exact Hn.
Qed.

Lemma cancel_invariant v (st : t) : invariant st -> invariant (cancel v st).
Proof.
  intros [Hc Hm Hs Hn]. unfold cancel.
  destruct (String.eqb v "all"); constructor; simpl; auto.
  - unfold MAX_SIZE. lia.
  - constructor.
  - rewrite remove_first_filter by exact Hn.
    pose proof (filter_length_le (other_than v) (queue st)). lia.
  - rewrite remove_first_filter by exact Hn. now apply NoDup_values_filter.
Qed.

Lemma cancel_absent v (st : t) :
  invariant st -> ~ In v (map value (queue (cancel v st))).
Proof.
  intros [_ _ _ Hn]. unfold cancel.
  destruct (String.eqb v "all"); simpl; [tauto|].
  rewrite remove_first_filter by exact Hn. apply values_filter_absent.
Qed.

Lemma add_invariant v j (st : t) : invariant st -> invariant (add v j st).
Proof.
  intros Hinv. unfold add.
  pose proof (cancel_invariant v st Hinv) as [Hc Hm Hs Hn].
  pose proof (cancel_absent v st Hinv) as Habs.
  destruct (Z.of_nat (length (queue (cancel v st))) <? MAX_SIZE) eqn:Hlt;
    [|now constructor].
  apply Z.ltb_lt in Hlt. apply process_invariant.
  constructor; simpl; auto.
  - rewrite length_app. simpl. lia.
  - rewrite map_app. simpl. apply NoDup_app. repeat split; auto.
    + intros x Hx [->|[]%elem_of_nil]%elem_of_cons.
      apply Habs. now apply list_elem_of_In.
    + apply NoDup_singleton.
Qed.

Lemma done_invariant j (st : t) :
  invariant st -> In j (running st) -> invariant (done j st).
Proof.
  intros [Hc Hm Hs Hn] Hj. unfold done, release. apply process_invariant.
  pose proof (length_remove_job j _ Hj).
  constructor; simpl; auto; lia.
Qed.

Lemma reachable_invariant (st : t) : reachable st -> invariant st.
Proof.
  induction 1 as [|e st Hr IH He].
  - constructor; simpl; unfold MAX_CONCURRENT, MAX_SIZE; try lia. constructor.
  - destruct e as [v j|v|j]; simpl.
    + now apply add_invariant.
    + now apply cancel_invariant.
    + now apply done_invariant.
Qed.

(** C6 (as amended). In every reachable state of a queue manager:
    at most MAX_CONCURRENT (2) jobs run and at most MAX_SIZE (5) entries
    are pending; [add(value, job)] for a value other than the reserved
    word [all] removes the pending entry for that value and then, if
    fewer than MAX_SIZE entries remain, appends the new entry and calls
    [process], and otherwise changes nothing at all; [process] dispatches
    the most recently queued entry when fewer than MAX_CONCURRENT jobs
    run and does nothing otherwise; the completion of a running job frees
    its slot and dispatches the most recently queued entry, if any. *)
Theorem queue_contract (st : t) :
  reachable st ->
  (activeCount st = Z.of_nat (length (running st))
   /\ activeCount st <= MAX_CONCURRENT
   /\ Z.of_nat (length (queue st)) <= MAX_SIZE)
  /\ (forall v j, v <> "all" ->
        let pending := List.filter (other_than v) (queue st) in
        queue (cancel v st) = pending
        /\ add v j st =
             if Z.of_nat (length pending) <? MAX_SIZE
             then process (mk (pending ++ [mkItem v j]) (activeCount st) (running st))
             else st)
  /\ (forall q i, queue st = q ++ [i] -> activeCount st < MAX_CONCURRENT ->
        process st = mk q (activeCount st + 1) (running st ++ [job i]))
  /\ (MAX_CONCURRENT <= activeCount st \/ queue st = [] -> process st = st)
  /\ (forall j q i, In j (running st) -> queue st = q ++ [i] ->
        done j st = mk q (activeCount st) (remove_job j (running st) ++ [job i]))
  /\ (forall j, In j (running st) -> queue st = [] ->
        done j st = mk [] (activeCount st - 1) (remove_job j (running st))).
Proof.
  intros Hreach. pose proof (reachable_invariant st Hreach) as [Hc Hm Hs Hn].
  split; [auto|]. split; [|split; [|split; [|split]]].
  - intros v j Hv pending.
    assert (Hcancel : cancel v st = mk pending (activeCount st) (running st)).
    { unfold cancel. destruct (String.eqb_spec v "all") as [->|_]; [congruence|].
      now rewrite remove_first_filter. }
    split; [now rewrite Hcancel|].
    unfold add. rewrite Hcancel. simpl.
    destruct (Z.of_nat (length pending) <? MAX_SIZE) eqn:Hlt; [reflexivity|].
    apply Z.ltb_ge in Hlt.
    pose proof (filter_length_le (other_than v) (queue st)) as Hle.
    fold pending in Hle.
    assert (Hfull : pending = queue st) by (apply filter_full; fold pending; lia).
    rewrite Hfull. now destruct st.
  - intros q i Hq Hlt. unfold process, next.
    replace (MAX_CONCURRENT <=? activeCount st) with false
      by (symmetry; apply Z.leb_gt; lia).
    rewrite Hq, length_app. simpl length.
    replace (Z.of_nat (length q + 1) =? 0) with false
      by (symmetry; apply Z.eqb_neq; lia).
    simpl. now rewrite pop_snoc.
  - intros [Hge | Hq]; unfold process, next.
    + replace (MAX_CONCURRENT <=? activeCount st) with true
        by (symmetry; apply Z.leb_le; lia). reflexivity.
    + rewrite Hq. simpl. now rewrite orb_true_r.
  - intros j q i Hj Hq. unfold done, release, process, next. simpl.
    replace (MAX_CONCURRENT <=? activeCount st - 1) with false
      by (symmetry; apply Z.leb_gt; lia).
    rewrite Hq, length_app. simpl length.
    replace (Z.of_nat (length q + 1) =? 0) with false
      by (symmetry; apply Z.eqb_neq; lia).
    simpl. rewrite pop_snoc. f_equal. lia.
  - intros j Hj Hq. unfold done, release, process, next. simpl. rewrite Hq. simpl.
    now rewrite orb_true_r.
Qed.

End QueueFacts.

Section QueueExamples.
Import Queue.

(** Seven requests while nothing completes: the first two are dispatched,
    the next five wait. *)
Definition seven_adds : Queue.t nat :=
  foldl (fun st e => step e st) empty
    [Add "v1" 1%nat; Add "v2" 2%nat; Add "v3" 3%nat; Add "v4" 4%nat;
     Add "v5" 5%nat; Add "v6" 6%nat; Add "v7" 7%nat].

Lemma seven_adds_reachable : reachable seven_adds.
Proof.
  unfold seven_adds. simpl foldl.
  repeat (apply (reachable_step (Add _ _)); [|exact I]).
  apply reachable_empty.
Qed.

(** The contract on the state reached by the seven requests. *)
Lemma queue_contract_witness :
  (activeCount seven_adds = Z.of_nat (length (running seven_adds))
   /\ activeCount seven_adds <= MAX_CONCURRENT
   /\ Z.of_nat (length (queue seven_adds)) <= MAX_SIZE)
  /\ (forall v j, v <> "all" ->
        let pending := List.filter (other_than v) (queue seven_adds) in
        queue (cancel v seven_adds) = pending
        /\ add v j seven_adds =
             if Z.of_nat (length pending) <? MAX_SIZE
             then process (mk (pending ++ [mkItem v j]) (activeCount seven_adds)
                             (running seven_adds))
             else seven_adds)
  /\ (forall q i, queue seven_adds = q ++ [i] -> activeCount seven_adds < MAX_CONCURRENT ->
        process seven_adds = mk q (activeCount seven_adds + 1) (running seven_adds ++ [job i]))
  /\ (MAX_CONCURRENT <= activeCount seven_adds \/ queue seven_adds = [] ->
        process seven_adds = seven_adds)
  /\ (forall j q i, In j (running seven_adds) -> queue seven_adds = q ++ [i] ->
        done j seven_adds
        = mk q (activeCount seven_adds) (remove_job j (running seven_adds) ++ [job i]))
  /\ (forall j, In j (running seven_adds) -> queue seven_adds = [] ->
        done j seven_adds
        = mk [] (activeCount seven_adds - 1) (remove_job j (running seven_adds))).
Proof. exact (queue_contract seven_adds seven_adds_reachable). Defined.

(** C6 as stated fails for the value "all": with five entries pending the
    call is not a no-op; it drops all five pending entries and queues the
    new one. *)
Lemma queue_add_all_displaces :
  map value (queue seven_adds) = ["v3"; "v4"; "v5"; "v6"; "v7"]
  /\ Z.of_nat (length (queue seven_adds)) = MAX_SIZE
  /\ map value (queue (add "all" 8%nat seven_adds)) = ["all"]
  /\ add "all" 8%nat seven_adds <> seven_adds.
Proof. vm_compute. repeat split; congruence. Qed.

End QueueExamples.

(** ** Request deduplication in the WhatsApp RequestManager *)

Section RequestDedup.
Import RequestManager.

(** Every call in flight is the one registered for its number, and the
    registered promises are exactly those of the calls in flight. *)
Record dedup_invariant (rm : t) : Prop := {
  dd_registered : forall c, In c (in_flight rm) ->
                    activeRequests rm !! call_phone c = Some (call_promise c);
  dd_in_flight : forall phone p, activeRequests rm !! phone = Some p ->
                    exists c, In c (in_flight rm)
                              /\ call_phone c = phone /\ call_promise c = p;
  dd_fresh : forall c, In c (in_flight rm) -> (call_promise c < next_promise rm)%nat;
  dd_nodup : NoDup (map call_promise (in_flight rm));
}.

Lemma outstanding_at_most_one rm phone :
  dedup_invariant rm -> (length (outstanding phone rm) <= 1)%nat.
Proof.
  intros [Hreg _ _ Hnd]. unfold outstanding.
  assert (Hsame : forall c1 c2, In c1 (in_flight rm) -> In c2 (in_flight rm) ->
            call_phone c1 = phone -> call_phone c2 = phone ->
            call_promise c1 = call_promise c2).
  { intros c1 c2 H1 H2 E1 E2. apply Hreg in H1, H2. congruence. }
  revert Hnd Hsame. clear Hreg.
  induction (in_flight rm) as [|c r IH]; simpl; [lia|].
  intros [Hc Hr]%NoDup_cons Hsame.
  destruct (String.eqb_spec (call_phone c) phone) as [Hp|Hp]; simpl.
  - assert (Hnone : List.filter (fun c => String.eqb (call_phone c) phone) r = []).
    { destruct (List.filter _ r) as [|c' r'] eqn:Hf; [reflexivity|].
      assert (Hin : In c' (List.filter (fun c => String.eqb (call_phone c) phone) r))
        by (rewrite Hf; now left).
      apply filter_In in Hin as [Hin Hc'%String.eqb_eq].
      exfalso. apply Hc. apply list_elem_of_In, in_map_iff.
      exists c'. split; [|exact Hin].
      symmetry. apply Hsame; [now left | now right | exact Hp | exact Hc']. }
    rewrite Hnone. simpl. lia.
  - apply IH; [exact Hr|]. intros c1 c2 H1 H2. apply Hsame; now right.
Qed.

Lemma NoDup_map_inj {A B} (f : A -> B) (l : list A) a b :
  NoDup (map f l) -> In a l -> In b l -> f a = f b -> a = b.
Proof.
  induction l as [|x r IH]; simpl; [tauto|].
  intros [Hx Hr]%NoDup_cons [->|Ha] [->|Hb] Hf; auto.
  - exfalso. apply Hx. rewrite Hf. apply list_elem_of_In, in_map. exact Hb.
  - exfalso. apply Hx. rewrite <- Hf. apply list_elem_of_In, in_map. exact Ha.
Qed.

Lemma NoDup_map_filter {A B} (f : A -> B) (p : A -> bool) (l : list A) :
  NoDup (map f l) -> NoDup (map f (List.filter p l)).
Proof.
  induction l as [|x r IH]; simpl; [constructor|].
  intros [Hx Hr]%NoDup_cons. destruct (p x); simpl; [|auto].
  apply NoDup_cons. split; [|auto].
  intros (y & Hy & Hin%filter_In)%list_elem_of_In%in_map_iff.
  apply Hx, list_elem_of_In, in_map_iff. exists y. tauto.
Qed.

Lemma find_promise_in p l c :
  List.find (fun c => Nat.eqb (call_promise c) p) l = Some c ->
  In c l /\ call_promise c = p.
Proof. intros [H1 H2%Nat.eqb_eq]%find_some. auto. Qed.

Lemma init_dedup maxRequests timeWindow : dedup_invariant (init maxRequests timeWindow).
Proof.
  constructor; simpl; try tauto.
  - intros phone p. rewrite lookup_empty. discriminate.
  - constructor.
Qed.

Lemma makeRequest_dedup TIMEOUTS phone n custom rm :
  dedup_invariant rm -> dedup_invariant (snd (makeRequest TIMEOUTS phone n custom rm)).
Proof.
  intros [Hreg Hact Hfresh Hnd]. unfold makeRequest.
  destruct (activeRequests rm !! phone) as [p|] eqn:Hl; simpl; [now constructor|].
  constructor; simpl.
  - intros c [Hc|[<-|[]]]%in_app_or; simpl.
    + rewrite lookup_insert_ne; [auto|]. intros Heq. apply Hreg in Hc.
      rewrite <- Heq in Hc. congruence.
    + apply lookup_insert_eq.
  - intros phone' p'. destruct (decide (phone = phone')) as [<-|Hne].
    + rewrite lookup_insert_eq. intros [= <-].
      exists (mkCall (next_promise rm) phone (request_timeout TIMEOUTS n custom)).
      split; [|split; reflexivity]. apply in_or_app. right. now left.
    + rewrite lookup_insert_ne by exact Hne. intros (c & Hc & H1 & H2)%Hact.
      exists c. split; [apply in_or_app; now left | auto].
  - intros c [Hc|[<-|[]]]%in_app_or; simpl; [apply Hfresh in Hc|]; lia.
  - rewrite map_app. simpl. apply NoDup_app. repeat split; [exact Hnd| |apply NoDup_singleton].
    intros x (c & Hx & Hc)%list_elem_of_In%in_map_iff [Hp|[]%elem_of_nil]%elem_of_cons.
    apply Hfresh in Hc. lia.
Qed.

Lemma settle_dedup now p ok rm : dedup_invariant rm -> dedup_invariant (settle now p ok rm).
Proof.
  intros [Hreg Hact Hfresh Hnd]. unfold settle.
  destruct (List.find _ (in_flight rm)) as [c|] eqn:Hfind; [|now constructor].
  apply find_promise_in in Hfind as [Hc Hp].
  constructor; simpl.
  - intros c' [Hc' Hne]%filter_In.
    apply negb_true_iff, Nat.eqb_neq in Hne.
    rewrite lookup_delete_ne; [auto|]. intros Heq.
    pose proof (Hreg _ Hc) as H1. pose proof (Hreg _ Hc') as H2.
    rewrite Heq in H1. congruence.
  - intros phone' p'. destruct (decide (call_phone c = phone')) as [<-|Hne].
    + rewrite lookup_delete_eq. discriminate.
    + rewrite lookup_delete_ne by exact Hne. intros (c' & Hc' & H1 & H2)%Hact.
      exists c'. split; [|auto]. apply filter_In. split; [exact Hc'|].
      apply negb_true_iff, Nat.eqb_neq. intros Heq.
      assert (c' = c) by (eapply NoDup_map_inj; eauto; congruence).
      congruence.
  - intros c' [Hc' _]%filter_In. auto.
  - now apply NoDup_map_filter.
Qed.

(** Request deduplication of the WhatsApp RequestManager: after any
    sequence of [makeRequest] calls and settlements, at most one network
    call is in flight for each number; a [makeRequest] for a number with a
    call in flight returns the promise of that call and issues nothing;
    and a [makeRequest] that issues a call finds none in flight for its
    number. *)
Theorem request_manager_dedup (TIMEOUTS : list Z) (maxRequests timeWindow : Z)
    (events : list event) (phone : string) :
  let rm := foldl (fun rm e => step TIMEOUTS e rm) (init maxRequests timeWindow) events in
  (length (outstanding phone rm) <= 1)%nat
  /\ (forall c n custom, In c (outstanding phone rm) ->
        makeRequest TIMEOUTS phone n custom rm = (call_promise c, false, rm))
  /\ (forall n custom p rm',
        makeRequest TIMEOUTS phone n custom rm = (p, true, rm') ->
        outstanding phone rm = [] /\ length (outstanding phone rm') = 1%nat).
Proof.
  intros rm.
  assert (Hinv : dedup_invariant rm).
  { subst rm. generalize (init_dedup maxRequests timeWindow).
    generalize (init maxRequests timeWindow) as rm0.
    induction events as [|e r IH]; intros rm0 H0; simpl; [exact H0|].
    apply IH. destruct e; simpl; [now apply makeRequest_dedup | now apply settle_dedup]. }
  split; [now apply outstanding_at_most_one|]. split.
  - intros c n custom [Hc Hp%String.eqb_eq]%filter_In. unfold makeRequest.
    rewrite <- Hp, (dd_registered _ Hinv c Hc). reflexivity.
  - intros n custom p rm' Hmk.
    assert (Hnone : activeRequests rm !! phone = None).
    { unfold makeRequest in Hmk. destruct (activeRequests rm !! phone); [|reflexivity].
      discriminate. }
    assert (Hempty : outstanding phone rm = []).
    { unfold outstanding. destruct (List.filter _ _) as [|c r] eqn:Hf; [reflexivity|].
      assert (Hin : In c (c :: r)) by now left. rewrite <- Hf in Hin.
      apply filter_In in Hin as [Hin Hp%String.eqb_eq].
      rewrite <- Hp, (dd_registered _ Hinv c Hin) in Hnone. discriminate. }
    split; [exact Hempty|].
    unfold makeRequest in Hmk. rewrite Hnone in Hmk. injection Hmk as <- <-.
    unfold outstanding in *. simpl. rewrite List.filter_app, Hempty. simpl.
    now rewrite String.eqb_refl.
Qed.

End RequestDedup.

(** ** The HTTP surface of the edge proxy *)

Section ProxyStatus.
Import JsString Js Worker.

Variable E : engine.
Variable upstream : string -> string -> fetch_outcome.





Lemma json_ok data st origin :
  null_body_status st = false -> json E data st origin = Returns (mkResponse st (Some data) origin).
Proof. unfold json. now intros ->. Qed.

Lemma processValidation_caught r e origin name message :
  processValidation_try E upstream r e origin = Throws name message ->
  processValidation E upstream r e origin =
    Returns (mkResponse (fst (error_status message))
               (Some (error_body (snd (error_status message)) [("error", JStr message)]))
               origin).
Proof.
  intros H. unfold processValidation. rewrite H.
  unfold error_status.
  destruct (includes message "timeout"); [reflexivity|].
  destruct (includes message "fetch" || includes message "API"); [reflexivity|].
  destruct (includes message "HTML"); reflexivity.
Qed.












End ProxyStatus.

Section ProxyExamples.
Import JsString Js Worker.

(** The JSON text of an object whose [number] is the string
    081234567890. *)
Definition sample_body : string :=
  let q := String (ascii_of_nat 34) EmptyString in
  "{" +:+ q +:+ "number" +:+ q +:+ ":" +:+ q +:+ "081234567890" +:+ q +:+ "}".

(** An engine for the examples: it parses the two bodies used below and
    rejects any other text.  The counts of the examples are small, so
    its two number fields, which the worker reaches only beyond 2^53 and
    10^20, are never consulted. *)
Definition sample_engine : engine :=
  {| JSON_parse := fun text =>
       if String.eqb text sample_body
       then Returns (JObj [("number", JStr "081234567890")])
       else if String.eqb text "null" then Returns JNull
       else Throws "SyntaxError" "Unexpected token";
     msg_null_property := "Cannot read properties of null (reading 'number')";
     msg_to_primitive := "Cannot convert object to primitive value";
     msg_null_body_status := "Response with null body status cannot have body";
     long_decimal := digits_value 0;
     Number_toString := pretty |}.





End ProxyExamples.

(** ** Sample runs of the WhatsApp validator *)

Section ValidatorTraces.
Import WhatsApp.

Definition body_of_status (registered : bool) : Js.jsval :=
  Js.JObj [("status", Js.JBool registered)].

(** A page with an empty field, an enabled submit button and an empty,
    writable local storage. *)
Definition fresh : state := initial default_config EmptyString false (Storage.mk [] true).




End ValidatorTraces.

(** ** Stale results and duplicate requests *)

Section StaleResults.
Import WhatsApp.

(** The WhatsApp validator applies the verdict of a fulfilled request
    whatever the field holds by then: [validateWhatsApp] does not read
    the input again after [await makeRequest(...)]. *)
Lemma wa_verdict_applied_unchecked (C : config) (w : waiter) (data : Js.jsval)
    (registered : bool) (st : state) :
  isRegistered_of data = Some registered ->
  snd (validateWhatsApp_resolved C w data st) = true
  /\ validationState (fst (validateWhatsApp_resolved C w data st)) = Some registered
  /\ lastCheckedNumber (fst (validateWhatsApp_resolved C w data st)) = w_phone w.
Proof.
  intros Hr. unfold validateWhatsApp_resolved. rewrite Hr.
  destruct (Cache.wa_set _ _ _ _ _ _ _ _ _ _) as [[m s] scheduled].
  unfold handleValidationResult. simpl. auto.
Qed.

(** The email validator drops the answer to a fetch when the field no
    longer holds the address the fetch was for. *)
Lemma email_stale_answer_discarded (E : Js.engine) (email : string) (i : nat)
    (data : Js.jsval) (st : Email.state) :
  JsString.trim (Email.input_value st) <> email ->
  Email.validateEmail_fetched E email i (Email.Answered data) st
  = (Email.validateEmail_discard st, true)
  /\ Email.validationState (Email.validateEmail_discard st) = None
  /\ Email.batch (Email.validateEmail_discard st)
     = Email.batch st ++ [Email.UpdateUI None EmptyString false].
Proof.
  intros Hne. unfold Email.validateEmail_fetched.
  destruct (String.eqb_spec (JsString.trim (Email.input_value st)) email);
    [contradiction|].
  repeat split.
Qed.

(** The user types 081234567890, whose validation starts, and then
    changes the field to 081234567891 before the answer arrives; the
    answer says the first number is registered. *)
Definition stale_answer : state :=
  run default_config
    [Input "081234567890"; DebounceFires;
     Input "081234567891";
     NetworkSettles 0 (NetData (body_of_status true));
     Frame; Frame]
    fresh.

(** C1 fails in the WhatsApp validator: after the trace above the field
    holds the second number, while the stored validation state, the last
    checked number and the display are those of the verdict for the
    first one. *)
Theorem stale_verdict_applied :
  input_value stale_answer = "081234567891"
  /\ validationState stale_answer = Some true
  /\ lastCheckedNumber stale_answer = PhoneFormatter.normalize "081234567890"
  /\ icon_shown (view stale_answer) = Success.
Proof. vm_compute. repeat split. Qed.

End StaleResults.

Section DuplicateRequests.
Import Email.

Lemma validateEmail_begin_queueManager (email : string) (st : state) :
  queueManager (fst (validateEmail_begin email st)) = queueManager st.
Proof.
  unfold validateEmail_begin. cbn.
  destruct (Cache.get _ _ _ _ _ _) as [[cached m] s].
  destruct cached as [| |[]]; reflexivity.
Qed.

(** The completion of a validation never runs out of fuel: with as much
    fuel as there are queued entries, more fuel changes nothing. *)
Lemma complete_fuel (fuel k : nat) (email : string) (st : state) :
  (length (Queue.queue (queueManager st)) <= fuel)%nat ->
  complete (fuel + k) email st = complete fuel email st.
Proof.
  revert email st. induction fuel as [|fuel IH]; intros email st Hlen.
  - destruct (Queue.next (Queue.release email (queueManager (validateEmail_finally st))))
      as [[rest entry]|] eqn:Hn.
    + unfold Queue.next in Hn. simpl in Hn.
      destruct (Queue.queue (queueManager st)); [|simpl in Hlen; lia].
      simpl in Hn. rewrite orb_true_r in Hn. discriminate.
    + simpl in Hn. destruct k; simpl; now rewrite Hn.
  - simpl.
    destruct (Queue.next (Queue.release email (queueManager st)))
      as [[rest entry]|] eqn:Hn; [|reflexivity].
    destruct (validateEmail_begin (Queue.job entry) _) as [st' finished] eqn:Hb.
    destruct finished; [|reflexivity].
    apply IH.
    pose proof (validateEmail_begin_queueManager (Queue.job entry)
                  (set_queueManager
                     (Queue.process (Queue.release email (queueManager st)))
                     (validateEmail_finally st))) as Hq.
    rewrite Hb in Hq. simpl in Hq. rewrite Hq.
    unfold Queue.process. rewrite Hn. simpl.
    unfold Queue.next in Hn. destruct (_ || _); [discriminate|].
    apply pop_inv in Hn. simpl in Hn. rewrite Hn, length_app in Hlen. simpl in Hlen. lia.
Qed.

(** A page whose e-mail field accepts any value that contains an at
    sign. *)
Definition has_at_sign (value : string) : bool := JsString.includes value "@".

(** The validation of a@x.io is still waiting for its answer when the
    user changes the field to b@x.io, which is validated and found
    valid, and then back to a@x.io. *)
Definition back_and_forth : state :=
  run sample_engine has_at_sign
    [Input "a@x.io"; DebounceFires;
     Input "b@x.io"; DebounceFires;
     FetchSettles 1 (Answered (Js.JObj [("result", Js.JStr "valid")]));
     Input "a@x.io"; DebounceFires]
    (initial EmptyString false (Storage.mk [] true)).

(** C2 fails in the email validator: after the trace above two fetches
    for the same address are in flight at once. *)
Theorem email_duplicate_fetch :
  fetches_in_flight "a@x.io" back_and_forth
  = [mkValidation "a@x.io" 0 Fetching; mkValidation "a@x.io" 0 Fetching]
  /\ Queue.activeCount (queueManager back_and_forth) = 2.
Proof. vm_compute. repeat split. Qed.

End DuplicateRequests.

(** ** Failsafe mode and the retry controller *)

Section Failsafe.
Import WhatsApp.
Variable C : config.

(** The parts of the state that the display methods, the rate limiter
    and the request budget leave alone. *)
Definition steady (st st' : state) : Prop :=
  failsafeMode st' = failsafeMode st
  /\ connectionQuality st' = connectionQuality st
  /\ RequestManager.in_flight (requestManager st')
     = RequestManager.in_flight (requestManager st)
  /\ input_value st' = input_value st
  /\ queueManager st' = queueManager st
  /\ (retryController st = false -> retryController st' = false).

Lemma steady_refl st : steady st st.
Proof. repeat split; auto. Qed.

Lemma steady_trans st1 st2 st3 : steady st1 st2 -> steady st2 st3 -> steady st1 st3.
Proof.
  intros (A1 & A2 & A3 & A4 & A5 & A6) (B1 & B2 & B3 & B4 & B5 & B6).
  repeat split; try congruence. auto.
Qed.

Lemma steady_updateUI status message isLoading st :
  steady st (updateUI status message isLoading st).
Proof. unfold updateUI, schedule. destruct (domModified st); repeat split; auto. Qed.

Lemma steady_updateInputIcon type st : steady st (updateInputIcon type st).
Proof. unfold updateInputIcon, schedule. destruct (domModified st); repeat split; auto. Qed.

Lemma steady_updateSubmitButton a st : steady st (updateSubmitButton a st).
Proof.
  unfold updateSubmitButton, schedule. destruct (domModified st); repeat split; auto.
Qed.

Lemma steady_handleValidationResult r phone st :
  steady st (handleValidationResult r phone st).
Proof.
  unfold handleValidationResult.
  destruct r; [pose proof (steady_updateUI (Some true) "WhatsApp aktif!" false st) as H
              |pose proof (steady_updateUI (Some false) ERROR_INPUT false st) as H];
    destruct H as (H1 & H2 & H3 & H4 & H5 & H6); repeat split; simpl; assumption.
Qed.

Lemma steady_canMakeRequest st : steady st (snd (canMakeRequest st)).
Proof.
  unfold canMakeRequest.
  destruct (RateLimiter.canMakeRequest _ _) as [ok rl]. repeat split; auto.
Qed.

Lemma steady_incrementRequest st : steady st (snd (incrementRequest st)).
Proof.
  unfold incrementRequest.
  destruct (60000 <? clock st - lastRequestReset st); repeat split; auto.
Qed.



(** What [validateWhatsApp] does after its three environment checks and
    the failsafe checks, from a state [st] in which it goes on:
    the state it leaves and whether it has ended. *)
Definition begin_body (attemptNumber : nat) (st : state) : state * bool :=
  let rawValue := JsString.trim (input_value st) in
  if negb (JsString.truthy rawValue) then
    let st := updateUI None EmptyString false st in
    let st := set_lastCheckedNumber EmptyString st in
    let st := set_validationState None st in
    (updateSubmitButton Clear st, true)
  else if JsString.len rawValue <? MIN_PHONE_LENGTH C then
    (updateUI None EmptyString false st, true)
  else
    let '(cached, m, s) :=
      Cache.get (CACHE C) TEST_KEY (clock st) rawValue (cacheManager st) (storage st) in
    let st := set_storage s (set_cacheManager m st) in
    match cached, attemptNumber with
    | Cache.Value isRegistered, O =>
        (handleValidationResult isRegistered rawValue st, true)
    | Cache.Undefined, O => (st, false)
    | _, _ =>
        let '(allowed, st) :=
          if (attemptNumber =? 0)%nat then canMakeRequest st else (true, st) in
        if negb allowed then (updateUI (Some false) RATE_LIMIT false st, true)
        else
          let '(within, st) := incrementRequest st in
          if negb within then
            (updateUI (Some false)
               "Terlalu banyak validasi. Silakan tunggu sebentar." false st, true)
          else
            let phone := PhoneFormatter.normalize rawValue in
            if String.eqb phone (lastCheckedNumber st)
               && match validationState st with Some _ => true | None => false end
               && (attemptNumber =? 0)%nat
            then (st, true)
            else
              let st := if (attemptNumber =? 0)%nat
                        then updateUI None EmptyString true st else st in
              let st := if retryController st && (attemptNumber =? 0)%nat
                        then set_retryController false st else st in
              let timeout := getOptimalTimeout (connectionQuality st) in
              let '(p, _, rm) :=
                RequestManager.makeRequest (TIMEOUTS C) phone attemptNumber
                  (Some timeout) (requestManager st) in
              let st := set_requestManager rm st in
              (set_waiting (waiting st ++ [mkWaiter attemptNumber rawValue phone p]) st,
               false)
    end.

Lemma steady_spec (st st' : state) (q : quality) :
  steady st st' ->
  failsafeMode st' = failsafeMode st
  /\ input_value st' = input_value st
  /\ queueManager st' = queueManager st
  /\ (retryController st = false -> retryController st' = false)
  /\ forall c, In c (RequestManager.in_flight (requestManager st')) ->
       In c (RequestManager.in_flight (requestManager st))
       \/ RequestManager.call_timeout c = getOptimalTimeout q.
Proof.
  intros (A1 & A2 & A3 & A4 & A5 & A6). repeat split; try assumption.
  intros c Hc. left. congruence.
Qed.

Lemma validateWhatsApp_begin_unfold (attemptNumber : nat) (st : state) :
  validateWhatsApp_begin C attemptNumber st =
    let '(degraded, st) := handleGracefulDegradation st in
    if degraded then (activateFailsafe st, true)
    else if negb (online st) then (updateUI None "Tidak ada koneksi internet" false st, true)
    else if negb (budget_ok st) then (activateFailsafe st, true)
    else
      let st := if failsafeMode st && (attemptNumber =? 0)%nat
                then set_failsafeMode false st else st in
      if failsafeMode st && negb (isRetrying st) then (updateInputIcon NoIcon st, true)
      else begin_body attemptNumber st.
Proof. reflexivity. Qed.

(** [begin_body] leaves the failsafe flag, the field and the queue
    alone, and every call it adds to the network carries the
    network-aware timeout. *)
Lemma begin_body_spec (attemptNumber : nat) (st : state) :
  let st' := fst (begin_body attemptNumber st) in
  failsafeMode st' = failsafeMode st
  /\ input_value st' = input_value st
  /\ queueManager st' = queueManager st
  /\ (retryController st = false -> retryController st' = false)
  /\ forall c, In c (RequestManager.in_flight (requestManager st')) ->
       In c (RequestManager.in_flight (requestManager st))
       \/ RequestManager.call_timeout c = getOptimalTimeout (connectionQuality st).
Proof.
  unfold begin_body.
  set (rawValue := JsString.trim (input_value st)).
  destruct (negb (JsString.truthy rawValue)).
  { cbn [fst]. apply steady_spec.
    eapply steady_trans; [|apply steady_updateSubmitButton].
    eapply steady_trans; [apply (steady_updateUI None EmptyString false)|].
    repeat split; auto. }
  destruct (JsString.len rawValue <? MIN_PHONE_LENGTH C).
  { cbn [fst]. apply steady_spec, steady_updateUI. }
  destruct (Cache.get _ _ _ _ _ _) as [[cached m] s].
  set (st1 := set_storage s (set_cacheManager m st)).
  assert (S1 : steady st st1) by (subst st1; repeat split; auto).
  assert (Hrest :
    let r := (let '(allowed, st) :=
          if (attemptNumber =? 0)%nat then canMakeRequest st1 else (true, st1) in
        if negb allowed then (updateUI (Some false) RATE_LIMIT false st, true)
        else
          let '(within, st) := incrementRequest st in
          if negb within then
            (updateUI (Some false)
               "Terlalu banyak validasi. Silakan tunggu sebentar." false st, true)
          else
            let phone := PhoneFormatter.normalize rawValue in
            if String.eqb phone (lastCheckedNumber st)
               && match validationState st with Some _ => true | None => false end
               && (attemptNumber =? 0)%nat
            then (st, true)
            else
              let st := if (attemptNumber =? 0)%nat
                        then updateUI None EmptyString true st else st in
              let st := if retryController st && (attemptNumber =? 0)%nat
                        then set_retryController false st else st in
              let timeout := getOptimalTimeout (connectionQuality st) in
              let '(p, _, rm) :=
                RequestManager.makeRequest (TIMEOUTS C) phone attemptNumber
                  (Some timeout) (requestManager st) in
              let st := set_requestManager rm st in
              (set_waiting (waiting st ++ [mkWaiter attemptNumber rawValue phone p]) st,
               false)) in
    failsafeMode (fst r) = failsafeMode st
    /\ input_value (fst r) = input_value st
    /\ queueManager (fst r) = queueManager st
    /\ (retryController st = false -> retryController (fst r) = false)
    /\ forall c, In c (RequestManager.in_flight (requestManager (fst r))) ->
         In c (RequestManager.in_flight (requestManager st))
         \/ RequestManager.call_timeout c = getOptimalTimeout (connectionQuality st)).
  { assert (S2 : exists allowed st2,
              (if (attemptNumber =? 0)%nat then canMakeRequest st1 else (true, st1))
              = (allowed, st2) /\ steady st st2).
    { destruct (attemptNumber =? 0)%nat.
      - destruct (canMakeRequest st1) as [a s2] eqn:Hc. exists a, s2. split; [reflexivity|].
        eapply steady_trans; [exact S1|].
        pose proof (steady_canMakeRequest st1) as H. now rewrite Hc in H.
      - exists true, st1. auto. }
    destruct S2 as (allowed & st2 & -> & S2). cbv zeta.
    destruct (negb allowed).
    { cbn [fst]. apply steady_spec.
      eapply steady_trans; [exact S2 | apply steady_updateUI]. }
    destruct (incrementRequest st2) as [within st3] eqn:Hi.
    assert (S3 : steady st st3).
    { eapply steady_trans; [exact S2|].
      pose proof (steady_incrementRequest st2) as H. now rewrite Hi in H. }
    destruct (negb within).
    { cbn [fst]. apply steady_spec.
      eapply steady_trans; [exact S3 | apply steady_updateUI]. }
    destruct (_ && _ && _).
    { cbn [fst]. now apply steady_spec. }
    set (st4 := if (attemptNumber =? 0)%nat then updateUI None EmptyString true st3 else st3).
    assert (S4 : steady st st4).
    { subst st4. destruct (attemptNumber =? 0)%nat; [|exact S3].
      eapply steady_trans; [exact S3 | apply steady_updateUI]. }
    set (st5 := if retryController st4 && (attemptNumber =? 0)%nat
                then set_retryController false st4 else st4).
    assert (S5 : steady st st5).
    { subst st5. destruct (_ && _); [|exact S4].
      eapply steady_trans; [exact S4 | repeat split; auto]. }
    destruct S5 as (A1 & A2 & A3 & A4 & A5 & A6).
    unfold RequestManager.makeRequest.
    destruct (RequestManager.activeRequests (requestManager st5) !! _); cbn [fst].
    - apply steady_spec. repeat split; assumption.
    - repeat split; try assumption.
      intros c Hc. cbn in Hc. apply in_app_or in Hc as [Hc | [<- | []]].
      + left. now rewrite <- A3.
      + right. cbn. rewrite A2.
        unfold RequestManager.request_timeout, RequestManager.or_else.
        destruct (connectionQuality st); reflexivity. }
  destruct cached as [| |registered]; destruct attemptNumber as [|n];
    try exact Hrest.
  - cbn [fst]. now apply steady_spec.
  - cbn [fst]. apply steady_spec.
    eapply steady_trans; [exact S1 | apply steady_handleValidationResult].
Qed.


(** Every network call that [validateWhatsApp] issues carries the
    network-aware timeout. *)
Lemma begin_calls_timeout (attemptNumber : nat) (st : state) (c : RequestManager.call) :
  In c (RequestManager.in_flight (requestManager (fst (validateWhatsApp_begin C attemptNumber st)))) ->
  In c (RequestManager.in_flight (requestManager st))
  \/ RequestManager.call_timeout c = getOptimalTimeout (connectionQuality st).
Proof.
  rewrite validateWhatsApp_begin_unfold.
  unfold handleGracefulDegradation, attemptAutoRecovery.
  destruct (5 <? errors st); [intros Hc; now left|].
  destruct (negb (online st)).
  { cbn [fst]. destruct (steady_updateUI None "Tidak ada koneksi internet" false st)
      as (_ & _ & A3 & _). rewrite A3. now left. }
  destruct (negb (budget_ok st)); [intros Hc; now left|].
  set (st1 := if failsafeMode st && (attemptNumber =? 0)%nat
              then set_failsafeMode false st else st).
  assert (H1 : connectionQuality st1 = connectionQuality st
               /\ RequestManager.in_flight (requestManager st1)
                  = RequestManager.in_flight (requestManager st))
    by (subst st1; destruct (_ && _); split; reflexivity).
  destruct H1 as [Hq Hf].
  destruct (failsafeMode st1 && negb (isRetrying st1)).
  { cbn [fst]. destruct (steady_updateInputIcon NoIcon st1) as (_ & _ & A3 & _).
    rewrite A3, Hf. now left. }
  intros Hc. destruct (begin_body_spec attemptNumber st1) as (_ & _ & _ & Hcalls).
  rewrite <- Hq, <- Hf. now apply Hcalls.
Qed.

Lemma begin_queueManager (attemptNumber : nat) (st : state) :
  queueManager (fst (validateWhatsApp_begin C attemptNumber st)) = queueManager st.
Proof.
  rewrite validateWhatsApp_begin_unfold.
  unfold handleGracefulDegradation, attemptAutoRecovery.
  destruct (5 <? errors st); [reflexivity|].
  destruct (negb (online st)).
  { cbn [fst]. apply (steady_updateUI None "Tidak ada koneksi internet" false st). }
  destruct (negb (budget_ok st)); [reflexivity|].
  set (st1 := if failsafeMode st && (attemptNumber =? 0)%nat
              then set_failsafeMode false st else st).
  assert (H1 : queueManager st1 = queueManager st)
    by (subst st1; destruct (_ && _); reflexivity).
  destruct (failsafeMode st1 && negb (isRetrying st1)).
  { cbn [fst]. destruct (steady_updateInputIcon NoIcon st1) as (_ & _ & _ & _ & A5 & _).
    congruence. }
  destruct (begin_body_spec attemptNumber st1) as (_ & _ & Hq & _). congruence.
Qed.

Lemma next_some_length {Job} (q : Queue.t Job) rest entry :
  Queue.next q = Some (rest, entry) ->
  length (Queue.queue q) = S (length (Queue.queue (Queue.process q))).
Proof.
  intros Hn. unfold Queue.process. rewrite Hn. simpl.
  unfold Queue.next in Hn. destruct (_ || _); [discriminate|].
  apply pop_inv in Hn. rewrite Hn, length_app. simpl. lia.
Qed.

(** The completion callback never runs out of fuel: with as much fuel as
    there are queued entries, more fuel changes nothing. *)
Lemma onComplete_fuel (fuel k : nat) (st : state) :
  (length (Queue.queue (queueManager st)) <= fuel)%nat ->
  onComplete C (fuel + k) st = onComplete C fuel st.
Proof.
  revert st. induction fuel as [|fuel IH]; intros st Hlen.
  - destruct (Queue.next (Queue.release tt (queueManager st))) as [[rest entry]|] eqn:Hn.
    + apply next_some_length in Hn. simpl in Hn. lia.
    + destruct k; simpl; now rewrite Hn.
  - simpl.
    destruct (Queue.next (Queue.release tt (queueManager st))) as [[rest entry]|] eqn:Hn;
      [|reflexivity].
    destruct (validateWhatsApp_begin C 0 _) as [st' finished] eqn:Hb.
    destruct finished; [|reflexivity].
    apply IH.
    pose proof (begin_queueManager 0
                  (set_queueManager (Queue.process (Queue.release tt (queueManager st))) st))
      as Hq.
    rewrite Hb in Hq. simpl in Hq. rewrite Hq.
    apply next_some_length in Hn. simpl in Hn. lia.
Qed.


(** A first attempt that finds the value in the cache applies the
    cached verdict and ends without calling the request manager. *)
Lemma begin_cache_hit (st : state) (registered : bool) m s :
  errors st <= 5 -> online st = true -> budget_ok st = true ->
  JsString.truthy (JsString.trim (input_value st)) = true ->
  MIN_PHONE_LENGTH C <= JsString.len (JsString.trim (input_value st)) ->
  Cache.get (CACHE C) TEST_KEY (clock st) (JsString.trim (input_value st))
    (cacheManager st) (storage st) = (Cache.Value registered, m, s) ->
  snd (validateWhatsApp_begin C 0 st) = true
  /\ validationState (fst (validateWhatsApp_begin C 0 st)) = Some registered
  /\ requestManager (fst (validateWhatsApp_begin C 0 st)) = requestManager st
  /\ waiting (fst (validateWhatsApp_begin C 0 st)) = waiting st.
Proof.
  intros He Ho Hb Ht Hl Hg. rewrite validateWhatsApp_begin_unfold.
  unfold handleGracefulDegradation.
  replace (5 <? errors st) with false by (symmetry; apply Z.ltb_ge; lia).
  rewrite Ho, Hb. simpl negb. cbv iota.
  change (0 =? 0)%nat with true. rewrite andb_true_r.
  set (st1 := if failsafeMode st then set_failsafeMode false st else st).
  assert (H1 : failsafeMode st1 = false)
    by (subst st1; destruct (failsafeMode st) eqn:Hf; [reflexivity | exact Hf]).
  assert (Hsame : input_value st1 = input_value st /\ clock st1 = clock st
                  /\ cacheManager st1 = cacheManager st /\ storage st1 = storage st
                  /\ requestManager st1 = requestManager st /\ waiting st1 = waiting st)
    by (subst st1; destruct (failsafeMode st); repeat split).
  destruct Hsame as (E1 & E2 & E3 & E4 & E5 & E6).
  rewrite H1. simpl andb. cbv iota.
  unfold begin_body. rewrite E1, E2, E3, E4, Ht. simpl negb. cbv iota.
  replace (JsString.len (JsString.trim (input_value st)) <? MIN_PHONE_LENGTH C)
    with false by (symmetry; apply Z.ltb_ge; lia).
  rewrite Hg. cbn [fst snd].
  unfold handleValidationResult, updateUI, schedule.
  destruct registered; simpl;
    match goal with |- context [if ?b then _ else _] => destruct b end;
    simpl; auto.
Qed.

(** A retry that finds everything in order asks the request manager
    again, for the same value, as the next attempt. *)
Lemma begin_retry_reissues (n : nat) (st : state) :
  errors st <= 5 -> online st = true -> budget_ok st = true ->
  isRetrying st = true ->
  JsString.truthy (JsString.trim (input_value st)) = true ->
  MIN_PHONE_LENGTH C <= JsString.len (JsString.trim (input_value st)) ->
  fst (incrementRequest st) = true ->
  exists st' p,
    validateWhatsApp_begin C (S n) st = (st', false)
    /\ waiting st' = waiting st ++
         [mkWaiter (S n) (JsString.trim (input_value st))
                   (PhoneFormatter.normalize (JsString.trim (input_value st))) p].
Proof.
  intros He Ho Hb Hr Ht Hl Hi. rewrite validateWhatsApp_begin_unfold.
  unfold handleGracefulDegradation.
  replace (5 <? errors st) with false by (symmetry; apply Z.ltb_ge; lia).
  rewrite Ho, Hb. simpl negb. cbv iota.
  change (S n =? 0)%nat with false. rewrite andb_false_r. cbv iota.
  rewrite Hr. simpl negb. rewrite andb_false_r. cbv iota.
  unfold begin_body. rewrite Ht. simpl negb. cbv iota.
  replace (JsString.len (JsString.trim (input_value st)) <? MIN_PHONE_LENGTH C)
    with false by (symmetry; apply Z.ltb_ge; lia).
  destruct (Cache.get _ _ _ _ _ _) as [[cached m] s].
  set (st1 := set_storage s (set_cacheManager m st)).
  assert (Hi1 : incrementRequest st1
                = (true, set_storage s (set_cacheManager m (snd (incrementRequest st))))).
  { unfold incrementRequest in *. subst st1. simpl in *.
    destruct (60000 <? clock st - lastRequestReset st); simpl in *; rewrite Hi;
      reflexivity. }
  assert (Hgoal :
    exists st' p,
      (let '(allowed, st0) := (true, st1) in
       if negb allowed then (updateUI (Some false) RATE_LIMIT false st0, true)
       else
         let '(within, st2) := incrementRequest st0 in
         if negb within then
           (updateUI (Some false)
              "Terlalu banyak validasi. Silakan tunggu sebentar." false st2, true)
         else
           let phone := PhoneFormatter.normalize (JsString.trim (input_value st)) in
           if String.eqb phone (lastCheckedNumber st2)
              && match validationState st2 with Some _ => true | None => false end
              && false
           then (st2, true)
           else
             let st3 := if false then updateUI None EmptyString true st2 else st2 in
             let st4 := if retryController st3 && false
                        then set_retryController false st3 else st3 in
             let timeout := getOptimalTimeout (connectionQuality st4) in
             let '(p, _, rm) :=
               RequestManager.makeRequest (TIMEOUTS C) phone (S n)
                 (Some timeout) (requestManager st4) in
             let st5 := set_requestManager rm st4 in
             (set_waiting
                (waiting st5 ++ [mkWaiter (S n) (JsString.trim (input_value st)) phone p])
                st5, false)) = (st', false)
      /\ waiting st' = waiting st ++
           [mkWaiter (S n) (JsString.trim (input_value st))
              (PhoneFormatter.normalize (JsString.trim (input_value st))) p]).
  { cbv zeta. simpl negb. cbv iota. rewrite Hi1. simpl negb. cbv iota.
    rewrite !andb_false_r. cbv iota.
    destruct (RequestManager.makeRequest _ _ _ _ _) as [[p owner] rm].
    eexists _, p. split; [reflexivity|]. simpl.
    unfold incrementRequest. simpl.
    destruct (60000 <? clock st - lastRequestReset st); reflexivity. }
  destruct cached; exact Hgoal.
Qed.

(** C5 (as amended). [executeRequest] arms its abort timer with the
    custom timeout when one is given, and only otherwise with the
    attempt-indexed entry of the configurable table (default
    [10000, 7000, 5000] ms, else 5000); every remote call issued by
    [validateWhatsApp] is given the network-aware timeout (15000, 10000
    or 7000 ms by connection quality), so the table is not consulted for
    them.  When attempt [n < 2] fails, a retry is armed after the
    attempt-indexed delay [RETRY_DELAYS[n]] (default [3000, 5000] ms);
    when it fires, attempt [n + 1] starts if the field still holds the
    same value (and then, the environment permitting, asks the request
    manager again for that value), and otherwise the retry is abandoned
    with no message. *)
Theorem retry_controller :
  (TIMEOUTS default_config = [10000; 7000; 5000]
   /\ RETRY_DELAYS default_config = [3000; 5000])
  /\ (forall n, RequestManager.request_timeout (TIMEOUTS C) n None
                = RequestManager.or_else (TIMEOUTS C !! n) 5000)
  /\ (forall n st c,
        In c (RequestManager.in_flight
                (requestManager (fst (validateWhatsApp_begin C n st)))) ->
        In c (RequestManager.in_flight (requestManager st))
        \/ RequestManager.call_timeout c = getOptimalTimeout (connectionQuality st))
  /\ (forall w st, (w_attempt w < 2)%nat ->
        snd (validateWhatsApp_rejected C w st) = false
        /\ isRetrying (fst (validateWhatsApp_rejected C w st)) = true
        /\ retries (fst (validateWhatsApp_rejected C w st))
           = retries st ++ [mkRetry (w_attempt w) (w_rawValue w)
                                    (default 0 (RETRY_DELAYS C !! w_attempt w))])
  /\ (forall r st, JsString.trim (input_value st) = r_rawValue r ->
        retry_callback C r st = settle C (validateWhatsApp_begin C (S (r_attempt r)) st))
  /\ (forall r st, JsString.trim (input_value st) = r_rawValue r ->
        errors st <= 5 -> online st = true -> budget_ok st = true ->
        isRetrying st = true ->
        JsString.truthy (r_rawValue r) = true ->
        MIN_PHONE_LENGTH C <= JsString.len (r_rawValue r) ->
        fst (incrementRequest st) = true ->
        exists p,
          waiting (retry_callback C r st)
          = waiting st ++ [mkWaiter (S (r_attempt r)) (r_rawValue r)
                                    (PhoneFormatter.normalize (r_rawValue r)) p])
  /\ (forall r st, JsString.trim (input_value st) <> r_rawValue r ->
        retry_callback C r st
        = settle C (updateInputIcon NoIcon (set_isRetrying false st), true)).
Proof.
  split; [split; reflexivity|]. split; [reflexivity|].
  split; [exact begin_calls_timeout|]. split; [|split; [|split]].
  - intros w st Hw. unfold validateWhatsApp_rejected.
    replace (w_attempt w <? 2)%nat with true by (symmetry; apply Nat.ltb_lt; lia).
    cbn [fst snd]. repeat split. simpl. f_equal.
    unfold captureError, handleGracefulDegradation, attemptAutoRecovery. simpl.
    destruct (10 <? errors st + 1); simpl;
      match goal with |- context [if ?b then _ else _] => destruct b end; reflexivity.
  - intros r st Hv. unfold retry_callback.
    now destruct (String.eqb_spec (JsString.trim (input_value st)) (r_rawValue r)).
  - intros r st Hv He Ho Hb Hr Ht Hl Hi. unfold retry_callback.
    rewrite <- Hv in *. rewrite String.eqb_refl.
    destruct (begin_retry_reissues (r_attempt r) st He Ho Hb Hr Ht Hl Hi)
      as (st' & p & Hbegin & Hw).
    exists p. rewrite Hbegin. exact Hw.
  - intros r st Hv. unfold retry_callback.
    now destruct (String.eqb_spec (JsString.trim (input_value st)) (r_rawValue r)).
Qed.

End Failsafe.

Section FailsafeExamples.
Import WhatsApp.



(** C5 as stated fails: on a good connection the first attempt is given
    7000 ms, not the 10000 ms of the first table entry. *)
Lemma retry_controller_counterexample :
  RequestManager.in_flight
    (requestManager (run default_config [Input "081234567890"; DebounceFires] fresh))
  = [RequestManager.mkCall 0 "+6281234567890" 7000]
  /\ TIMEOUTS default_config !! 0%nat = Some 10000.
Proof. vm_compute. repeat split. Qed.

End FailsafeExamples.

(** ** The retry controller is never installed *)

Section NoAbortableRetry.
Import WhatsApp.
Variable C : config.


















End NoAbortableRetry.

(** ** Submission gating *)

Section SubmissionGate.






End SubmissionGate.


(** ** The rate limiter of the edge proxy *)

Section RateLimitWindow.
Import JsString Js Worker.
Variable E : engine.

Lemma pretty_N_char_digit (d : N) :
  (d < 10)%N ->
  is_digit (pretty_N_char d) = true
  /\ Z.of_nat (nat_of_ascii (pretty_N_char d)) - 48 = Z.of_N d.
Proof.
  intros Hd.
  assert (d = 0 \/ d = 1 \/ d = 2 \/ d = 3 \/ d = 4 \/ d = 5 \/ d = 6 \/ d = 7
          \/ d = 8 \/ d = 9)%N as H by lia.
  repeat (destruct H as [-> | H]; [split; reflexivity|]). subst d. split; reflexivity.
Qed.

(** Reading back the decimal digits [pretty_N_go] writes. *)
Lemma digits_value_pretty_N_go (x : N) :
  (0 < x)%N ->
  exists k, forall acc s,
    digits_value acc (pretty_N_go x s) = digits_value (acc * k + Z.of_N x) s
    /\ exists c r, pretty_N_go x s = String c r /\ is_digit c = true.
Proof.
  induction (N.lt_wf_0 x) as [x _ IH]. intros Hx.
  destruct (pretty_N_char_digit (x `mod` 10)%N) as [Hd Hv];
    [now apply N.mod_lt|].
  assert (Hdm : Z.of_N x = 10 * Z.of_N (x `div` 10) + Z.of_N (x `mod` 10)).
  { rewrite (N.div_mod x 10) at 1 by discriminate. lia. }
  destruct (N.eq_dec (x `div` 10)%N 0%N) as [Hz | Hnz].
  - exists 10. intros acc s. rewrite pretty_N_go_step by exact Hx.
    rewrite Hz, pretty_N_go_0. cbn [digits_value]. rewrite Hd.
    split; [f_equal; rewrite Hv, Hdm, Hz; change (Z.of_N 0) with 0; ring | eauto].
  - destruct (IH (x `div` 10)%N) as [k Hk]; [now apply N.div_lt | now apply N.neq_0_lt_0 |].
    exists (10 * k). intros acc s. rewrite pretty_N_go_step by exact Hx.
    destruct (Hk acc (String (pretty_N_char (x `mod` 10)) s)) as [-> Hc].
    split; [|exact Hc].
    cbn [digits_value]. rewrite Hd. f_equal. rewrite Hv, Hdm. ring.
Qed.

Lemma digit_not_space_nor_sign c :
  is_digit c = true ->
  is_white_space c = false /\ Ascii.eqb c "-" = false /\ Ascii.eqb c "+" = false.
Proof. destruct c as [[] [] [] [] [] [] [] []]; vm_compute; intuition congruence. Qed.

Lemma to_double_safe (x : Z) : Z.abs x <= 2 ^ 53 -> to_double x = Num x.
Proof.
  intros Hx. unfold to_double.
  destruct (Z.log2 (Z.abs x) + 1 <=? 53) eqn:Hb; [reflexivity|].
  apply Z.leb_gt in Hb.
  assert (Ha : Z.abs x = 2 ^ 53).
  { destruct (Z.eq_dec (Z.abs x) 0) as [H0 | H0].
    - rewrite H0 in Hb. cbn in Hb. lia.
    - assert (Hpos : 0 < Z.abs x) by lia.
      destruct (Z.lt_ge_cases (Z.abs x) (2 ^ 53)) as [Hlt | Hge]; [|lia].
      apply (Z.log2_lt_pow2 _ 53 Hpos) in Hlt. lia. }
  destruct (Z.abs_spec x) as [[_ Hp] | [_ Hn]].
  - rewrite Hp in Ha. subst x. reflexivity.
  - assert (x = - 2 ^ 53) as -> by lia. reflexivity.
Qed.

Lemma parseInt_pretty_pos (p : positive) :
  digits_value 0 (pretty p) = Z.pos p
  /\ exists c r, pretty p = String c r /\ is_digit c = true.
Proof.
  unfold pretty, pretty_positive, pretty, pretty_N.
  destruct (decide (N.pos p = 0%N)) as [|_]; [discriminate|].
  destruct (digits_value_pretty_N_go (N.pos p)) as [k Hk]; [reflexivity|].
  destruct (Hk 0 EmptyString) as [Hv (c & r & Hs & Hc)].
  split; [exact Hv | eauto].
Qed.

(** [parseInt(n.toString(), 10)] is [n] for a safe integer [n]: the
    counter is read back as it was written. *)
Lemma parseInt_pretty (z : Z) :
  Z.abs z <= 2 ^ 53 ->
  parseInt E (pretty z) = Num z /\ JsString.truthy (pretty z) = true.
Proof.
  intros Hz. destruct z as [|p|p].
  - split; reflexivity.
  - destruct (parseInt_pretty_pos p) as (Hv & c & r & Hs & Hc).
    change (pretty (Z.pos p)) with (pretty p).
    split; [|now rewrite Hs].
    unfold parseInt. rewrite Hs in *.
    destruct (digit_not_space_nor_sign c Hc) as (Hw & Hm & Hp).
    cbn [trim_start]. rewrite Hw, Hm, Hp, Hc, Hv.
    replace (Z.pos p <? 10 ^ 20) with true by (symmetry; apply Z.ltb_lt; lia).
    now apply to_double_safe.
  - destruct (parseInt_pretty_pos p) as (Hv & c & r & Hs & Hc).
    change (pretty (Z.neg p)) with ("-" +:+ pretty p). split; [|reflexivity].
    unfold parseInt. rewrite Hs in *.
    change (trim_start ("-" +:+ String c r)) with (String "-" (String c r)).
    cbv beta iota. change (Ascii.eqb "-" "-") with true. cbv beta iota.
    rewrite Hc, Hv.
    replace (Z.pos p <? 10 ^ 20) with true by (symmetry; apply Z.ltb_lt; lia).
    now apply to_double_safe.
Qed.

(** The counts whose text reads back as the same count: NaN and the
    safe integers. *)
Definition reads_back (n : jsnum) : Prop :=
  match n with
  | NaN => True
  | Infinity _ => False
  | Num z => Z.abs z <= 2 ^ 53
  end.

Lemma getCount_written (k : kv) (key : string) (n : jsnum) (ttl : Z) :
  kv_get_throws k = false -> reads_back n ->
  kv_entries k !! key = Some (number_toString E n, ttl) ->
  getCount E k key = n.
Proof.
  intros Hg Hn Hk. unfold getCount. rewrite Hg, Hk.
  destruct n as [|neg|z]; cbn [reads_back] in Hn; [reflexivity | contradiction |].
  cbn [number_toString].
  replace (Z.abs z <=? 2 ^ 53) with true by (symmetry; now apply Z.leb_le).
  destruct (parseInt_pretty z Hn) as [-> ->]. reflexivity.
Qed.

Lemma incrementCounter_spec (k : kv) (key : string) (ttl : Z) :
  kv_get_throws k = false -> kv_put_throws k = false ->
  let r := incrementCounter E k key ttl in
  fst r = add_one (getCount E k key)
  /\ (reads_back (add_one (getCount E k key)) -> getCount E (snd r) key = fst r)
  /\ kv_get_throws (snd r) = false /\ kv_put_throws (snd r) = false
  /\ (forall key', key' <> key -> kv_entries (snd r) !! key' = kv_entries k !! key').
Proof.
  intros Hg Hp. unfold incrementCounter. rewrite Hp. cbn [fst snd].
  split; [reflexivity|]. split; [|split; [exact Hg | split; [exact Hp|]]].
  - intros Hn. apply (getCount_written _ _ _ ttl); [exact Hg | exact Hn |].
    cbn [kv_put kv_entries]. apply lookup_insert_eq.
  - intros key' Hne. cbn [kv_put kv_entries]. now apply lookup_insert_ne.
Qed.

Lemma add_one_safe (c : Z) :
  - 2 ^ 53 <= c < 2 ^ 53 ->
  add_one (Num c) = Num (c + 1) /\ reads_back (add_one (Num c)).
Proof.
  intros Hc. cbn [add_one]. rewrite to_double_safe by lia.
  split; [reflexivity|]. cbn [reads_back]. lia.
Qed.

(** The key of the counter of [clientIP] in minute window [w]. *)
Definition window_key (w : Z) (clientIP : string) : string :=
  "rate_minute_" +:+ clientIP +:+ "_" +:+ pretty w.

Lemma minuteKey_window now clientIP :
  minuteKey now clientIP = window_key (now / (WINDOW_MINUTE * 1000)) clientIP.
Proof. reflexivity. Qed.

Lemma checkRateLimit_spec (now : Z) (clientIP : string) (k : kv) (c : Z) :
  kv_get_throws k = false -> kv_put_throws k = false ->
  getCount E k (minuteKey now clientIP) = Num c -> - 2 ^ 53 <= c ->
  let r := checkRateLimit E now clientIP k in
  fst r = (c <? PER_MINUTE)
  /\ getCount E (snd r) (minuteKey now clientIP)
     = Num (if c <? PER_MINUTE then c + 1 else c)
  /\ kv_get_throws (snd r) = false /\ kv_put_throws (snd r) = false
  /\ (forall key', key' <> minuteKey now clientIP ->
        kv_entries (snd r) !! key' = kv_entries k !! key').
Proof.
  intros Hg Hp Hc Hlo. unfold checkRateLimit. rewrite Hc. cbn [at_least].
  rewrite (Z.leb_antisym c PER_MINUTE).
  destruct (c <? PER_MINUTE) eqn:Hlt; cbn [negb fst snd].
  - apply Z.ltb_lt in Hlt. unfold PER_MINUTE in Hlt.
    destruct (incrementCounter_spec k (minuteKey now clientIP) WINDOW_MINUTE Hg Hp)
      as (Hf & Hr & Hg' & Hp' & Hother).
    rewrite Hc in Hf, Hr.
    destruct (add_one_safe c) as [Ha Hb]; [lia|].
    rewrite (Hr Hb), Hf, Ha. auto.
  - auto.
Qed.

(** A client's requests at the clock readings [times], handled one
    after the other (each [checkRateLimit] returns before the next one
    starts): the decisions, and the store afterwards. *)
Fixpoint serve (times : list Z) (clientIP : string) (k : kv) : list bool * kv :=
  match times with
  | [] => ([], k)
  | t :: rest =>
      let '(allowed, k) := checkRateLimit E t clientIP k in
      let '(decisions, k) := serve rest clientIP k in
      (allowed :: decisions, k)
  end.

(** The same requests overlapping in lockstep: all calls are started,
    and all of them pass the first wait before any passes the second,
    and the second before any passes the third. *)
Definition lockstep (times : list Z) (clientIP : string) (k : kv) : list rate_call * kv :=
  let calls := map (fun t => rate_call_start t clientIP) times in
  let '(calls, k) := resume_each E calls k in
  let '(calls, k) := resume_each E calls k in
  resume_each E calls k.

(** [checkRateLimit] is the call run through its three waits with no
    other call in between. *)
Lemma checkRateLimit_resumes (now : Z) (clientIP : string) (k : kv) :
  let '(c1, k1) := rate_call_resume E (rate_call_start now clientIP) k in
  let '(c2, k2) := rate_call_resume E c1 k1 in
  let '(c3, k3) := rate_call_resume E c2 k2 in
  (c3, k3) = (Decided (fst (checkRateLimit E now clientIP k)),
              snd (checkRateLimit E now clientIP k)).
Proof.
  unfold rate_call_start, checkRateLimit, incrementCounter. cbn [rate_call_resume].
  destruct (at_least (getCount E k (minuteKey now clientIP)) PER_MINUTE);
    cbn [rate_call_resume fst snd]; [reflexivity|].
  destruct (kv_put_throws k); reflexivity.
Qed.

Lemma serve_cons t rest clientIP k :
  serve (t :: rest) clientIP k
  = (fst (checkRateLimit E t clientIP k)
       :: fst (serve rest clientIP (snd (checkRateLimit E t clientIP k))),
     snd (serve rest clientIP (snd (checkRateLimit E t clientIP k)))).
Proof.
  cbn [serve]. destruct (checkRateLimit E t clientIP k) as [a k1]. cbn [fst snd].
  destruct (serve rest clientIP k1) as [l k2]. reflexivity.
Qed.

Lemma serve_window (w : Z) (clientIP : string) (times : list Z) (k : kv) (c : Z) :
  kv_get_throws k = false -> kv_put_throws k = false ->
  Forall (fun t => t / (WINDOW_MINUTE * 1000) = w) times ->
  getCount E k (window_key w clientIP) = Num c -> - 2 ^ 53 <= c ->
  fst (serve times clientIP k)
  = map (fun i => c + Z.of_nat i <? PER_MINUTE) (seq 0 (length times))
  /\ getCount E (snd (serve times clientIP k)) (window_key w clientIP)
     = Num (Z.max c (Z.min (c + Z.of_nat (length times)) PER_MINUTE)).
Proof.
  intros Hg Hp Hw. revert k c Hg Hp.
  induction Hw as [|t rest Ht _ IH]; intros k c Hg Hp Hc Hlo.
  - cbn. split; [reflexivity|]. rewrite Hc. f_equal. unfold PER_MINUTE. lia.
  - rewrite serve_cons. cbn [fst snd].
    assert (Hk : minuteKey t clientIP = window_key w clientIP)
      by (rewrite minuteKey_window; now rewrite Ht).
    rewrite <- Hk in Hc.
    destruct (checkRateLimit_spec t clientIP k c Hg Hp Hc Hlo) as (Hf & Hc' & Hg' & Hp' & _).
    rewrite Hk in Hc'.
    assert (Hlo' : - 2 ^ 53 <= (if c <? PER_MINUTE then c + 1 else c))
      by (destruct (c <? PER_MINUTE); lia).
    destruct (IH _ _ Hg' Hp' Hc' Hlo') as [IHf IHc]. rewrite Hf, IHf, IHc.
    cbn [length seq map]. rewrite <- seq_shift, map_map. split.
    + f_equal; [f_equal; lia|]. apply map_ext. intros i.
      unfold PER_MINUTE. destruct (c <? 10) eqn:Hlt.
      * f_equal. lia.
      * apply Z.ltb_ge in Hlt.
        transitivity false; [|symmetry]; apply Z.ltb_ge; lia.
    + f_equal. unfold PER_MINUTE. destruct (c <? 10) eqn:Hlt.
      * apply Z.ltb_lt in Hlt. lia.
      * apply Z.ltb_ge in Hlt. lia.
Qed.

Lemma kv_put_twice key value ttl k :
  kv_put key value ttl (kv_put key value ttl k) = kv_put key value ttl k.
Proof. unfold kv_put. cbn [kv_entries kv_get_throws kv_put_throws]. now rewrite insert_insert_eq. Qed.

Lemma resume_each_count (key : string) (n : nat) (k : kv) :
  at_least (getCount E k key) PER_MINUTE = false ->
  resume_each E (repeat (AwaitsCount key) n) k = (repeat (AwaitsRecount key) n, k).
Proof.
  intros H. induction n as [|n IH]; [reflexivity|].
  cbn [repeat resume_each rate_call_resume]. rewrite H, IH. reflexivity.
Qed.

Lemma resume_each_recount (key : string) (n : nat) (k : kv) :
  resume_each E (repeat (AwaitsRecount key) n) k
  = (repeat (AwaitsPut key (add_one (getCount E k key))) n, k).
Proof.
  induction n as [|n IH]; [reflexivity|].
  cbn [repeat resume_each rate_call_resume]. rewrite IH. reflexivity.
Qed.

Lemma resume_each_put (key : string) (v : jsnum) (n : nat) (k : kv) :
  kv_put_throws k = false ->
  resume_each E (repeat (AwaitsPut key v) (S n)) k
  = (repeat (Decided true) (S n), kv_put key (number_toString E v) WINDOW_MINUTE k).
Proof.
  revert k. induction n as [|n IH]; intros k Hp.
  - cbn [repeat resume_each rate_call_resume]. now rewrite Hp.
  - change (repeat (AwaitsPut key v) (S (S n)))
      with (AwaitsPut key v :: repeat (AwaitsPut key v) (S n)).
    cbn [resume_each rate_call_resume]. rewrite Hp.
    rewrite (IH (kv_put key (number_toString E v) WINDOW_MINUTE k) Hp).
    now rewrite kv_put_twice.
Qed.

Lemma lockstep_window (w : Z) (clientIP : string) (times : list Z) (k : kv) (c : Z) :
  kv_get_throws k = false -> kv_put_throws k = false ->
  Forall (fun t => t / (WINDOW_MINUTE * 1000) = w) times ->
  getCount E k (window_key w clientIP) = Num c -> - 2 ^ 53 <= c ->
  c < PER_MINUTE -> times <> [] ->
  fst (lockstep times clientIP k) = map (fun _ => Decided true) times
  /\ getCount E (snd (lockstep times clientIP k)) (window_key w clientIP) = Num (c + 1).
Proof.
  intros Hg Hp Hw Hc Hlo Hlt Hne. unfold lockstep.
  assert (Hcalls : map (fun t => rate_call_start t clientIP) times
                   = repeat (AwaitsCount (window_key w clientIP)) (length times)).
  { clear Hne. induction Hw as [|t rest Ht _ IH]; [reflexivity|].
    cbn [map length repeat]. rewrite IH. f_equal.
    unfold rate_call_start. now rewrite minuteKey_window, Ht. }
  rewrite Hcalls.
  rewrite resume_each_count by (rewrite Hc; cbn [at_least]; apply Z.leb_gt; exact Hlt).
  rewrite resume_each_recount, Hc.
  destruct (add_one_safe c) as [Ha Hb]; [unfold PER_MINUTE in Hlt; lia|].
  destruct (length times) as [|n] eqn:Hn; [destruct times; [contradiction | discriminate]|].
  rewrite (resume_each_put _ _ n k Hp). cbn [fst snd]. split.
  - rewrite <- Hn. clear. induction times as [|t rest IH]; [reflexivity|].
    cbn [length repeat map]. now rewrite IH.
  - rewrite <- Ha. apply (getCount_written _ _ _ WINDOW_MINUTE); [exact Hg | exact Hb |].
    cbn [kv_put kv_entries]. apply lookup_insert_eq.
Qed.

(** The rate limit holds for requests handled in turn, and only for
    those.  With a working store whose counter for the minute window
    reads a count [c] of at least -2^53: the requests a client makes
    within the window, handled one after the other, are admitted until
    the counter reaches PER_MINUTE (10) and turned away from then on, and
    the counter stops at the limit; but when the requests overlap in
    lockstep and the counter is under the limit, every one of them is
    admitted, however many they are, and the counter ends at [c + 1]. *)
Theorem rate_limit_window (w : Z) (clientIP : string) (times : list Z) (k : kv) (c : Z) :
  kv_get_throws k = false -> kv_put_throws k = false ->
  Forall (fun t => t / (WINDOW_MINUTE * 1000) = w) times ->
  getCount E k (window_key w clientIP) = Num c -> - 2 ^ 53 <= c ->
  (fst (serve times clientIP k)
   = map (fun i => c + Z.of_nat i <? PER_MINUTE) (seq 0 (length times))
   /\ getCount E (snd (serve times clientIP k)) (window_key w clientIP)
      = Num (Z.max c (Z.min (c + Z.of_nat (length times)) PER_MINUTE)))
  /\ (c < PER_MINUTE -> times <> [] ->
      fst (lockstep times clientIP k) = map (fun _ => Decided true) times
      /\ getCount E (snd (lockstep times clientIP k)) (window_key w clientIP)
         = Num (c + 1)).
Proof.
  intros Hg Hp Hw Hc Hlo. split.
  - now apply serve_window.
  - intros Hlt Hne. now apply lockstep_window.
Qed.

(** The counter round trip.  With a working store and a stored count
    [c] that is a safe integer (from -2^53 to below 2^53),
    [incrementCounter] reports [c + 1] and a [getCount] after it reads
    [c + 1] back; a count that reads as NaN is reported and read back as
    NaN; and no other key of the store changes. *)
Theorem counter_round_trip (k : kv) (key : string) (ttl : Z) :
  kv_get_throws k = false -> kv_put_throws k = false ->
  (forall c, getCount E k key = Num c -> - 2 ^ 53 <= c < 2 ^ 53 ->
     fst (incrementCounter E k key ttl) = Num (c + 1)
     /\ getCount E (snd (incrementCounter E k key ttl)) key = Num (c + 1))
  /\ (getCount E k key = NaN ->
        fst (incrementCounter E k key ttl) = NaN
        /\ getCount E (snd (incrementCounter E k key ttl)) key = NaN)
  /\ (forall key', key' <> key ->
        getCount E (snd (incrementCounter E k key ttl)) key' = getCount E k key').
Proof.
  intros Hg Hp.
  destruct (incrementCounter_spec k key ttl Hg Hp) as (Hf & Hr & Hg' & _ & Hother).
  split; [|split].
  - intros c Hc Hsafe. rewrite Hc in Hf, Hr.
    destruct (add_one_safe c Hsafe) as [Ha Hb].
    rewrite (Hr Hb), Hf, Ha. auto.
  - intros Hn. rewrite Hn in Hf, Hr. cbn [add_one] in Hf, Hr.
    rewrite (Hr I), Hf. auto.
  - intros key' Hne. unfold getCount. rewrite Hg', Hg, (Hother key' Hne). reflexivity.
Qed.

(** The rate limiter fails open.  While reads of the store throw, every
    request is admitted; while writes throw, the store never changes, so
    each request is judged against the same stored count and a client
    under the limit is never turned away. *)
Theorem rate_limit_fails_open (times : list Z) (clientIP : string) (k : kv) :
  (kv_get_throws k = true ->
     fst (serve times clientIP k) = map (fun _ => true) times)
  /\ (kv_put_throws k = true ->
        snd (serve times clientIP k) = k
        /\ fst (serve times clientIP k)
           = map (fun t => negb (at_least (getCount E k (minuteKey t clientIP)) PER_MINUTE))
               times).
Proof.
  split.
  - revert k. induction times as [|t rest IH]; intros k Hg; [reflexivity|].
    rewrite serve_cons. cbn [fst map].
    assert (H1 : checkRateLimit E t clientIP k
                 = (true, snd (incrementCounter E k (minuteKey t clientIP) WINDOW_MINUTE))).
    { unfold checkRateLimit, getCount. rewrite Hg. reflexivity. }
    rewrite H1. cbn [fst snd]. f_equal. apply IH.
    unfold incrementCounter. destruct (kv_put_throws k); [exact Hg | exact Hg].
  - intros Hp. induction times as [|t rest [IHs IHf]]; [split; reflexivity|].
    rewrite serve_cons. cbn [fst snd map].
    assert (H1 : snd (checkRateLimit E t clientIP k) = k).
    { unfold checkRateLimit, incrementCounter. rewrite Hp.
      destruct (at_least _ _); reflexivity. }
    rewrite H1. split; [exact IHs|]. rewrite IHf. f_equal.
    unfold checkRateLimit. now destruct (at_least _ _).
Qed.

Lemma length_append (a b : string) :
  String.length (a +:+ b) = (String.length a + String.length b)%nat.
Proof.
  induction a as [|c a IH]; [reflexivity|].
  change (S (String.length (a +:+ b)) = S (String.length a + String.length b)).
  now rewrite IH.
Qed.

Lemma append_inj_l (a b s : string) : a +:+ s = b +:+ s -> a = b.
Proof.
  revert b. induction a as [|c a IH]; intros [|d b] H.
  - reflexivity.
  - exfalso. apply (f_equal String.length) in H.
    rewrite !length_append in H. cbn in H. lia.
  - exfalso. apply (f_equal String.length) in H.
    rewrite !length_append in H. cbn in H. lia.
  - cbn in H. injection H as -> H. f_equal. now apply IH.
Qed.

Lemma window_key_inj w a b : window_key w a = window_key w b -> a = b.
Proof.
  unfold window_key. intros H.
  apply (f_equal (slice_from 12)) in H. cbn [slice_from String.append] in H.
  now apply append_inj_l in H.
Qed.

(** Quotas are per client: within a minute window, the requests of one
    client leave the counter of every other client as it is, so they
    never change the decision another client gets. *)
Theorem rate_limit_per_client (now : Z) (a b : string) (k : kv) :
  a <> b ->
  getCount E (snd (checkRateLimit E now a k)) (minuteKey now b)
  = getCount E k (minuteKey now b)
  /\ fst (checkRateLimit E now b (snd (checkRateLimit E now a k)))
     = fst (checkRateLimit E now b k).
Proof.
  intros Hab.
  assert (Hkey : minuteKey now b <> minuteKey now a).
  { rewrite !minuteKey_window. intros H. apply window_key_inj in H. congruence. }
  assert (Hget : forall k', kv_get_throws k' = kv_get_throws k ->
            kv_entries k' !! minuteKey now b = kv_entries k !! minuteKey now b ->
            getCount E k' (minuteKey now b) = getCount E k (minuteKey now b)).
  { intros k' Hg He. unfold getCount. now rewrite Hg, He. }
  assert (Hinc : kv_get_throws (snd (incrementCounter E k (minuteKey now a) WINDOW_MINUTE))
                 = kv_get_throws k
                 /\ kv_entries (snd (incrementCounter E k (minuteKey now a) WINDOW_MINUTE))
                      !! minuteKey now b = kv_entries k !! minuteKey now b).
  { unfold incrementCounter.
    destruct (kv_put_throws k); cbn [snd kv_put kv_get_throws kv_entries];
      [now split|]. split; [reflexivity|]. now apply lookup_insert_ne. }
  assert (H1 : getCount E (snd (checkRateLimit E now a k)) (minuteKey now b)
               = getCount E k (minuteKey now b)).
  { unfold checkRateLimit.
    destruct (at_least (getCount E k (minuteKey now a)) PER_MINUTE); cbn [snd];
      [reflexivity|]. apply Hget; apply Hinc. }
  split; [exact H1|].
  unfold checkRateLimit at 1 3. rewrite H1.
  now destruct (at_least _ _).
Qed.

End RateLimitWindow.

Section RateLimitExamples.
Import JsString Js Worker.

(** Twelve requests of one client within the first minute, on an empty
    store. *)
Definition twelve_requests : list Z :=
  [0; 1000; 2000; 3000; 4000; 5000; 6000; 7000; 8000; 9000; 10000; 59999].

Lemma rate_limit_window_witness :
  fst (serve sample_engine twelve_requests "203.0.113.7" (mkKv ∅ false false))
  = [true; true; true; true; true; true; true; true; true; true; false; false]
  /\ getCount sample_engine
       (snd (serve sample_engine twelve_requests "203.0.113.7" (mkKv ∅ false false)))
       (window_key 0 "203.0.113.7") = Num 10
  /\ fst (lockstep sample_engine twelve_requests "203.0.113.7" (mkKv ∅ false false))
     = map (fun _ => Decided true) twelve_requests
  /\ getCount sample_engine
       (snd (lockstep sample_engine twelve_requests "203.0.113.7" (mkKv ∅ false false)))
       (window_key 0 "203.0.113.7") = Num 1.
Proof.
  destruct (rate_limit_window sample_engine 0 "203.0.113.7" twelve_requests
              (mkKv ∅ false false) 0) as [[H1 H2] H3];
    [reflexivity | reflexivity | repeat constructor | reflexivity
    | vm_compute; discriminate |].
  destruct H3 as [H3 H4]; [reflexivity | discriminate |].
  split; [exact H1|]. split; [exact H2|]. split; [exact H3 | exact H4].
Defined.

Lemma counter_round_trip_witness :
  fst (incrementCounter sample_engine (mkKv {["hits" := ("41", 60)]} false false)
         "hits" 60) = Num 42
  /\ getCount sample_engine
       (snd (incrementCounter sample_engine (mkKv {["hits" := ("41", 60)]} false false)
               "hits" 60)) "hits" = Num 42
  /\ getCount sample_engine
       (snd (incrementCounter sample_engine (mkKv {["hits" := ("41", 60)]} false false)
               "hits" 60)) "misses" = Num 0.
Proof.
  destruct (counter_round_trip sample_engine (mkKv {["hits" := ("41", 60)]} false false)
              "hits" 60) as (H1 & _ & H3); [reflexivity | reflexivity |].
  destruct (H1 41) as [Ha Hb]; [reflexivity | lia |].
  split; [exact Ha|]. split; [exact Hb|].
  rewrite (H3 "misses"); [reflexivity | discriminate].
Defined.

Lemma rate_limit_per_client_witness :
  getCount sample_engine (snd (checkRateLimit sample_engine 0 "198.51.100.1"
                                 (mkKv ∅ false false)))
    (minuteKey 0 "198.51.100.2")
  = getCount sample_engine (mkKv ∅ false false) (minuteKey 0 "198.51.100.2")
  /\ fst (checkRateLimit sample_engine 0 "198.51.100.2"
            (snd (checkRateLimit sample_engine 0 "198.51.100.1" (mkKv ∅ false false))))
     = fst (checkRateLimit sample_engine 0 "198.51.100.2" (mkKv ∅ false false)).
Proof.
  apply (rate_limit_per_client sample_engine 0 "198.51.100.1" "198.51.100.2"
           (mkKv ∅ false false)).
  discriminate.
Defined.

End RateLimitExamples.

(** ** Number formats accepted by the proxy and the client *)

Section NumberFormats.
Import JsString Js Worker.
Variable E : engine.

Lemma white_space_not_digit_or_plus c :
  is_white_space c = true -> digit_or_plus c = false.
Proof.
  intros Hw. destruct (digit_or_plus c) eqn:Hd; [|reflexivity].
  rewrite (digit_or_plus_not_space c Hd) in Hw. discriminate.
Qed.

Lemma filter_trim_start s :
  filter_chars digit_or_plus (trim_start s) = filter_chars digit_or_plus s.
Proof.
  induction s as [|c r IH]; [reflexivity|]. cbn [trim_start].
  destruct (is_white_space c) eqn:Hw; [|reflexivity].
  cbn [filter_chars]. now rewrite (white_space_not_digit_or_plus c Hw).
Qed.

Lemma filter_chars_cons p c s :
  filter_chars p (String c s)
  = if p c then String c (filter_chars p s) else filter_chars p s.
Proof. reflexivity. Qed.

Lemma filter_trim_end s :
  filter_chars digit_or_plus (trim_end s) = filter_chars digit_or_plus s.
Proof.
  induction s as [|c r IH]; [reflexivity|]. cbn [trim_end].
  destruct (trim_end r) as [|d r'] eqn:Hr.
  - cbn [filter_chars] in *. rewrite <- IH.
    destruct (is_white_space c) eqn:Hw.
    + now rewrite (white_space_not_digit_or_plus c Hw).
    + reflexivity.
  - rewrite (filter_chars_cons _ c (String d r')), (filter_chars_cons _ c r).
    now rewrite IH.
Qed.

Lemma filter_trim s :
  filter_chars digit_or_plus (trim s) = filter_chars digit_or_plus s.
Proof. unfold trim. now rewrite filter_trim_end, filter_trim_start. Qed.

(** What both normalizers keep of the text. *)
Definition cleaned (x : string) : string := filter_chars digit_or_plus x.

(** The text has a prefix both normalizers know (0, 62 or +), or 9 to 13
    characters once cleaned. *)
Definition recognised (x : string) : bool :=
  startsWith (cleaned x) "0" || startsWith (cleaned x) "62" || startsWith (cleaned x) "+"
  || ((9 <=? len (cleaned x)) && (len (cleaned x) <=? 13)).

Lemma formatPhoneNumber_string (x : string) :
  formatPhoneNumber E (JStr x)
  = if JsString.truthy x
    then Returns (JStr (if startsWith (cleaned x) "0" then "+62" +:+ slice_from 1 (cleaned x)
                        else if startsWith (cleaned x) "62" then "+" +:+ cleaned x
                        else if startsWith (cleaned x) "+" then cleaned x
                        else "+62" +:+ cleaned x))
    else Returns JNull.
Proof.
  unfold formatPhoneNumber, cleaned. cbn [truthy].
  destruct (JsString.truthy x); cbn [negb]; [|reflexivity].
  change (js_String E (JStr x)) with (Returns x).
  unfold mbind, result_bind, bind. rewrite filter_trim.
  destruct (startsWith _ "0"); [reflexivity|].
  destruct (startsWith _ "62"); [reflexivity|].
  destruct (startsWith _ "+"); reflexivity.
Qed.

Lemma cleaned_cleaned x : cleaned (cleaned x) = cleaned x.
Proof. unfold cleaned. apply filter_chars_all, all_chars_filter. Qed.

Lemma recognised_truthy x : recognised x = true -> JsString.truthy x = true.
Proof.
  unfold recognised, cleaned. destruct x as [|c r]; [|reflexivity]. discriminate.
Qed.

(** The three spellings of an Indonesian number reach the upstream API
    as one: a leading 0, a leading 62 and a leading +62 all give +62
    followed by the digits and plus signs of the rest; and whatever
    string the proxy formats, the result starts with + and holds digits
    and plus signs only. *)
Theorem formatPhoneNumber_canonical (rest : string) :
  formatPhoneNumber E (JStr ("0" +:+ rest)) = Returns (JStr ("+62" +:+ cleaned rest))
  /\ formatPhoneNumber E (JStr ("62" +:+ rest)) = Returns (JStr ("+62" +:+ cleaned rest))
  /\ formatPhoneNumber E (JStr ("+62" +:+ rest)) = Returns (JStr ("+62" +:+ cleaned rest))
  /\ (forall x r, formatPhoneNumber E (JStr x) = Returns (JStr r) ->
        startsWith r "+" = true /\ all_chars digit_or_plus r = true).
Proof.
  repeat split.
  - rewrite formatPhoneNumber_string. reflexivity.
  - rewrite formatPhoneNumber_string. reflexivity.
  - rewrite formatPhoneNumber_string. reflexivity.
  - destruct (formatPhoneNumber_string_cases E x) as [Hn | (r' & Hr' & Hx)];
      rewrite H in *; [discriminate|]. now injection Hx as ->.
  - destruct (formatPhoneNumber_string_cases E x) as [Hn | (r' & Hr' & Hx)];
      rewrite H in *; [discriminate|]. injection Hx as ->. exact Hr'.
Qed.

(** The client posts [PhoneFormatter.normalize] of the field to the
    proxy.  On a recognised text the two normalizers agree, and the proxy
    forwards what the client posts unchanged; on any other text the
    client posts the cleaned text as it is and the proxy puts +62 in
    front of it. *)
Theorem proxy_forwards_normalized (x : string) :
  (recognised x = true ->
     formatPhoneNumber E (JStr x) = Returns (JStr (PhoneFormatter.normalize x))
     /\ formatPhoneNumber E (JStr (PhoneFormatter.normalize x))
        = Returns (JStr (PhoneFormatter.normalize x)))
  /\ (recognised x = false ->
        PhoneFormatter.normalize x = cleaned x
        /\ (JsString.truthy (cleaned x) = true ->
              formatPhoneNumber E (JStr (PhoneFormatter.normalize x))
              = Returns (JStr ("+62" +:+ cleaned x)))).
Proof.
  pose proof (all_chars_filter digit_or_plus x) as Hall. fold (cleaned x) in Hall.
  split.
  - intros Hr. pose proof (recognised_truthy x Hr) as Ht.
    rewrite (formatPhoneNumber_string x), Ht.
    unfold recognised in Hr. unfold PhoneFormatter.normalize. fold (cleaned x).
    destruct (startsWith (cleaned x) "0") eqn:H0.
    { split; [reflexivity|]. apply formatPhoneNumber_plus_fixed.
      change (all_chars digit_or_plus (slice_from 1 (cleaned x)) = true).
      now apply all_chars_slice_from. }
    destruct (startsWith (cleaned x) "62") eqn:H62.
    { split; [reflexivity|]. now apply formatPhoneNumber_plus_fixed. }
    destruct (startsWith (cleaned x) "+") eqn:Hp.
    { cbn [negb andb]. split; [reflexivity|].
      destruct (cleaned x) as [|c r]; [discriminate|]. cbn [startsWith] in Hp.
      destruct (Ascii.eqb_spec "+"%char c) as [<-|_]; [|discriminate].
      apply formatPhoneNumber_plus_fixed. exact Hall. }
    cbn [orb negb] in Hr. apply andb_prop in Hr as [Hlo Hhi]. rewrite Hlo, Hhi.
    cbn [negb andb]. split; [reflexivity|].
    now apply formatPhoneNumber_plus_fixed.
  - intros Hr. unfold recognised in Hr.
    apply orb_false_iff in Hr as [Hr Hlen]. apply orb_false_iff in Hr as [Hr Hp].
    apply orb_false_iff in Hr as [H0 H62].
    assert (Hn : PhoneFormatter.normalize x = cleaned x).
    { unfold PhoneFormatter.normalize. fold (cleaned x). rewrite H0, H62, Hp.
      cbn [negb]. rewrite <- andb_assoc, Hlen. reflexivity. }
    split; [exact Hn|]. intros Ht.
    rewrite Hn, formatPhoneNumber_string, Ht, cleaned_cleaned, H0, H62, Hp.
    reflexivity.
Qed.

End NumberFormats.

(** ** Every request is answered *)

Section ProxyAnswers.
Import JsString Js Worker.
Variable E : engine.
Variable upstream : string -> string -> fetch_outcome.

Lemma json_shape data st origin resp :
  json E data st origin = Returns resp ->
  allow_origin resp = origin /\ body resp = Some data /\ status resp = st.
Proof.
  unfold json. destruct (null_body_status st); [discriminate|].
  intros [= <-]. auto.
Qed.

Lemma processValidation_try_shape r e origin resp :
  processValidation_try E upstream r e origin = Returns resp ->
  allow_origin resp = origin /\ body resp <> None.
Proof.
  unfold processValidation_try.
  assert (Hj : forall data st, json E data st origin = Returns resp ->
                                allow_origin resp = origin /\ body resp <> None).
  { intros data st H. apply json_shape in H as (-> & -> & _). split; [reflexivity | discriminate]. }
  destruct (parseRequestBody E r) as [body0|err]; [|apply Hj].
  destruct (get_number E body0) as [number|]; [|discriminate].
  unfold mbind at 1, result_bind at 1, bind at 1.
  destruct (negb (truthy number)); [apply Hj|].
  destruct (formatPhoneNumber E number) as [phoneNumber|]; [|discriminate].
  unfold mbind at 1, result_bind at 1, bind at 1.
  destruct phoneNumber; try apply Hj.
  destruct (negb (JsString.truthy s)); [apply Hj|].
  destruct (STARSENDER_DEVICE_KEY e) as [key|]; [|apply Hj].
  destruct (JsString.truthy key); [|apply Hj].
  destruct (callStarsenderAPI E (upstream s key)) as [apiResult|]; [|discriminate].
  unfold mbind, result_bind, bind. apply Hj.
Qed.

Lemma processValidation_shape r e origin :
  exists resp, processValidation E upstream r e origin = Returns resp
               /\ allow_origin resp = origin /\ body resp <> None.
Proof.
  destruct (processValidation_try E upstream r e origin) as [resp|name message] eqn:Ht.
  - exists resp. unfold processValidation. rewrite Ht. split; [reflexivity|].
    now apply (processValidation_try_shape r e origin).
  - rewrite (processValidation_caught E upstream _ _ _ _ _ Ht).
    eexists. split; [reflexivity|]. split; [reflexivity | discriminate].
Qed.

(** The proxy answers every request: [handleRequest] never rejects,
    whatever the request, the environment and the upstream do.  The
    answer carries the request's Origin (or [*]) as the allowed origin,
    and it has a JSON body unless the request is a preflight. *)
Theorem proxy_always_answers (now : Z) (r : request) (e : env) :
  exists resp,
    fst (handleRequest E upstream now r e) = Returns resp
    /\ allow_origin resp = str_or (origin_header r) "*"
    /\ (body resp = None <-> method r = "OPTIONS").
Proof.
  unfold handleRequest, handleRequest_try.
  set (origin := str_or (origin_header r) "*").
  destruct (String.eqb_spec (method r) "OPTIONS") as [Hm | Hm].
  { eexists. split; [reflexivity|]. split; [reflexivity|]. now split. }
  assert (Hbody : forall resp : response, body resp <> None ->
                    (body resp = None <-> method r = "OPTIONS")) by (intros; tauto).
  destruct (String.eqb (method r) "POST"); cbn [negb].
  2:{ eexists. split; [reflexivity|]. split; [reflexivity|]. now apply Hbody. }
  destruct (processValidation_shape r e origin) as (resp & Hp & Ho & Hb).
  destruct (existsb _ WHITELISTED_IPS).
  { rewrite Hp. exists resp. cbn [fst]. auto. }
  destruct (TEST_LIMITER e) as [k|].
  2:{ rewrite Hp. exists resp. cbn [fst]. auto. }
  destruct (checkRateLimit E now (getClientIP r) k) as [allowed k'].
  destruct allowed; cbn [negb].
  - rewrite Hp. exists resp. cbn [fst]. auto.
  - eexists. split; [reflexivity|]. split; [reflexivity|]. now apply Hbody.
Qed.

End ProxyAnswers.

(** ** Monitoring writes *)

Section Monitoring.
Import JsString Js Worker.
Variable E : engine.

Lemma checkRateLimit_same_count now clientIP (k k' : kv) :
  getCount E k' (minuteKey now clientIP) = getCount E k (minuteKey now clientIP) ->
  fst (checkRateLimit E now clientIP k') = fst (checkRateLimit E now clientIP k).
Proof.
  intros H. unfold checkRateLimit. rewrite H.
  now destruct (at_least _ _).
Qed.

(** The monitoring functions keep out of the rate limiter's way: the
    keys [logViolation] and [trackRequest] write are no rate counters, so
    the decision [checkRateLimit] takes for any client at any time is the
    same after them as before.  With a working store [logViolation]
    stores the violation record under its key, and it raises the day's
    violation count by one when that count is a safe integer (from -2^53
    to below 2^53). *)
Theorem monitoring_keeps_rate_limits (stringify : jsval -> string)
    (date clientIP reason : string) (k : kv) :
  (forall now ip,
      fst (checkRateLimit E now ip (logViolation E stringify date clientIP reason k))
      = fst (checkRateLimit E now ip k)
      /\ fst (checkRateLimit E now ip (trackRequest E date k))
         = fst (checkRateLimit E now ip k))
  /\ (kv_get_throws k = false -> kv_put_throws k = false ->
        let k' := logViolation E stringify date clientIP reason k in
        let dailyKey := "violations_count_" +:+ before_char "T" date in
        (forall c, getCount E k dailyKey = Num c -> - 2 ^ 53 <= c < 2 ^ 53 ->
           getCount E k' dailyKey = Num (c + 1))
        /\ kv_entries k' !! ("violation_" +:+ date +:+ "_" +:+ clientIP)
           = Some (stringify (JObj [("ip", JStr clientIP); ("reason", JStr reason);
                                    ("timestamp", JStr date)]), 86400)).
Proof.
  split.
  - intros now ip. split; apply checkRateLimit_same_count; unfold getCount.
    + unfold logViolation. destruct (kv_put_throws k); [reflexivity|].
      cbn [kv_put kv_get_throws kv_entries].
      rewrite !lookup_insert_ne by (unfold minuteKey; cbn; discriminate). reflexivity.
    + unfold trackRequest, incrementCounter. destruct (kv_put_throws k); [reflexivity|].
      cbn [snd kv_put kv_get_throws kv_entries].
      rewrite lookup_insert_ne by (unfold minuteKey; cbn; discriminate). reflexivity.
  - intros Hg Hp k' dailyKey. subst k'. unfold logViolation. rewrite Hp.
    fold dailyKey. split.
    + intros c Hc Hsafe. rewrite Hc.
      destruct (add_one_safe c Hsafe) as [Ha Hb]. rewrite <- Ha.
      apply (getCount_written E _ _ _ (86400 * 7)); [exact Hg | exact Hb |].
      cbn [kv_put kv_entries]. apply lookup_insert_eq.
    + cbn [kv_put kv_entries].
      rewrite lookup_insert_ne by (subst dailyKey; cbn; discriminate).
      apply lookup_insert_eq.
Qed.

End Monitoring.

(** ** The client-side rate limiter *)

Section RateLimiterFacts.
Import RateLimiter.

Lemma oldest_le first rest : oldest first rest <= first.
Proof.
  unfold oldest. revert first. induction rest as [|x rest IH]; intros first; simpl; [lia|].
  specialize (IH (Z.min first x)). lia.
Qed.

Lemma oldest_in first rest : In (oldest first rest) (first :: rest).
Proof.
  unfold oldest. revert first. induction rest as [|x rest IH]; intros first; simpl; [auto|].
  destruct (IH (Z.min first x)) as [H | H]; [|auto].
  destruct (Z.min_spec first x) as [[_ Hm] | [_ Hm]]; [left | right; left]; congruence.
Qed.

Lemma filter_drops_one {A} (p : A -> bool) (l : list A) (x : A) :
  In x l -> p x = false -> (length (List.filter p l) < length l)%nat.
Proof.
  induction l as [|y l IH]; simpl; [tauto|].
  intros [-> | Hin] Hp.
  - rewrite Hp. pose proof (List.filter_length_le p l). lia.
  - specialize (IH Hin Hp). destruct (p y); simpl; lia.
Qed.

(** The wait [getRemainingTime] announces is enough.  When
    [canMakeRequest] refuses at [now] and the limiter holds no more than
    [maxRequests] stamps of the current window, [getRemainingTime] is
    positive, and [canMakeRequest] accepts once that time has passed. *)
Theorem remaining_time_suffices (now : Z) (r : t) :
  0 < maxRequests r ->
  fst (canMakeRequest now r) = false ->
  Z.of_nat (length (requests (snd (canMakeRequest now r)))) <= maxRequests r ->
  let r1 := snd (canMakeRequest now r) in
  0 < getRemainingTime now r1
  /\ fst (canMakeRequest (now + getRemainingTime now r1) r1) = true.
Proof.
  intros Hmax Hrefused Hfull r1. subst r1.
  unfold canMakeRequest in *. cbn [fst snd] in *.
  set (r1 := cleanup now r) in *.
  apply Z.ltb_ge in Hrefused.
  assert (Hm : maxRequests r1 = maxRequests r) by reflexivity.
  assert (Hw : timeWindow r1 = timeWindow r) by reflexivity.
  rewrite Hm in Hrefused.
  destruct (requests r1) as [|first rest] eqn:Hreq; [simpl in Hrefused; lia|].
  pose proof (oldest_in first rest) as Hin. rewrite <- Hreq in Hin.
  assert (Hfresh : now - oldest first rest < timeWindow r).
  { unfold r1, cleanup in Hin. cbn [requests] in Hin.
    apply filter_In in Hin as [_ H]. now apply Z.ltb_lt in H. }
  unfold getRemainingTime. rewrite Hreq, Hw.
  replace (Z.max 0 (timeWindow r - (now - oldest first rest)))
    with (timeWindow r - (now - oldest first rest)) by lia.
  split; [lia|].
  apply Z.ltb_lt. unfold cleanup at 1 2. cbn [requests maxRequests timeWindow].
  rewrite Hm, Hw.
  pose proof (filter_drops_one
                (fun time => now + (timeWindow r - (now - oldest first rest)) - time
                             <? timeWindow r)
                (requests r1) (oldest first rest) Hin) as Hdrop.
  rewrite Hreq in Hdrop. try rewrite Hreq in Hfull. try rewrite Hreq.
  assert (Hlt : (now + (timeWindow r - (now - oldest first rest)) - oldest first rest
                 <? timeWindow r) = false) by (apply Z.ltb_ge; lia).
  specialize (Hdrop Hlt). lia.
Qed.

Lemma remaining_time_suffices_witness :
  0 < getRemainingTime 50000 (snd (canMakeRequest 50000 (mk 2 60000 [1000; 30000])))
  /\ fst (canMakeRequest
            (50000 + getRemainingTime 50000
                       (snd (canMakeRequest 50000 (mk 2 60000 [1000; 30000]))))
            (snd (canMakeRequest 50000 (mk 2 60000 [1000; 30000])))) = true.
Proof.
  apply (remaining_time_suffices 50000 (mk 2 60000 [1000; 30000]));
    [reflexivity | reflexivity | discriminate].
Defined.

End RateLimiterFacts.

(** ** More invariants of the queue manager *)

Section QueueWork.
Import Queue.
Context {Job : Type} `{EqDecision Job}.

Local Abbreviation t := (Queue.t Job).

(** No entry waits while a slot is free. *)
Definition work_conserving (st : t) : Prop :=
  queue st = [] \/ MAX_CONCURRENT <= activeCount st.

Lemma process_work_conserving (q : list (item Job)) (i : item Job) (a : Z) (r : list Job) :
  q = [] \/ MAX_CONCURRENT <= a ->
  work_conserving (process (mk (q ++ [i]) a r)).
Proof.
  intros Hw. unfold process, next. cbn [activeCount queue running].
  destruct (MAX_CONCURRENT <=? a) eqn:Ha; cbn [orb].
  - right. now apply Z.leb_le in Ha.
  - apply Z.leb_gt in Ha. destruct Hw as [-> | Hw]; [|lia].
    cbn. now left.
Qed.

Lemma cancel_work_conserving v (st : t) : work_conserving st -> work_conserving (cancel v st).
Proof.
  unfold work_conserving, cancel. intros [Hq | Ha];
    destruct (String.eqb v "all"); cbn [queue activeCount]; auto.
  rewrite Hq. now left.
Qed.

Lemma reachable_work_conserving (st : t) : reachable st -> work_conserving st.
Proof.
  induction 1 as [|e st Hr IH He]; [now left|].
  destruct e as [v j | v | j]; cbn [step].
  - unfold add. pose proof (cancel_work_conserving v st IH) as Hc.
    destruct (_ <? MAX_SIZE); [|exact Hc].
    now apply process_work_conserving.
  - now apply cancel_work_conserving.
  - unfold done, release, process, next. cbn [activeCount queue running].
    destruct (MAX_CONCURRENT <=? activeCount st - 1) eqn:Ha; cbn [orb].
    { right. cbn [activeCount]. now apply Z.leb_le in Ha. }
    destruct (queue st) as [|i q] eqn:Hq; [now left|].
    destruct IH as [IH | IH]; [congruence|].
    change (Z.of_nat (length (i :: q)) =? 0) with false. cbv iota.
    destruct (pop_nonempty (i :: q)) as (rest & last & Hl); [discriminate|].
    rewrite Hl, pop_snoc. right. cbn [activeCount]. lia.
Qed.

(** In every reachable state of a queue manager an entry waits only
    while MAX_CONCURRENT (2) jobs are running, and no two waiting entries
    are for the same value. *)
Theorem queue_work_conserving (st : t) :
  reachable st ->
  (queue st <> [] -> activeCount st = MAX_CONCURRENT)
  /\ NoDup (map value (queue st)).
Proof.
  intros Hr. pose proof (reachable_invariant st Hr) as [_ Hc _ Hn].
  split; [|exact Hn].
  intros Hq. destruct (reachable_work_conserving st Hr) as [H | H]; [contradiction | lia].
Qed.

End QueueWork.

Section QueueWorkExample.
Import Queue.

Definition four_adds : Queue.t nat :=
  step (Add "d" 4%nat)
    (step (Add "c" 3%nat) (step (Add "b" 2%nat) (step (Add "a" 1%nat) empty))).

Lemma four_adds_reachable : reachable four_adds.
Proof. unfold four_adds. repeat (apply reachable_step; [|exact I]). apply reachable_empty. Qed.

Lemma queue_work_conserving_witness :
  (queue four_adds <> [] -> activeCount four_adds = MAX_CONCURRENT)
  /\ NoDup (map value (queue four_adds)).
Proof. exact (queue_work_conserving four_adds four_adds_reachable). Defined.

End QueueWorkExample.

(** ** More facts about the result caches *)

Section CacheEdges.
Import JsString Storage Cache.
Context {R : Type}.
Variable C : config.
Variable test_key : string.

Lemma lookup_replace_other k k' (v : stored R) l :
  k' <> k -> lookup_item k' (replace_item k v l) = lookup_item k' l.
Proof.
  intros Hne. induction l as [|[k0 v0] r IH]; simpl.
  - destruct (String.eqb_spec k' k); [contradiction | reflexivity].
  - destruct (String.eqb_spec k k0) as [<- | Hk0]; simpl.
    + destruct (String.eqb_spec k' k); [contradiction | reflexivity].
    + destruct (String.eqb k' k0); [reflexivity | exact IH].
Qed.

Lemma lookup_remove_other k k' (l : list (string * stored R)) :
  k' <> k -> lookup_item k' (remove_item k l) = lookup_item k' l.
Proof.
  intros Hne. unfold remove_item. induction l as [|[k0 v0] r IH]; simpl; [reflexivity|].
  destruct (String.eqb_spec k k0) as [<- | Hk0]; simpl.
  - destruct (String.eqb_spec k' k); [contradiction | exact IH].
  - destruct (String.eqb k' k0); [reflexivity | exact IH].
Qed.

Lemma getItem_removeItem_other k k' (s : Storage.t R) :
  k' <> k -> getItem k' (removeItem k s) = getItem k' s.
Proof. apply lookup_remove_other. Qed.



(** A cache whose availability probe has failed is inert, and stays so:
    [get] answers null, and [set], [cleanup] and the idle callback leave
    the storage as it is, whatever the storage has become since. *)
Theorem cache_disabled_inert (m : manager) (s : Storage.t R) (now now1 now2 : Z)
    (key : string) (result : R) (isSuccess : bool) :
  available m = Some false \/ (available m = None /\ writable s = false) ->
  let m' := mkManager (Some false) (cleanupScheduled m) in
  get C test_key now key m s = (Null, m', s)
  /\ email_set C test_key now1 now2 key result isSuccess m s = (m', s)
  /\ wa_set C test_key now1 now2 now key result isSuccess m s = (m', s, false)
  /\ cleanup C test_key now m s = (m', s)
  /\ available m' = Some false.
Proof.
  intros H m'.
  assert (Ha : isAvailable test_key m s = (false, m', s)).
  { unfold isAvailable, setItem. destruct H as [H | [H Hw]]; rewrite H.
    - subst m'. destruct m as [a c]. cbn in *. now subst a.
    - now rewrite Hw. }
  unfold get, email_set, wa_set, cleanup. rewrite Ha. cbn. auto.
Qed.

End CacheEdges.

(** A storage that refuses every write (private browsing, quota). *)
Definition blocked_storage : Storage.t bool := Storage.mk [] false.

Section CacheEdgeExamples.
Import Storage Cache.

Lemma cache_disabled_inert_witness :
  get email_config "__email_test__" 5 "a@x.io" new_manager blocked_storage
  = (@Null bool, mkManager (Some false) (cleanupScheduled new_manager), blocked_storage)
  /\ email_set email_config "__email_test__" 1 2 "a@x.io" true true new_manager
       blocked_storage
     = (mkManager (Some false) (cleanupScheduled new_manager), blocked_storage)
  /\ wa_set email_config "__email_test__" 1 2 5 "a@x.io" true true new_manager
       blocked_storage
     = (mkManager (Some false) (cleanupScheduled new_manager), blocked_storage, false)
  /\ cleanup email_config "__email_test__" 5 new_manager blocked_storage
     = (mkManager (Some false) (cleanupScheduled new_manager), blocked_storage)
  /\ available (mkManager (Some false) (cleanupScheduled new_manager)) = Some false.
Proof.
  apply (@cache_disabled_inert bool email_config "__email_test__" new_manager
           blocked_storage 5 1 2 "a@x.io" true true).
  right. split; reflexivity.
Defined.

End CacheEdgeExamples.

Section CacheIndependence.
Import JsString Storage Cache.
Context {R : Type}.
Variable C : config.
Variable test_key : string.




End CacheIndependence.

Section CacheIndependenceExample.
Import Storage Cache.


End CacheIndependenceExample.

(** ** What [cleanup] leaves behind *)

Section CacheCleanup.
Import JsString Storage Cache.
Context {R : Type}.
Variable C : config.
Variable test_key : string.

(** An entry [JSON.parse] reads and that has not expired at [now]. *)
Definition live (now : Z) (v : stored R) : Prop :=
  match v with
  | Unparsable => False
  | Parsed _ expiry _ => match expiry with Some e => now <= e | None => True end
  end.

Lemma getItem_removeItem_cases k k' (s : Storage.t R) :
  getItem k' (removeItem k s) = if String.eqb k' k then None else getItem k' s.
Proof.
  destruct (String.eqb_spec k' k) as [-> | Hne].
  - apply getItem_removeItem.
  - now apply getItem_removeItem_other.
Qed.

Lemma getItem_keys k (s : Storage.t R) v : getItem k s = Some v -> In k (keys s).
Proof.
  unfold getItem, keys. induction (items s) as [|[k0 v0] r IH]; simpl; [discriminate|].
  destruct (String.eqb_spec k k0) as [-> | _]; [now left | right; auto].
Qed.

Lemma keys_removeItem_in k k' (s : Storage.t R) :
  In k' (keys (removeItem k s)) <-> In k' (keys s) /\ k' <> k.
Proof.
  rewrite keys_removeItem, filter_In.
  destruct (String.eqb_spec k k') as [-> | Hne]; cbn; intuition congruence.
Qed.

(** A step that removes the item under the key of [x] or does nothing. *)
Definition removal {A} (key : A -> string) (f : Storage.t R -> A -> Storage.t R) : Prop :=
  forall s x, f s x = s \/ f s x = removeItem (key x) s.

Lemma remove_if_expired_removal now : removal (fun k => k) (remove_if_expired now).
Proof.
  intros s k. unfold remove_if_expired.
  destruct (getItem k s) as [[|r e ts]|]; auto.
  destruct (match e with Some e0 => e0 <? now | None => false end); auto.
Qed.

Lemma foldl_removal {A} (key : A -> string) f (l : list A) (s : Storage.t R) :
  removal key f ->
  (forall k, getItem k (foldl f s l) = getItem k s
             \/ (getItem k (foldl f s l) = None /\ In k (map key l)))
  /\ (forall k, In k (keys (foldl f s l)) -> In k (keys s))
  /\ (NoDup (keys s) -> NoDup (keys (foldl f s l))).
Proof.
  intros Hf. revert s. induction l as [|x r IH]; intros s; cbn [foldl map].
  - repeat split; auto.
  - destruct (IH (f s x)) as (Hg & Hk & Hn).
    destruct (Hf s x) as [Hs | Hs]; rewrite Hs in *.
    + repeat split; auto. intros k. destruct (Hg k) as [H | [H Hin]]; auto.
      right. split; [exact H | now right].
    + repeat split.
      * intros k. destruct (Hg k) as [H | [H Hin]].
        -- rewrite H, getItem_removeItem_cases.
           destruct (String.eqb_spec k (key x)) as [-> | _]; [|now left].
           right. split; [reflexivity | now left].
        -- right. split; [exact H | now right].
      * intros k Hin. apply Hk in Hin. now apply keys_removeItem_in in Hin.
      * intros Hnd. apply Hn. rewrite keys_removeItem. now apply NoDup_filter_bool.
Qed.

Lemma foldl_removeItem_gone {A} (key : A -> string) (l : list A) (s : Storage.t R) k :
  In k (map key l) -> ~ In k (keys (foldl (fun s x => removeItem (key x) s) s l)).
Proof.
  revert s. induction l as [|x r IH]; intros s; cbn [foldl map]; [intros []|].
  intros [<- | Hin]; [|now apply IH].
  intros Hk.
  assert (Hr : removal key (fun s x => removeItem (key x) s)) by (intros ? ?; now right).
  destruct (foldl_removal key _ r (removeItem (key x) s) Hr) as (_ & Hkeys & _).
  apply Hkeys in Hk. apply keys_removeItem_in in Hk. tauto.
Qed.

Lemma foldl_expired_live now (l : list string) (s : Storage.t R) k v :
  In k l -> getItem k (foldl (remove_if_expired now) s l) = Some v -> live now v.
Proof.
  revert s. induction l as [|x r IH]; intros s; cbn [foldl]; [intros []|].
  intros [-> | Hin] Hg; [|exact (IH _ Hin Hg)].
  destruct (foldl_removal (fun k => k) _ r (remove_if_expired now s k)
              (remove_if_expired_removal now)) as (Hsame & _ & _).
  destruct (Hsame k) as [H | [H _]]; [|congruence].
  rewrite Hg in H. symmetry in H. unfold remove_if_expired in H.
  destruct (getItem k s) as [[|res e ts]|] eqn:Hs.
  - rewrite getItem_removeItem in H. discriminate.
  - destruct e as [e|].
    + destruct (e <? now) eqn:He.
      * rewrite getItem_removeItem in H. discriminate.
      * rewrite Hs in H. injection H as <-. cbn. now apply Z.ltb_ge in He.
    + rewrite Hs in H. injection H as <-. exact I.
  - rewrite getItem_removeItem in H. discriminate.
Qed.

(** [cleanup] of an available cache only removes items, and only items
    under the cache key prefix: every other item of the storage keeps
    its value.  Under the prefix it leaves no item that has expired or
    that [JSON.parse] cannot read, and, when the keys of the storage are
    distinct, at most MAX_SIZE items. *)
Theorem cleanup_postcondition (now : Z) (m : manager) (s : Storage.t R) :
  available m = Some true ->
  let s' := snd (cleanup C test_key now m s) in
  (forall k v, getItem k s' = Some v -> getItem k s = Some v)
  /\ (forall k, startsWith k (KEY_PREFIX C) = false -> getItem k s' = getItem k s)
  /\ (forall k v, startsWith k (KEY_PREFIX C) = true -> getItem k s' = Some v -> live now v)
  /\ (NoDup (keys s) -> 0 <= MAX_SIZE C ->
        Z.of_nat (length (cache_keys C s')) <= MAX_SIZE C).
Proof.
  intros Ha s'. subst s'. unfold cleanup, isAvailable. rewrite Ha. cbn [negb].
  fold (cache_keys C s). set (ks := cache_keys C s).
  set (s1 := foldl (remove_if_expired now) s ks).
  destruct (foldl_removal (fun k => k) _ ks s (remove_if_expired_removal now))
    as (H1g & H1k & H1n). fold s1 in H1g, H1k, H1n. rewrite map_id in H1g.
  set (sorted := sort_by_timestamp (map (fun k => (k, timestamp_of s1 k)) ks)).
  set (toRemove := take (length sorted - Z.to_nat (MAX_SIZE C)) sorted).
  assert (Hr : removal (fun item : string * Z => fst item)
                 (fun s item => removeItem (fst item) s)) by (intros ? ?; now right).
  destruct (foldl_removal _ _ toRemove s1 Hr) as (H2g & H2k & H2n).
  set (s2 := foldl (fun s item => removeItem (fst item) s) s1 toRemove) in *.
  assert (Hin_ks : forall k, In k ks <-> In k (keys s) /\ startsWith k (KEY_PREFIX C) = true).
  { intros k. unfold ks, cache_keys. rewrite filter_In. reflexivity. }
  assert (Hrem : forall k, In k (map fst toRemove) -> In k ks).
  { intros k Hk. apply in_map_iff in Hk as ([k0 ts] & <- & Hk).
    assert (Hs : In (k0, ts) sorted).
    { rewrite <- (take_drop (length sorted - Z.to_nat (MAX_SIZE C)) sorted).
      apply in_or_app. now left. }
    apply list_elem_of_In in Hs. unfold sorted in Hs.
    rewrite (sort_by_timestamp_perm _) in Hs. apply list_elem_of_In in Hs.
    apply in_map_iff in Hs as (k1 & [= <- _] & Hk1). exact Hk1. }
  assert (Hfinal : forall s'' : Storage.t R,
            s'' = s1 \/ s'' = s2 ->
            (forall k v, getItem k s'' = Some v -> getItem k s = Some v)
            /\ (forall k, startsWith k (KEY_PREFIX C) = false -> getItem k s'' = getItem k s)
            /\ (forall k v, startsWith k (KEY_PREFIX C) = true ->
                  getItem k s'' = Some v -> live now v)).
  { assert (Hs1 : (forall k v, getItem k s1 = Some v -> getItem k s = Some v)
                  /\ (forall k, startsWith k (KEY_PREFIX C) = false ->
                        getItem k s1 = getItem k s)
                  /\ (forall k v, startsWith k (KEY_PREFIX C) = true ->
                        getItem k s1 = Some v -> live now v)).
    { repeat split.
      - intros k v Hg. destruct (H1g k) as [H | [H _]]; congruence.
      - intros k Hp. destruct (H1g k) as [H | [_ H]]; [exact H|].
        apply Hin_ks in H. destruct H as [_ H]. congruence.
      - intros k v Hp Hg. apply (foldl_expired_live now ks s k v); [|exact Hg].
        apply Hin_ks. split; [|exact Hp].
        destruct (H1g k) as [H | [H _]]; [|fold s1 in Hg; congruence].
        fold s1 in Hg. rewrite H in Hg. now apply getItem_keys in Hg. }
    destruct Hs1 as (Ha1 & Hb1 & Hc1).
    intros s'' [-> | ->]; [auto|]. repeat split.
    - intros k v Hg. apply Ha1. destruct (H2g k) as [H | [H _]]; congruence.
    - intros k Hp. rewrite <- (Hb1 k Hp). destruct (H2g k) as [H | [_ H]]; [exact H|].
      apply Hrem, Hin_ks in H. destruct H as [_ H]. congruence.
    - intros k v Hp Hg. apply (Hc1 k v Hp).
      destruct (H2g k) as [H | [H _]]; congruence. }
  destruct (MAX_SIZE C <? Z.of_nat (length ks)) eqn:Hover; cbn [snd].
  - destruct (Hfinal s2 (or_intror eq_refl)) as (Ha2 & Hb2 & Hc2).
    split; [exact Ha2|]. split; [exact Hb2|]. split; [exact Hc2|].
    intros Hnd Hmax. apply Z.ltb_lt in Hover.
    assert (Hlen : length sorted = length ks).
    { unfold sorted. rewrite (Permutation_length (sort_by_timestamp_perm _)).
      apply length_map. }
    set (d := (length sorted - Z.to_nat (MAX_SIZE C))%nat) in *.
    assert (Hincl : forall k, k ∈ cache_keys C s2 -> k ∈ map fst (drop d sorted)).
    { intros k Hk. apply list_elem_of_In in Hk. apply list_elem_of_In.
      unfold cache_keys in Hk. apply filter_In in Hk as [Hk Hp].
      assert (Hks : In k ks).
      { apply Hin_ks. split; [|exact Hp]. apply H1k, H2k. exact Hk. }
      assert (Hs : In (k, timestamp_of s1 k) sorted).
      { apply list_elem_of_In. unfold sorted. rewrite (sort_by_timestamp_perm _).
        apply list_elem_of_In, in_map_iff. now exists k. }
      rewrite <- (take_drop d sorted) in Hs. apply in_app_or in Hs as [Hs | Hs].
      - exfalso. apply (foldl_removeItem_gone fst toRemove s1 k); [|exact Hk].
        apply in_map_iff. now exists (k, timestamp_of s1 k).
      - apply in_map_iff. now exists (k, timestamp_of s1 k). }
    assert (Hnd2 : NoDup (cache_keys C s2)).
    { unfold cache_keys. apply NoDup_filter_bool. auto. }
    pose proof (submseteq_length _ _ (NoDup_submseteq _ _ Hnd2 Hincl)) as Hle.
    rewrite length_map, length_drop in Hle. lia.
  - destruct (Hfinal s1 (or_introl eq_refl)) as (Ha2 & Hb2 & Hc2).
    split; [exact Ha2|]. split; [exact Hb2|]. split; [exact Hc2|].
    intros Hnd Hmax. apply Z.ltb_ge in Hover.
    assert (Hincl : forall k, k ∈ cache_keys C s1 -> k ∈ ks).
    { intros k Hk. apply list_elem_of_In in Hk. apply list_elem_of_In.
      unfold cache_keys in Hk. apply filter_In in Hk as [Hk Hp].
      apply Hin_ks. split; [|exact Hp]. now apply H1k. }
    assert (Hnd1 : NoDup (cache_keys C s1)).
    { unfold cache_keys. apply NoDup_filter_bool. auto. }
    pose proof (submseteq_length _ _ (NoDup_submseteq _ _ Hnd1 Hincl)) as Hle. lia.
Qed.

(** Whatever the manager knows of the storage, [cleanup] writes
    nothing: every item the storage holds afterwards it held before, with
    the same value (the probe of [isAvailable] removes the item under
    the probe key). *)
Lemma cleanup_only_removes (now : Z) (m : manager) (s : Storage.t R) :
  (forall k v, getItem k (snd (cleanup C test_key now m s)) = Some v ->
               getItem k s = Some v)
  /\ cleanupScheduled (fst (cleanup C test_key now m s)) = cleanupScheduled m.
Proof.
  assert (Hknown : forall (m0 : manager) (s0 : Storage.t R), available m0 = Some true ->
            (forall k v, getItem k (snd (cleanup C test_key now m0 s0)) = Some v ->
                         getItem k s0 = Some v)
            /\ fst (cleanup C test_key now m0 s0) = m0).
  { intros m0 s0 Ha. unfold cleanup, isAvailable. rewrite Ha. cbn [negb].
    fold (cache_keys C s0). set (ks := cache_keys C s0).
    destruct (foldl_removal (fun k => k) _ ks s0 (remove_if_expired_removal now))
      as (H1g & _ & _).
    set (s1 := foldl (remove_if_expired now) s0 ks) in *.
    assert (Hr : removal (fun item : string * Z => fst item)
                   (fun s item => removeItem (fst item) s)) by (intros ? ?; now right).
    assert (H1 : forall k v, getItem k s1 = Some v -> getItem k s0 = Some v).
    { intros k v Hg. destruct (H1g k) as [H | [H _]]; congruence. }
    destruct (MAX_SIZE C <? _); cbn [fst snd]; (split; [|reflexivity]); [|exact H1].
    intros k v Hg. apply H1.
    match type of Hg with getItem k (foldl ?f s1 ?l) = _ =>
      destruct (foldl_removal _ _ l s1 Hr) as (H2g & _ & _) end.
    destruct (H2g k) as [H | [H _]]; congruence. }
  destruct (available m) as [[]|] eqn:Ha.
  - destruct (Hknown m s Ha) as [H1 H2]. split; [exact H1 | now rewrite H2].
  - unfold cleanup, isAvailable. rewrite Ha. cbn. auto.
  - destruct (writable s) eqn:Hw.
    + set (m' := mkManager (Some true) (cleanupScheduled m)).
      set (s1 := removeItem test_key (Storage.mk (replace_item test_key Unparsable (items s))
                                        (writable s))).
      assert (Heq : cleanup C test_key now m s = cleanup C test_key now m' s1).
      { unfold s1, m', cleanup, isAvailable, setItem. rewrite Ha. cbn [available].
        rewrite Hw. reflexivity. }
      rewrite Heq. destruct (Hknown m' s1 eq_refl) as [H1 H2].
      split; [|now rewrite H2].
      intros k v Hg. apply H1 in Hg. unfold s1 in Hg.
      rewrite getItem_removeItem_cases in Hg.
      destruct (String.eqb_spec k test_key) as [-> | Hne]; [discriminate|].
      rewrite <- Hg. symmetry. unfold getItem. cbn [items].
      now apply lookup_replace_other.
    + unfold cleanup, isAvailable, setItem. rewrite Ha, Hw. cbn. auto.
Qed.

End CacheCleanup.

Section CacheCleanupExample.
Import Storage Cache.

(** A storage with a foreign item, an expired entry, an unreadable entry
    and a live entry. *)
Definition mixed_storage : Storage.t bool :=
  Storage.mk [("theme", Unparsable);
              ("wa_v_0811", Parsed (Some true) (Some 10) (Some 1));
              ("wa_v_0812", Unparsable);
              ("wa_v_0813", Parsed (Some false) (Some 900) (Some 2))] true.

Lemma cleanup_postcondition_witness :
  (forall k v, getItem k (snd (cleanup (wa_config None None) "__wa_test__" 500
                                 (mkManager (Some true) false) mixed_storage)) = Some v ->
               getItem k mixed_storage = Some v)
  /\ (forall k, JsString.startsWith k (KEY_PREFIX (wa_config None None)) = false ->
        getItem k (snd (cleanup (wa_config None None) "__wa_test__" 500
                          (mkManager (Some true) false) mixed_storage))
        = getItem k mixed_storage)
  /\ (forall k v, JsString.startsWith k (KEY_PREFIX (wa_config None None)) = true ->
        getItem k (snd (cleanup (wa_config None None) "__wa_test__" 500
                          (mkManager (Some true) false) mixed_storage)) = Some v ->
        live 500 v)
  /\ (NoDup (keys mixed_storage) -> 0 <= MAX_SIZE (wa_config None None) ->
        Z.of_nat (length (cache_keys (wa_config None None)
                            (snd (cleanup (wa_config None None) "__wa_test__" 500
                                    (mkManager (Some true) false) mixed_storage))))
        <= MAX_SIZE (wa_config None None)).
Proof.
  apply (@cleanup_postcondition bool (wa_config None None) "__wa_test__" 500
           (mkManager (Some true) false) mixed_storage).
  reflexivity.
Defined.

End CacheCleanupExample.

(** ** The display format of the phone field *)

Section DisplayFormat.
Import JsString PhoneFormatter.

Lemma filter_chars_app p a b :
  filter_chars p (a +:+ b) = filter_chars p a +:+ filter_chars p b.
Proof.
  induction a as [|c a IH]; [reflexivity|].
  change (String c a +:+ b) with (String c (a +:+ b)).
  rewrite !filter_chars_cons, IH. now destruct (p c).
Qed.

Lemma append_empty_r (a : string) : a +:+ EmptyString = a.
Proof.
  induction a as [|c a IH]; [reflexivity|].
  change (String c (a +:+ EmptyString) = String c a). now rewrite IH.
Qed.

Lemma append_assoc (a b c : string) : (a +:+ b) +:+ c = a +:+ (b +:+ c).
Proof.
  induction a as [|x a IH]; [reflexivity|].
  change (String x ((a +:+ b) +:+ c) = String x (a +:+ (b +:+ c))). now rewrite IH.
Qed.

(** The parts one after the other. *)
Definition concat_parts (parts : list string) : string :=
  fold_right String.append EmptyString parts.

Lemma concat_parts_truthy parts : concat_parts (List.filter truthy parts) = concat_parts parts.
Proof.
  induction parts as [|p r IH]; [reflexivity|]. cbn [List.filter].
  destruct p as [|c p]; cbn [truthy]; [exact IH|]. cbn [concat_parts fold_right].
  fold (concat_parts (List.filter truthy r)). fold (concat_parts r). now rewrite IH.
Qed.

Lemma digits_fold_left rest acc :
  Forall (fun q => all_chars is_digit q = true) rest ->
  filter_chars is_digit (fold_left (fun acc q => acc +:+ " " +:+ q) rest acc)
  = filter_chars is_digit acc +:+ concat_parts rest.
Proof.
  intros H. revert acc. induction H as [|q rest Hq _ IH]; intros acc; cbn [fold_left].
  - cbn [concat_parts fold_right]. now rewrite append_empty_r.
  - rewrite IH, !filter_chars_app. cbn [concat_parts fold_right].
    fold (concat_parts rest).
    change (filter_chars is_digit " ") with EmptyString.
    rewrite (filter_chars_all _ _ Hq).
    change (EmptyString +:+ q) with q. now rewrite append_assoc.
Qed.

Lemma digits_join_parts parts :
  Forall (fun q => all_chars is_digit q = true) parts ->
  filter_chars is_digit (join_parts parts) = concat_parts parts.
Proof.
  intros H. unfold join_parts. rewrite <- (concat_parts_truthy parts).
  assert (Hf : Forall (fun q => all_chars is_digit q = true) (List.filter truthy parts)).
  { apply Forall_forall. intros q [Hq _]%list_elem_of_In%filter_In.
    rewrite Forall_forall in H. apply H. now apply list_elem_of_In. }
  destruct (List.filter truthy parts) as [|p rest]; [reflexivity|].
  inversion Hf as [|? ? Hp Hrest]; subst.
  rewrite (digits_fold_left rest p Hrest), (filter_chars_all _ _ Hp). reflexivity.
Qed.

Lemma all_chars_prefix_of p n s : all_chars p s = true -> all_chars p (prefix_of n s) = true.
Proof.
  revert s. induction n as [|n IH]; intros [|c r]; cbn; auto.
  intros [Hc Hr]%andb_prop. rewrite Hc. cbn. auto.
Qed.

Lemma all_chars_substring p a b s :
  all_chars p s = true -> all_chars p (substring a b s) = true.
Proof. intros H. unfold substring. now apply all_chars_prefix_of, all_chars_slice_from. Qed.

Lemma prefix_of_split (a n : nat) (s : string) :
  prefix_of a s +:+ prefix_of n (slice_from a s) = prefix_of (a + n) s.
Proof.
  revert s. induction a as [|a IH]; intros s.
  - destruct s; reflexivity.
  - destruct s as [|c r]; [destruct n; reflexivity|].
    change (String c (prefix_of a r +:+ prefix_of n (slice_from a r))
            = String c (prefix_of (a + n) r)). now rewrite IH.
Qed.

Lemma substring_from_0 b s : substring 0 b s = prefix_of b s.
Proof. unfold substring. rewrite Nat.sub_0_r. now destruct s. Qed.

Lemma prefix_then_substring (a b : nat) (s : string) :
  (a <= b)%nat -> prefix_of a s +:+ substring a b s = prefix_of b s.
Proof.
  intros H. unfold substring. rewrite prefix_of_split. f_equal. lia.
Qed.

Definition digit_or_space (c : ascii) : bool := is_digit c || Ascii.eqb c " ".

Lemma all_chars_app p a b :
  all_chars p (a +:+ b) = all_chars p a && all_chars p b.
Proof.
  induction a as [|c a IH]; [reflexivity|].
  change (p c && all_chars p (a +:+ b) = p c && all_chars p a && all_chars p b).
  now rewrite IH, andb_assoc.
Qed.

Lemma all_chars_weaken (p q : ascii -> bool) s :
  (forall c, p c = true -> q c = true) -> all_chars p s = true -> all_chars q s = true.
Proof.
  intros Hpq. induction s as [|c r IH]; [reflexivity|]. cbn [all_chars].
  intros [Hc Hr]%andb_prop. now rewrite (Hpq c Hc), IH.
Qed.

Lemma spaced_fold_left rest acc :
  Forall (fun q => all_chars is_digit q = true) rest ->
  all_chars digit_or_space acc = true ->
  all_chars digit_or_space (fold_left (fun acc q => acc +:+ " " +:+ q) rest acc) = true.
Proof.
  intros H. revert acc. induction H as [|q rest Hq _ IH]; intros acc Hacc; cbn [fold_left].
  - exact Hacc.
  - apply IH. rewrite !all_chars_app, Hacc.
    rewrite (all_chars_weaken is_digit digit_or_space q); [reflexivity| |exact Hq].
    intros c Hc. unfold digit_or_space. now rewrite Hc.
Qed.

Lemma spaced_join_parts parts :
  Forall (fun q => all_chars is_digit q = true) parts ->
  all_chars digit_or_space (join_parts parts) = true.
Proof.
  intros H. unfold join_parts.
  assert (Hf : Forall (fun q => all_chars is_digit q = true) (List.filter truthy parts)).
  { apply Forall_forall. intros q [Hq _]%list_elem_of_In%filter_In.
    rewrite Forall_forall in H. apply H. now apply list_elem_of_In. }
  destruct (List.filter truthy parts) as [|p rest]; [reflexivity|].
  inversion Hf as [|? ? Hp Hrest]; subst.
  apply spaced_fold_left; [exact Hrest|].
  apply (all_chars_weaken is_digit); [|exact Hp].
  intros c Hc. unfold digit_or_space. now rewrite Hc.
Qed.

(** The display format is lossless on the digits it shows.  [format]
    keeps the digits of the field in their order, puts nothing but
    single spaces between them, and shows at most 13 digits of a number
    that starts with 62 and at most 12 of one that starts with 0; any
    other text is shown as its digits. *)
Theorem format_keeps_digits (value : string) :
  let digits := filter_chars is_digit value in
  filter_chars is_digit (format value)
  = (if startsWith digits "62" then prefix_of 13 digits
     else if startsWith digits "0" then prefix_of 12 digits
     else digits)
  /\ all_chars digit_or_space (format value) = true.
Proof.
  intros digits. unfold format. fold digits.
  assert (Hd : all_chars is_digit digits = true) by apply all_chars_filter.
  split.
  2:{ destruct (startsWith digits "62");
        [apply spaced_join_parts; repeat constructor; now apply all_chars_substring|].
      destruct (startsWith digits "0");
        [apply spaced_join_parts; repeat constructor; now apply all_chars_substring|].
      apply (all_chars_weaken is_digit); [|exact Hd].
      intros c Hc. unfold digit_or_space. now rewrite Hc. }
  destruct (startsWith digits "62").
  - rewrite digits_join_parts by (repeat constructor; now apply all_chars_substring).
    cbn [concat_parts fold_right]. rewrite append_empty_r, substring_from_0.
    rewrite <- (prefix_then_substring 9 13), <- (prefix_then_substring 5 9),
      <- (prefix_then_substring 2 5) by lia.
    now rewrite !append_assoc.
  - destruct (startsWith digits "0").
    + rewrite digits_join_parts by (repeat constructor; now apply all_chars_substring).
      cbn [concat_parts fold_right]. rewrite append_empty_r, substring_from_0.
      rewrite <- (prefix_then_substring 8 12), <- (prefix_then_substring 4 8) by lia.
      now rewrite !append_assoc.
    + now apply filter_chars_all.
Qed.

End DisplayFormat.

Section FormatterRoundTrip.
Import JsString WhatsApp.

(** Blur and focus are a round trip: when the field is not shown
    formatted, formatting it on blur and restoring it on the next focus
    (or on submit) gives back the very text it held, and the field is
    again not formatted. *)
Theorem blur_focus_round_trip (st : state) :
  isFormatted st = false ->
  input_value (formatter_restore (formatter_blur st)) = input_value st
  /\ isFormatted (formatter_restore (formatter_blur st)) = false
  /\ (JsString.truthy (input_value st) = true ->
        input_value (formatter_blur st) = PhoneFormatter.format (input_value st)
        /\ actualValue (formatter_blur st) = input_value st).
Proof.
  intros Hf. unfold formatter_blur, formatter_restore.
  destruct (JsString.truthy (input_value st)); cbn [negb].
  - cbn. auto.
  - rewrite Hf. repeat split; auto; discriminate.
Qed.

Lemma blur_focus_round_trip_witness :
  input_value (formatter_restore
                 (formatter_blur (initial default_config "081234567890" false
                                    (Storage.mk [] true))))
  = input_value (initial default_config "081234567890" false (Storage.mk [] true))
  /\ isFormatted (formatter_restore
                    (formatter_blur (initial default_config "081234567890" false
                                       (Storage.mk [] true)))) = false
  /\ (JsString.truthy (input_value (initial default_config "081234567890" false
                                      (Storage.mk [] true))) = true ->
        input_value (formatter_blur (initial default_config "081234567890" false
                                       (Storage.mk [] true)))
        = PhoneFormatter.format
            (input_value (initial default_config "081234567890" false (Storage.mk [] true)))
        /\ actualValue (formatter_blur (initial default_config "081234567890" false
                                          (Storage.mk [] true)))
           = input_value (initial default_config "081234567890" false (Storage.mk [] true))).
Proof.
  apply (blur_focus_round_trip
           (initial default_config "081234567890" false (Storage.mk [] true))).
  reflexivity.
Defined.

End FormatterRoundTrip.

(** ** Bounded retries and the error boundary of the WhatsApp validator *)

Section WaBounds.
Import WhatsApp.
Variable C : config.

(** The state changes that leave the suspended calls, the armed retries
    and the error boundary alone. *)
Definition quiet (st st' : state) : Prop :=
  waiting st' = waiting st /\ retries st' = retries st
  /\ errors st' = errors st.

Lemma quiet_refl st : quiet st st.
Proof. repeat split. Qed.

Lemma quiet_trans st1 st2 st3 : quiet st1 st2 -> quiet st2 st3 -> quiet st1 st3.
Proof. intros (A1 & A2 & A3) (B1 & B2 & B3). repeat split; congruence. Qed.

Lemma quiet_updateUI status message isLoading st :
  quiet st (updateUI status message isLoading st).
Proof. unfold updateUI, schedule. destruct (domModified st); repeat split. Qed.

Lemma quiet_updateInputIcon type st : quiet st (updateInputIcon type st).
Proof. unfold updateInputIcon, schedule. destruct (domModified st); repeat split. Qed.

Lemma quiet_updateSubmitButton a st : quiet st (updateSubmitButton a st).
Proof. unfold updateSubmitButton, schedule. destruct (domModified st); repeat split. Qed.

Lemma quiet_activateFailsafe st : quiet st (activateFailsafe st).
Proof. repeat split. Qed.

Lemma quiet_handleValidationResult r phone st : quiet st (handleValidationResult r phone st).
Proof.
  unfold handleValidationResult.
  destruct r; [pose proof (quiet_updateUI (Some true) "WhatsApp aktif!" false st) as H
              |pose proof (quiet_updateUI (Some false) ERROR_INPUT false st) as H];
    destruct H as (H1 & H2 & H3); repeat split; simpl; assumption.
Qed.

Lemma quiet_canMakeRequest st : quiet st (snd (canMakeRequest st)).
Proof.
  unfold canMakeRequest.
  destruct (RateLimiter.canMakeRequest _ _) as [ok rl]. repeat split.
Qed.

Lemma quiet_incrementRequest st : quiet st (snd (incrementRequest st)).
Proof.
  unfold incrementRequest.
  destruct (60000 <? clock st - lastRequestReset st); repeat split.
Qed.

(** [begin_body] suspends at most one call, of the attempt it was asked
    for, and leaves the rest alone. *)
Lemma begin_body_pending (n : nat) (st : state) :
  let st' := fst (begin_body C n st) in
  retries st' = retries st /\ errors st' = errors st
  /\ (waiting st' = waiting st
      \/ exists raw phone p, waiting st' = waiting st ++ [mkWaiter n raw phone p]).
Proof.
  assert (Hq : forall st', quiet st st' ->
            retries st' = retries st /\ errors st' = errors st
            /\ (waiting st' = waiting st
                \/ exists raw phone p, waiting st' = waiting st ++ [mkWaiter n raw phone p])).
  { intros st' (A1 & A2 & A3). auto. }
  unfold begin_body.
  set (rawValue := JsString.trim (input_value st)).
  destruct (negb (JsString.truthy rawValue)).
  { cbn [fst]. apply Hq.
    eapply quiet_trans; [|apply quiet_updateSubmitButton].
    eapply quiet_trans; [apply (quiet_updateUI None EmptyString false)|].
    repeat split. }
  destruct (JsString.len rawValue <? MIN_PHONE_LENGTH C).
  { cbn [fst]. apply Hq, quiet_updateUI. }
  destruct (Cache.get _ _ _ _ _ _) as [[cached m] s].
  set (st1 := set_storage s (set_cacheManager m st)).
  assert (S1 : quiet st st1) by (subst st1; repeat split).
  assert (Hrest :
    let r := (let '(allowed, st) :=
          if (n =? 0)%nat then canMakeRequest st1 else (true, st1) in
        if negb allowed then (updateUI (Some false) RATE_LIMIT false st, true)
        else
          let '(within, st) := incrementRequest st in
          if negb within then
            (updateUI (Some false)
               "Terlalu banyak validasi. Silakan tunggu sebentar." false st, true)
          else
            let phone := PhoneFormatter.normalize rawValue in
            if String.eqb phone (lastCheckedNumber st)
               && match validationState st with Some _ => true | None => false end
               && (n =? 0)%nat
            then (st, true)
            else
              let st := if (n =? 0)%nat
                        then updateUI None EmptyString true st else st in
              let st := if retryController st && (n =? 0)%nat
                        then set_retryController false st else st in
              let timeout := getOptimalTimeout (connectionQuality st) in
              let '(p, _, rm) :=
                RequestManager.makeRequest (TIMEOUTS C) phone n
                  (Some timeout) (requestManager st) in
              let st := set_requestManager rm st in
              (set_waiting (waiting st ++ [mkWaiter n rawValue phone p]) st,
               false)) in
    retries (fst r) = retries st /\ errors (fst r) = errors st
    /\ (waiting (fst r) = waiting st
        \/ exists raw phone p, waiting (fst r) = waiting st ++ [mkWaiter n raw phone p])).
  { assert (S2 : exists allowed st2,
              (if (n =? 0)%nat then canMakeRequest st1 else (true, st1))
              = (allowed, st2) /\ quiet st st2).
    { destruct (n =? 0)%nat.
      - destruct (canMakeRequest st1) as [a s2] eqn:Hc. exists a, s2. split; [reflexivity|].
        eapply quiet_trans; [exact S1|].
        pose proof (quiet_canMakeRequest st1) as H. now rewrite Hc in H.
      - exists true, st1. auto. }
    destruct S2 as (allowed & st2 & -> & S2). cbv zeta.
    destruct (negb allowed).
    { cbn [fst]. apply Hq.
      eapply quiet_trans; [exact S2 | apply quiet_updateUI]. }
    destruct (incrementRequest st2) as [within st3] eqn:Hi.
    assert (S3 : quiet st st3).
    { eapply quiet_trans; [exact S2|].
      pose proof (quiet_incrementRequest st2) as H. now rewrite Hi in H. }
    destruct (negb within).
    { cbn [fst]. apply Hq.
      eapply quiet_trans; [exact S3 | apply quiet_updateUI]. }
    destruct (_ && _ && _).
    { cbn [fst]. now apply Hq. }
    set (st4 := if (n =? 0)%nat then updateUI None EmptyString true st3 else st3).
    assert (S4 : quiet st st4).
    { subst st4. destruct (n =? 0)%nat; [|exact S3].
      eapply quiet_trans; [exact S3 | apply quiet_updateUI]. }
    set (st5 := if retryController st4 && (n =? 0)%nat
                then set_retryController false st4 else st4).
    assert (S5 : quiet st st5).
    { subst st5. destruct (_ && _); [|exact S4].
      eapply quiet_trans; [exact S4 | repeat split]. }
    destruct S5 as (A1 & A2 & A3).
    destruct (RequestManager.makeRequest _ _ _ _ _) as [[p issued] rm]. cbn [fst].
    split; [exact A2|]. split; [exact A3|].
    right. exists rawValue, (PhoneFormatter.normalize rawValue), p. cbn. now rewrite A1. }
  destruct cached as [| |registered]; destruct n as [|n];
    try exact Hrest.
  - cbn [fst]. now apply Hq.
  - cbn [fst]. apply Hq.
    eapply quiet_trans; [exact S1 | apply quiet_handleValidationResult].
Qed.

(** Every suspended call is one of the three attempts (0, 1, 2) of its
    validation, every armed retry follows attempt 0 or 1, and the error
    boundary holds at most five errors. *)
Definition bounded (st : state) : Prop :=
  Forall (fun w => (w_attempt w <= 2)%nat) (waiting st)
  /\ Forall (fun r => (r_attempt r <= 1)%nat) (retries st)
  /\ 0 <= errors st <= 5.

Lemma bounded_quiet st st' : quiet st st' -> bounded st -> bounded st'.
Proof. intros (A1 & A2 & A3) (B1 & B2 & B3). unfold bounded. now rewrite A1, A2, A3. Qed.

Lemma bounded_not_degraded st :
  bounded st -> handleGracefulDegradation st = (false, st).
Proof.
  intros (_ & _ & He). unfold handleGracefulDegradation.
  replace (5 <? errors st) with false by (symmetry; apply Z.ltb_ge; lia). reflexivity.
Qed.

Lemma bounded_begin n st :
  (n <= 2)%nat -> bounded st -> bounded (fst (validateWhatsApp_begin C n st)).
Proof.
  intros Hn H. rewrite validateWhatsApp_begin_unfold, (bounded_not_degraded st H).
  cbv beta iota.
  destruct (negb (online st)).
  { cbn [fst]. eapply bounded_quiet; [apply quiet_updateUI | exact H]. }
  destruct (negb (budget_ok st)); [exact H|].
  set (st1 := if failsafeMode st && (n =? 0)%nat then set_failsafeMode false st else st).
  assert (H1 : bounded st1) by (subst st1; destruct (_ && _); exact H).
  cbv zeta.
  destruct (failsafeMode st1 && negb (isRetrying st1)).
  { cbn [fst]. eapply bounded_quiet; [apply quiet_updateInputIcon | exact H1]. }
  destruct (begin_body_pending n st1) as (Hr & He & Hw).
  destruct H1 as (B1 & B2 & B3). unfold bounded. rewrite Hr, He.
  split; [|auto]. destruct Hw as [-> | (raw & phone & p & ->)]; [exact B1|].
  apply Forall_app. split; [exact B1|]. constructor; [exact Hn | constructor].
Qed.

Lemma bounded_captureError st : bounded st -> bounded (captureError st).
Proof.
  intros (B1 & B2 & B3). unfold captureError, handleGracefulDegradation, attemptAutoRecovery.
  cbn [errors set_errors].
  replace (10 <? errors st + 1) with false by (symmetry; apply Z.ltb_ge; lia).
  destruct (5 <? errors (set_errors (errors st + 1) st)) eqn:H5; cbn [snd];
    unfold bounded; cbn; cbn in H5.
  - repeat split; auto; lia.
  - apply Z.ltb_ge in H5. repeat split; auto; lia.
Qed.

Lemma bounded_rejected w st :
  (w_attempt w <= 2)%nat -> bounded st ->
  bounded (fst (validateWhatsApp_rejected C w st)).
Proof.
  intros Hw H%bounded_captureError. unfold validateWhatsApp_rejected.
  destruct (w_attempt w <? 2)%nat eqn:Hlt.
  - apply Nat.ltb_lt in Hlt. destruct H as (B1 & B2 & B3). cbn [fst].
    unfold bounded. cbn. split; [exact B1|]. split; [|exact B3].
    apply Forall_app. split; [exact B2|]. constructor; [cbn; lia | constructor].
  - rewrite (bounded_not_degraded _ H). exact H.
Qed.

Lemma bounded_resume w o st :
  (w_attempt w <= 2)%nat -> bounded st ->
  bounded (fst (validateWhatsApp_resume C w o st)).
Proof.
  intros Hw H. destruct o as [|data]; [now apply bounded_rejected|].
  unfold validateWhatsApp_resume, validateWhatsApp_resolved.
  destruct (isRegistered_of data) as [registered|].
  - destruct (Cache.wa_set _ _ _ _ _ _ _ _ _ _) as [[m s] scheduled]. cbn [fst].
    eapply bounded_quiet; [apply quiet_handleValidationResult | exact H].
  - now apply bounded_rejected.
Qed.

Lemma bounded_onComplete fuel st : bounded st -> bounded (onComplete C fuel st).
Proof.
  revert st. induction fuel as [|fuel IH]; intros st H; cbn [onComplete];
    destruct (Queue.next _) as [[rest entry]|]; try exact H.
  - pose proof (bounded_begin 0
        (set_queueManager (Queue.process (Queue.release tt (queueManager st))) st)
        ltac:(lia) H) as Hb.
    destruct (validateWhatsApp_begin C 0 _) as [st' finished].
    destruct finished; exact Hb.
  - pose proof (bounded_begin 0
        (set_queueManager (Queue.process (Queue.release tt (queueManager st))) st)
        ltac:(lia) H) as Hb.
    destruct (validateWhatsApp_begin C 0 _) as [st' finished].
    destruct finished; [now apply IH | exact Hb].
Qed.

Lemma bounded_settle r : bounded (fst r) -> bounded (settle C r).
Proof.
  destruct r as [st finished]. unfold settle. cbn [fst]. intros H.
  destruct finished; [now apply bounded_onComplete | exact H].
Qed.

Lemma bounded_queueValidation st : bounded st -> bounded (queueValidation C st).
Proof.
  intros H. unfold queueValidation, enqueue.
  destruct (negb (domModified st)); [exact H|].
  destruct (_ || _); [exact H|].
  destruct (_ <? Queue.MAX_SIZE); [|exact H].
  destruct (Queue.next _) as [[rest entry]|]; [|exact H].
  apply bounded_settle, bounded_begin; [lia | exact H].
Qed.

Lemma bounded_run_op op st : bounded st -> bounded (run_op op st).
Proof.
  intros H. unfold run_op, updateInputIcon, updateSubmitButton, schedule.
  destruct op as [status message isLoading hasOtherError|type|[]| |];
    repeat match goal with
      | |- context [if ?b then _ else _] => destruct b
      | |- context [match ?x with _ => _ end] => destruct x
      end; exact H.
Qed.

Lemma bounded_flush st : bounded st -> bounded (flush st).
Proof.
  intros H. unfold flush.
  assert (H0 : bounded (set_batch [] st)) by exact H.
  revert H0. generalize (set_batch [] st). induction (batch st) as [|op ops IH]; simpl.
  - auto.
  - intros s Hs. apply IH. now apply bounded_run_op.
Qed.

Lemma bounded_focus st : bounded st -> bounded (focus st).
Proof.
  intros H. unfold focus, on_focus, formatter_restore, onFirstInteraction. simpl.
  destruct (focused st); [exact H|].
  destruct (negb (listening st)); [exact H|].
  destruct (firstInteraction st); [destruct (isFormatted st)|]; exact H.
Qed.

Lemma bounded_resumed o ws st :
  Forall (fun w => (w_attempt w <= 2)%nat) ws -> bounded st ->
  bounded (foldl (fun st w => settle C (validateWhatsApp_resume C w o st)) st ws).
Proof.
  intros Hws. revert st. induction Hws as [|w ws Hw _ IH]; intros st H; cbn [foldl];
    [exact H|].
  apply IH, bounded_settle, bounded_resume; assumption.
Qed.

Lemma Forall_filter_bool {A} (P : A -> Prop) (p : A -> bool) (l : list A) :
  Forall P l -> Forall P (List.filter p l).
Proof.
  induction 1 as [|x l Hx _ IH]; cbn; [constructor|].
  destruct (p x); [constructor|]; assumption.
Qed.

Lemma bounded_step e st : bounded st -> bounded (step C e st).
Proof.
  intros H. destruct e; cbn [step].
  - unfold on_focus, formatter_restore, onFirstInteraction. simpl.
    destruct (negb (listening st)); [exact H|].
    destruct (firstInteraction st); [destruct (isFormatted st)|]; exact H.
  - cbv zeta. destruct (negb (listening _)); [exact H|].
    assert (Hb : bounded (handleBlur C (set_focused false st))).
    { unfold handleBlur. simpl. destruct (negb (domModified st)); [exact H|].
      destruct (_ <=? _); [now apply bounded_queueValidation|].
      destruct (negb _); [|exact H].
      eapply bounded_quiet; [apply quiet_updateSubmitButton | exact H]. }
    destruct (firstInteraction _); [|exact Hb].
    unfold formatter_blur. destruct (negb _); exact Hb.
  - cbv zeta. destruct (negb (listening _)); [exact H|].
    unfold handleInput, validateSilently.
    set (st0 := onFirstInteraction (set_input_value v st)).
    assert (H0 : bounded st0)
      by (subst st0; unfold onFirstInteraction; simpl;
          destruct (firstInteraction st); exact H).
    destruct (negb (domModified st0)); [destruct (_ <=? _); exact H0|].
    set (st1 := if retryController st0 then _ else st0).
    assert (H1 : bounded st1) by (subst st1; destruct (retryController st0); exact H0).
    set (st2 := if negb _ then _ else st1).
    assert (H2 : bounded st2) by (subst st2; destruct (negb _); exact H1).
    set (st3 := if failsafeMode st2 then _ else st2).
    assert (H3 : bounded st3) by (subst st3; destruct (failsafeMode st2); exact H2).
    destruct (negb (JsString.truthy _)).
    { eapply bounded_quiet; [apply quiet_updateSubmitButton|].
      eapply bounded_quiet; [apply quiet_updateInputIcon|].
      eapply bounded_quiet; [apply quiet_updateUI|]. exact H3. }
    set (st4 := match validationState st3 with
                | Some false => updateSubmitButton Disable st3
                | _ => st3
                end).
    assert (H4 : bounded st4).
    { subst st4. destruct (validationState st3) as [[]|]; try exact H3.
      eapply bounded_quiet; [apply quiet_updateSubmitButton | exact H3]. }
    destruct (_ <=? _); [exact H4|].
    set (st5 := set_lastCheckedNumber EmptyString
                  (updateUI None EmptyString false (set_debounceTimer false st4))).
    assert (H5 : bounded st5).
    { subst st5.
      apply (bounded_quiet (updateUI None EmptyString false (set_debounceTimer false st4)));
        [repeat split|].
      eapply (bounded_quiet (set_debounceTimer false st4));
        [apply quiet_updateUI | exact H4]. }
    destruct (validationState st5) as [[]|]; try exact H5.
    eapply bounded_quiet; [apply quiet_updateSubmitButton | exact H5].
  - destruct (negb (listening st)); [exact H|].
    unfold handleKeypress. cbn [snd]. destruct (negb (domModified st)); [exact H|].
    destruct (isRetrying st && retryController st); [exact H|].
    destruct (failsafeMode st); [exact H|].
    destruct (validationState st) as [[]|]; try exact H;
      destruct (_ <=? _); try exact H; now apply bounded_queueValidation.
  - destruct (negb (listening st)); [exact H|].
    assert (Hs : bounded (snd (handleFormSubmit st))).
    { unfold handleFormSubmit. destruct (isRetrying st && retryController st); [exact H|].
      destruct (failsafeMode st); [exact H|].
      destruct (validationState st) as [[]|]; try exact H.
      now apply bounded_focus. }
    destruct (firstInteraction _); [|exact Hs].
    unfold formatter_restore. destruct (isFormatted _); exact Hs.
  - destruct (negb (listening st)); [exact H|].
    unfold handleSubmitClick. destruct (isRetrying st && retryController st); [exact H|].
    destruct (failsafeMode st); [exact H|].
    destruct (validationState st) as [[]|]; try exact H.
    now apply bounded_focus.
  - destruct (debounceTimer st); [|exact H]. now apply bounded_queueValidation.
  - unfold network_settles. apply bounded_resumed.
    + apply Forall_filter_bool. exact (proj1 H).
    + destruct H as (B1 & B2 & B3). unfold bounded. cbn. split; [|auto].
      now apply Forall_filter_bool.
  - destruct (retries st !! n) as [r|] eqn:Hr; [|exact H].
    assert (Hattempt : (r_attempt r <= 1)%nat).
    { destruct H as (_ & B2 & _). rewrite Forall_forall in B2. apply B2.
      eapply list_elem_of_lookup_2. exact Hr. }
    assert (H' : bounded (set_retries (drop_nth n (retries st)) st)).
    { destruct H as (B1 & B2 & B3). unfold bounded. cbn. split; [exact B1|].
      split; [|exact B3]. unfold drop_nth. apply Forall_app. split.
      - now apply Forall_take.
      - now apply Forall_drop. }
    unfold retry_callback. destruct (String.eqb _ _).
    + apply bounded_settle, bounded_begin; [lia | exact H'].
    + apply bounded_settle. cbn [fst].
      eapply bounded_quiet; [apply quiet_updateInputIcon | exact H'].
  - destruct (recoveries st); [exact H|]. cbn.
    destruct (errors st <? 3) eqn:He; [|exact H].
    destruct H as (B1 & B2 & B3). unfold bounded. cbn. repeat split; auto; lia.
  - now apply bounded_flush.
  - destruct (Cache.cleanupScheduled _); [|exact H].
    destruct (Cache.idle_callback _ _ _ _ _); exact H.
  - exact H.
  - exact H.
  - exact H.
  - exact H.
  - now apply bounded_captureError.
  - unfold monitor_tick. destruct memory; [exact H|].
    destruct (Cache.cleanup _ _ _ _ _); exact H.
  - unfold cleanup. pose proof (bounded_flush (set_debounceTimer false st) H) as Hf.
    destruct (Cache.cleanup _ _ _ _ _) as [m s]. destruct Hf as (B1 & B2 & B3).
    unfold bounded. cbn. repeat split; auto; lia.
Qed.

Lemma bounded_run events st : bounded st -> bounded (run C events st).
Proof.
  revert st. induction events as [|e es IH]; intros st H; cbn; [exact H|].
  apply IH. now apply bounded_step.
Qed.

Lemma bounded_initial value disabled store : bounded (initial C value disabled store).
Proof. unfold bounded. cbn. repeat split; auto; lia. Qed.

(** A validation is tried at most three times.  In every state the
    validator reaches, each call waiting for the network is attempt 0,
    1 or 2 of its validation, and each armed retry follows attempt 0 or
    1: no fourth request is ever made for a validation. *)
Theorem attempts_bounded (value : string) (disabled : bool) (store : Storage.t bool)
    (events : list event) :
  let st := run C events (initial C value disabled store) in
  (forall w, In w (waiting st) -> (w_attempt w <= 2)%nat)
  /\ (forall r, In r (retries st) -> (r_attempt r <= 1)%nat).
Proof.
  intros st.
  destruct (bounded_run events _ (bounded_initial value disabled store)) as (B1 & B2 & _).
  fold st in B1, B2. rewrite Forall_forall in B1. rewrite Forall_forall in B2.
  split; intros x Hx; [apply B1 | apply B2]; now apply list_elem_of_In.
Qed.

(** The error boundary never holds more than five errors: an error
    that would be the sixth makes [captureError] cut the list down to
    three at once.  So [handleGracefulDegradation], which asks for more
    than five, answers false whenever [validateWhatsApp] consults it, and
    the error list never reaches its cap of ten. *)
Theorem error_boundary_bounded (value : string) (disabled : bool)
    (store : Storage.t bool) (events : list event) :
  let st := run C events (initial C value disabled store) in
  0 <= errors st <= 5
  /\ handleGracefulDegradation st = (false, st)
  /\ errors (captureError st) = (if errors st =? 5 then 3 else errors st + 1).
Proof.
  intros st.
  pose proof (bounded_run events _ (bounded_initial value disabled store)) as H.
  fold st in H. split; [exact (proj2 (proj2 H))|]. split; [now apply bounded_not_degraded|].
  destruct H as (_ & _ & He).
  unfold captureError, handleGracefulDegradation, attemptAutoRecovery.
  cbn [errors set_errors].
  replace (10 <? errors st + 1) with false by (symmetry; apply Z.ltb_ge; lia).
  destruct (errors st =? 5) eqn:H5.
  - apply Z.eqb_eq in H5. rewrite H5. reflexivity.
  - apply Z.eqb_neq in H5. cbn.
    replace (5 <? errors st + 1) with false by (symmetry; apply Z.ltb_ge; lia).
    reflexivity.
Qed.

End WaBounds.

(** ** Before the first interaction *)

Section Hydration.
Import WhatsApp.
Variable C : config.

(** The events that are no interaction with the field: everything but
    the focus and the input event. *)
Definition passive (e : event) : bool :=
  match e with
  | Focus | Input _ => false
  | _ => true
  end.

(** The validator has not been interacted with: it has touched neither
    the page nor the field, it has written nothing to the storage (every
    item of the storage was there at the start, with the same value), and
    nothing of it is pending. *)
Record untouched (value : string) (disabled : bool) (store : Storage.t bool)
    (st : state) : Prop := {
  un_dom : domModified st = false;
  un_first : firstInteraction st = false;
  un_batch : batch st = [];
  un_view : view st = initial_ui disabled;
  un_input : input_value st = value;
  un_storage : forall k v, Storage.getItem k (storage st) = Some v ->
                           Storage.getItem k store = Some v;
  un_cache : Cache.cleanupScheduled (cacheManager st) = false;
  un_waiting : waiting st = [];
  un_retries : retries st = [];
  un_state : validationState st = None;
  un_controller : retryController st = false;
  un_calls : RequestManager.in_flight (requestManager st) = [];
  un_queue : queueManager st = Queue.empty;
}.

Lemma untouched_initial value disabled store :
  untouched value disabled store (initial C value disabled store).
Proof. constructor; auto. Qed.

Ltac still := constructor; cbn; solve [assumption | reflexivity].

Lemma untouched_flush value disabled store st :
  untouched value disabled store st -> untouched value disabled store (flush st).
Proof.
  intros [Hd Hf Hb Hv Hi Hs Hc Hw Hr Hvs Hrc Hcalls Hq].
  unfold flush. rewrite Hb. cbn [foldl]. still.
Qed.

(** The cache cleanup of the monitoring interval and of the unload
    listener only removes items. *)
Lemma untouched_cache_cleanup value disabled store st :
  untouched value disabled store st ->
  untouched value disabled store
    (let '(m, s) := Cache.cleanup (CACHE C) TEST_KEY (clock st)
                      (cacheManager st) (storage st) in
     set_storage s (set_cacheManager m st)).
Proof.
  intros [Hd Hf Hb Hv Hi Hs Hc Hw Hr Hvs Hrc Hcalls Hq].
  destruct (cleanup_only_removes (CACHE C) TEST_KEY (clock st) (cacheManager st)
              (storage st)) as [H1 H2].
  destruct (Cache.cleanup _ _ _ _ _) as [m s]. cbn [fst snd] in H1, H2.
  constructor; cbn; try solve [assumption | reflexivity].
  - intros k v Hg. apply Hs, H1, Hg.
  - now rewrite H2.
Qed.

Lemma untouched_step value disabled store e st :
  passive e = true ->
  untouched value disabled store st -> untouched value disabled store (step C e st).
Proof.
  intros He H. pose proof H as [Hd Hf Hb Hv Hi Hs Hc Hw Hr Hvs Hrc Hcalls Hq].
  destruct e; try discriminate He; cbn [step].
  - cbn [listening set_focused]. destruct (negb (listening st)); [still|].
    unfold handleBlur. cbn [domModified set_focused]. rewrite Hd. cbn [negb].
    cbn [firstInteraction set_focused]. rewrite Hf. still.
  - destruct (negb (listening st)); [exact H|].
    unfold handleKeypress. cbn [snd]. rewrite Hd. cbn [negb]. exact H.
  - destruct (negb (listening st)); [exact H|].
    unfold handleFormSubmit. rewrite Hrc, andb_false_r, Hvs.
    destruct (failsafeMode st); cbn [snd]; rewrite Hf; exact H.
  - destruct (negb (listening st)); [exact H|].
    unfold handleSubmitClick. rewrite Hrc, andb_false_r, Hvs.
    destruct (failsafeMode st); cbn [snd]; exact H.
  - destruct (debounceTimer st); [|exact H].
    unfold queueValidation. cbn [domModified set_debounceTimer]. rewrite Hd. cbn [negb].
    still.
  - unfold network_settles. cbn [waiting set_requestManager]. rewrite Hw.
    cbn [List.filter foldl]. unfold RequestManager.settle. rewrite Hcalls.
    cbn [List.find]. still.
  - rewrite Hr. rewrite lookup_nil. exact H.
  - destruct (recoveries st); [exact H|].
    cbn [errors set_recoveries]. destruct (errors st <? 3); still.
  - now apply untouched_flush.
  - rewrite Hc. exact H.
  - still.
  - still.
  - still.
  - still.
  - unfold captureError, handleGracefulDegradation, attemptAutoRecovery.
    cbn [errors set_errors].
    destruct (10 <? errors st + 1); cbn [errors set_errors];
      match goal with |- context [if ?b then _ else _] => destruct b end;
      cbn [snd]; still.
  - unfold monitor_tick. destruct memory; [exact H|].
    now apply untouched_cache_cleanup.
  - unfold cleanup.
    assert (H1 : untouched value disabled store (flush (set_debounceTimer false st))).
    { apply untouched_flush. still. }
    set (st1 := flush (set_debounceTimer false st)) in *.
    assert (H2 : untouched value disabled store
                   (set_queueManager (Queue.cancel "all" (queueManager (set_listening false st1)))
                      (set_listening false st1))).
    { destruct H1 as [Hd1 Hf1 Hb1 Hv1 Hi1 Hs1 Hc1 Hw1 Hr1 Hvs1 Hrc1 Hcalls1 Hq1].
      cbn [queueManager set_listening]. rewrite Hq1. still. }
    set (st2 := set_queueManager _ _) in *.
    pose proof (untouched_cache_cleanup _ _ _ _ H2) as H3.
    destruct (Cache.cleanup _ _ _ _ _) as [m s].
    destruct H3 as [Hd3 Hf3 Hb3 Hv3 Hi3 Hs3 Hc3 Hw3 Hr3 Hvs3 Hrc3 Hcalls3 Hq3].
    still.
Qed.

(** Hydration safety.  Until the user first focuses or edits the field,
    the validator leaves the page and the field alone, whatever else
    happens (blur, keys, submissions, timers, frames, network and error
    events, the monitoring interval, the unload of the page): it
    schedules no DOM update, shows nothing, sends no request and writes
    nothing to the storage, from which the cache cleanup of the
    monitoring interval and of the unload listener may only remove
    items.  The submit and click handlers let the event through; the
    keypress handler cancels the default action of an Enter key, as it
    always does, and changes nothing. *)
Theorem idle_until_first_interaction (value : string) (disabled : bool)
    (store : Storage.t bool) (events : list event) :
  forallb passive events = true ->
  let st := run C events (initial C value disabled store) in
  view st = initial_ui disabled
  /\ batch st = []
  /\ input_value st = value
  /\ (forall k v, Storage.getItem k (storage st) = Some v ->
                  Storage.getItem k store = Some v)
  /\ RequestManager.in_flight (requestManager st) = []
  /\ handleFormSubmit st = (mkEffect false false, st)
  /\ handleSubmitClick st = (mkEffect false false, st)
  /\ handleKeypress C st = (mkEffect true false, st).
Proof.
  intros Hp st.
  assert (H : untouched value disabled store st).
  { subst st. generalize (untouched_initial value disabled store).
    generalize (initial C value disabled store).
    induction events as [|e es IH]; intros st0 H0; cbn [run foldl]; [exact H0|].
    cbn [forallb] in Hp. apply andb_prop in Hp as [He Hes].
    apply (IH Hes). now apply untouched_step. }
  destruct H as [Hd Hf Hb Hv Hi Hs Hc Hw Hr Hvs Hrc Hcalls Hq].
  repeat split; try assumption.
  - unfold handleFormSubmit. rewrite Hrc, andb_false_r, Hvs.
    now destruct (failsafeMode st).
  - unfold handleSubmitClick. rewrite Hrc, andb_false_r, Hvs.
    now destruct (failsafeMode st).
  - unfold handleKeypress. rewrite Hd. reflexivity.
Qed.

End Hydration.

Section HydrationExample.
Import WhatsApp.

(** Events without a focus or an edit; the monitoring interval fires
    after the stored entry has expired. *)
Definition quiet_events : list event :=
  [SubmitClick; Blur; KeyEnter; Advance 100; MonitorTick false; Frame; PageError;
   Idle; SubmitForm; Unload; MonitorTick true].

Lemma idle_until_first_interaction_witness :
  let st := run default_config quiet_events
              (initial default_config "0812" false
                 (Storage.mk [("wa_v_0811", Storage.Parsed (Some true) (Some 10) (Some 1))] true)) in
  view st = initial_ui false
  /\ batch st = []
  /\ input_value st = "0812"
  /\ (forall k v, Storage.getItem k (storage st) = Some v ->
        Storage.getItem k
          (Storage.mk [("wa_v_0811", Storage.Parsed (Some true) (Some 10) (Some 1))] true)
        = Some v)
  /\ RequestManager.in_flight (requestManager st) = []
  /\ handleFormSubmit st = (mkEffect false false, st)
  /\ handleSubmitClick st = (mkEffect false false, st)
  /\ handleKeypress default_config st = (mkEffect true false, st).
Proof.
  apply (idle_until_first_interaction default_config "0812" false
           (Storage.mk [("wa_v_0811", Storage.Parsed (Some true) (Some 10) (Some 1))] true)
           quiet_events).
  reflexivity.
Defined.

End HydrationExample.

(** ** The DOM batcher settles in two frames *)

Section WaFrames.
Import WhatsApp.

(** The closures that schedule nothing when they run. *)
Definition wa_leaf (op : dom_op) : bool :=
  match op with
  | UpdateUI _ _ _ _ | Failsafe => false
  | _ => true
  end.

(** [st'] has the queue of [st] with closures added that schedule
    nothing. *)
Definition wa_appends (st st' : state) : Prop :=
  exists added, batch st' = batch st ++ added /\ forallb wa_leaf added = true.

Lemma wa_appends_refl st : wa_appends st st.
Proof. exists []. now rewrite app_nil_r. Qed.

Lemma wa_appends_trans st1 st2 st3 :
  wa_appends st1 st2 -> wa_appends st2 st3 -> wa_appends st1 st3.
Proof.
  intros (a & Ha & Hla) (b & Hb & Hlb). exists (a ++ b).
  rewrite Hb, Ha, app_assoc, forallb_app, Hla, Hlb. auto.
Qed.

Lemma wa_appends_updateInputIcon type st : wa_appends st (updateInputIcon type st).
Proof.
  unfold updateInputIcon, schedule. destruct (domModified st); cbn [negb].
  - now exists [InputIcon type].
  - apply wa_appends_refl.
Qed.

Lemma wa_appends_updateSubmitButton a st : wa_appends st (updateSubmitButton a st).
Proof.
  unfold updateSubmitButton, schedule. destruct (domModified st); cbn [negb].
  - now exists [SubmitButton a].
  - apply wa_appends_refl.
Qed.

Lemma wa_appends_set_ui f st : wa_appends st (set_ui f st).
Proof. exists []. now rewrite app_nil_r. Qed.

Lemma wa_appends_set_validationState v st : wa_appends st (set_validationState v st).
Proof. exists []. now rewrite app_nil_r. Qed.

Ltac wa_peel :=
  lazymatch goal with
  | |- wa_appends ?s ?s => apply wa_appends_refl
  | |- wa_appends ?s (updateSubmitButton ?a ?t) =>
      apply (wa_appends_trans s t); [wa_peel | apply wa_appends_updateSubmitButton]
  | |- wa_appends ?s (updateInputIcon ?a ?t) =>
      apply (wa_appends_trans s t); [wa_peel | apply wa_appends_updateInputIcon]
  | |- wa_appends ?s (set_ui ?f ?t) =>
      apply (wa_appends_trans s t); [wa_peel | apply wa_appends_set_ui]
  | |- wa_appends ?s (set_validationState ?v ?t) =>
      apply (wa_appends_trans s t); [wa_peel | apply wa_appends_set_validationState]
  | |- wa_appends ?s (match ?x with _ => _ end) => destruct x; wa_peel
  end.

Lemma wa_run_op_appends op st : wa_appends st (run_op op st).
Proof. destruct op as [status message isLoading hasOtherError|type|[]| |];
         unfold run_op; cbv zeta; wa_peel. Qed.

Lemma wa_run_op_leaf op st : wa_leaf op = true -> batch (run_op op st) = batch st.
Proof.
  destruct op as [status message isLoading hasOtherError|type|[]| |];
    try discriminate; intros _; cbn [run_op]; try reflexivity.
  destruct (validationState st) as [[]|]; reflexivity.
Qed.

Lemma wa_run_op_batch op st :
  exists added,
    batch (run_op op st) = batch st ++ added
    /\ forallb wa_leaf added = true
    /\ (wa_leaf op = true -> added = []).
Proof.
  destruct (wa_leaf op) eqn:Hl.
  - exists []. rewrite app_nil_r. split; [now apply wa_run_op_leaf | auto].
  - destruct (wa_run_op_appends op st) as (added & Ha & Hla).
    exists added. repeat split; [exact Ha | exact Hla | discriminate].
Qed.

Lemma wa_flush_leaves ops st :
  forallb wa_leaf (batch st) = true ->
  forallb wa_leaf (batch (foldl (fun st op => run_op op st) st ops)) = true.
Proof.
  revert st. induction ops as [|op ops IH]; intros st H; cbn [foldl]; [exact H|].
  apply IH. destruct (wa_run_op_batch op st) as (added & -> & Ha & _).
  now rewrite forallb_app, H, Ha.
Qed.

Lemma wa_flush_only_leaves ops st :
  forallb wa_leaf ops = true ->
  batch (foldl (fun st op => run_op op st) st ops) = batch st.
Proof.
  revert st. induction ops as [|op ops IH]; intros st H; cbn [foldl]; [reflexivity|].
  cbn [forallb] in H. apply andb_prop in H as [Hop Hops].
  rewrite (IH _ Hops). destruct (wa_run_op_batch op st) as (added & -> & _ & Hnil).
  rewrite (Hnil Hop). apply app_nil_r.
Qed.

(** Whatever is scheduled, two animation frames are enough: after the
    second [flush] the batcher's queue is empty, and a further frame
    would change nothing. *)
Theorem wa_settles_in_two_frames (st : state) :
  batch (flush (flush st)) = []
  /\ flush (flush (flush st)) = flush (flush st).
Proof.
  assert (H1 : forallb wa_leaf (batch (flush st)) = true).
  { unfold flush. now apply wa_flush_leaves. }
  assert (H2 : batch (flush (flush st)) = []).
  { unfold flush at 1. rewrite (wa_flush_only_leaves _ _ H1). reflexivity. }
  split; [exact H2|].
  unfold flush at 1. rewrite H2. cbn [foldl].
  destruct (flush (flush st)) eqn:Hs. cbn in H2. subst. reflexivity.
Qed.

End WaFrames.

Section EmailFrames.
Import Email.

Definition email_leaf (op : dom_op) : bool :=
  match op with
  | UpdateUI _ _ _ => false
  | _ => true
  end.

Definition email_appends (st st' : state) : Prop :=
  exists added, batch st' = batch st ++ added /\ forallb email_leaf added = true.

Lemma email_appends_refl st : email_appends st st.
Proof. exists []. now rewrite app_nil_r. Qed.

Lemma email_appends_trans st1 st2 st3 :
  email_appends st1 st2 -> email_appends st2 st3 -> email_appends st1 st3.
Proof.
  intros (a & Ha & Hla) (b & Hb & Hlb). exists (a ++ b).
  rewrite Hb, Ha, app_assoc, forallb_app, Hla, Hlb. auto.
Qed.

Lemma email_appends_updateInputIcon type st : email_appends st (updateInputIcon type st).
Proof. now exists [InputIcon type]. Qed.

Lemma email_appends_updateSubmitButton a st : email_appends st (updateSubmitButton a st).
Proof. now exists [SubmitButton a]. Qed.

Lemma email_appends_set_ui f st : email_appends st (set_ui f st).
Proof. exists []. now rewrite app_nil_r. Qed.

Ltac email_peel :=
  lazymatch goal with
  | |- email_appends ?s ?s => apply email_appends_refl
  | |- email_appends ?s (updateSubmitButton ?a ?t) =>
      apply (email_appends_trans s t); [email_peel | apply email_appends_updateSubmitButton]
  | |- email_appends ?s (updateInputIcon ?a ?t) =>
      apply (email_appends_trans s t); [email_peel | apply email_appends_updateInputIcon]
  | |- email_appends ?s (set_ui ?f ?t) =>
      apply (email_appends_trans s t); [email_peel | apply email_appends_set_ui]
  | |- email_appends ?s (match ?x with _ => _ end) => destruct x; email_peel
  end.

Lemma email_run_op_appends op st : email_appends st (run_op op st).
Proof. destruct op as [isValid message isLoading|type|[]| |suggestion];
         unfold run_op; cbv zeta; email_peel. Qed.

Lemma email_run_op_leaf op st : email_leaf op = true -> batch (run_op op st) = batch st.
Proof.
  destruct op as [isValid message isLoading|type|[]| |suggestion];
    try discriminate; intros _; reflexivity.
Qed.

Lemma email_run_op_batch op st :
  exists added,
    batch (run_op op st) = batch st ++ added
    /\ forallb email_leaf added = true
    /\ (email_leaf op = true -> added = []).
Proof.
  destruct (email_leaf op) eqn:Hl.
  - exists []. rewrite app_nil_r. split; [now apply email_run_op_leaf | auto].
  - destruct (email_run_op_appends op st) as (added & Ha & Hla).
    exists added. repeat split; [exact Ha | exact Hla | discriminate].
Qed.

Lemma email_flush_leaves ops st :
  forallb email_leaf (batch st) = true ->
  forallb email_leaf (batch (foldl (fun st op => run_op op st) st ops)) = true.
Proof.
  revert st. induction ops as [|op ops IH]; intros st H; cbn [foldl]; [exact H|].
  apply IH. destruct (email_run_op_batch op st) as (added & -> & Ha & _).
  now rewrite forallb_app, H, Ha.
Qed.

Lemma email_flush_only_leaves ops st :
  forallb email_leaf ops = true ->
  batch (foldl (fun st op => run_op op st) st ops) = batch st.
Proof.
  revert st. induction ops as [|op ops IH]; intros st H; cbn [foldl]; [reflexivity|].
  cbn [forallb] in H. apply andb_prop in H as [Hop Hops].
  rewrite (IH _ Hops). destruct (email_run_op_batch op st) as (added & -> & _ & Hnil).
  rewrite (Hnil Hop). apply app_nil_r.
Qed.

(** The DOM batcher of the email validator settles as well: whatever is
    scheduled, after the second [flush] the batcher's queue is empty, and
    a further frame would change nothing. *)
Theorem email_settles_in_two_frames (st : state) :
  batch (flush (flush st)) = []
  /\ flush (flush (flush st)) = flush (flush st).
Proof.
  assert (H1 : forallb email_leaf (batch (flush st)) = true).
  { unfold flush. now apply email_flush_leaves. }
  assert (H2 : batch (flush (flush st)) = []).
  { unfold flush at 1. rewrite (email_flush_only_leaves _ _ H1). reflexivity. }
  split; [exact H2|].
  unfold flush at 1. rewrite H2. cbn [foldl].
  destruct (flush (flush st)) eqn:Hs. cbn in H2. subst. reflexivity.
Qed.

End EmailFrames.

(** ** When the WhatsApp validator calls the proxy *)

Section RequestConditions.
Import WhatsApp.
Variable C : config.

(** The calls [begin_body] leaves in flight are those it found, and at
    most one more: for the normalized text of a field that holds at
    least MIN_PHONE_LENGTH characters. *)
Lemma begin_body_call (n : nat) (st : state) (c : RequestManager.call) :
  In c (RequestManager.in_flight (requestManager (fst (begin_body C n st)))) ->
  In c (RequestManager.in_flight (requestManager st))
  \/ (RequestManager.call_phone c
      = PhoneFormatter.normalize (JsString.trim (input_value st))
      /\ MIN_PHONE_LENGTH C <= JsString.len (JsString.trim (input_value st))).
Proof.
  assert (Hq : forall st', steady st st' ->
            In c (RequestManager.in_flight (requestManager st')) ->
            In c (RequestManager.in_flight (requestManager st))
            \/ (RequestManager.call_phone c
                = PhoneFormatter.normalize (JsString.trim (input_value st))
                /\ MIN_PHONE_LENGTH C <= JsString.len (JsString.trim (input_value st)))).
  { intros st' (_ & _ & A3 & _) Hc. left. now rewrite <- A3. }
  unfold begin_body.
  set (rawValue := JsString.trim (input_value st)).
  destruct (negb (JsString.truthy rawValue)) eqn:Ht.
  { cbn [fst]. apply Hq.
    eapply steady_trans; [|apply steady_updateSubmitButton].
    eapply steady_trans; [apply (steady_updateUI None EmptyString false)|].
    repeat split; auto. }
  destruct (JsString.len rawValue <? MIN_PHONE_LENGTH C) eqn:Hlen.
  { cbn [fst]. apply Hq, steady_updateUI. }
  apply Z.ltb_ge in Hlen.
  destruct (Cache.get _ _ _ _ _ _) as [[cached m] s].
  set (st1 := set_storage s (set_cacheManager m st)).
  assert (S1 : steady st st1) by (subst st1; repeat split; auto).
  assert (Hrest :
    let r := (let '(allowed, st) :=
          if (n =? 0)%nat then canMakeRequest st1 else (true, st1) in
        if negb allowed then (updateUI (Some false) RATE_LIMIT false st, true)
        else
          let '(within, st) := incrementRequest st in
          if negb within then
            (updateUI (Some false)
               "Terlalu banyak validasi. Silakan tunggu sebentar." false st, true)
          else
            let phone := PhoneFormatter.normalize rawValue in
            if String.eqb phone (lastCheckedNumber st)
               && match validationState st with Some _ => true | None => false end
               && (n =? 0)%nat
            then (st, true)
            else
              let st := if (n =? 0)%nat
                        then updateUI None EmptyString true st else st in
              let st := if retryController st && (n =? 0)%nat
                        then set_retryController false st else st in
              let timeout := getOptimalTimeout (connectionQuality st) in
              let '(p, _, rm) :=
                RequestManager.makeRequest (TIMEOUTS C) phone n
                  (Some timeout) (requestManager st) in
              let st := set_requestManager rm st in
              (set_waiting (waiting st ++ [mkWaiter n rawValue phone p]) st,
               false)) in
    In c (RequestManager.in_flight (requestManager (fst r))) ->
    In c (RequestManager.in_flight (requestManager st))
    \/ (RequestManager.call_phone c = PhoneFormatter.normalize rawValue
        /\ MIN_PHONE_LENGTH C <= JsString.len rawValue)).
  { assert (S2 : exists allowed st2,
              (if (n =? 0)%nat then canMakeRequest st1 else (true, st1))
              = (allowed, st2) /\ steady st st2).
    { destruct (n =? 0)%nat.
      - destruct (canMakeRequest st1) as [a s2] eqn:Hc. exists a, s2. split; [reflexivity|].
        eapply steady_trans; [exact S1|].
        pose proof (steady_canMakeRequest st1) as H. now rewrite Hc in H.
      - exists true, st1. auto. }
    destruct S2 as (allowed & st2 & -> & S2). cbv zeta.
    destruct (negb allowed).
    { cbn [fst]. apply Hq.
      eapply steady_trans; [exact S2 | apply steady_updateUI]. }
    destruct (incrementRequest st2) as [within st3] eqn:Hi.
    assert (S3 : steady st st3).
    { eapply steady_trans; [exact S2|].
      pose proof (steady_incrementRequest st2) as H. now rewrite Hi in H. }
    destruct (negb within).
    { cbn [fst]. apply Hq.
      eapply steady_trans; [exact S3 | apply steady_updateUI]. }
    destruct (_ && _ && _).
    { cbn [fst]. now apply Hq. }
    set (st4 := if (n =? 0)%nat then updateUI None EmptyString true st3 else st3).
    assert (S4 : steady st st4).
    { subst st4. destruct (n =? 0)%nat; [|exact S3].
      eapply steady_trans; [exact S3 | apply steady_updateUI]. }
    set (st5 := if retryController st4 && (n =? 0)%nat
                then set_retryController false st4 else st4).
    assert (S5 : steady st st5).
    { subst st5. destruct (_ && _); [|exact S4].
      eapply steady_trans; [exact S4 | repeat split; auto]. }
    destruct S5 as (A1 & A2 & A3 & A4 & A5 & A6).
    unfold RequestManager.makeRequest.
    destruct (RequestManager.activeRequests (requestManager st5) !! _); cbn [fst].
    - intros Hc. left. cbn in Hc. now rewrite <- A3.
    - intros Hc. cbn in Hc. apply in_app_or in Hc as [Hc | [<- | []]].
      + left. now rewrite <- A3.
      + right. cbn. split; [reflexivity | exact Hlen]. }
  destruct cached as [| |registered]; destruct n as [|n];
    try exact Hrest.
  - cbn [fst]. now apply Hq.
  - cbn [fst]. apply Hq.
    eapply steady_trans; [exact S1 | apply steady_handleValidationResult].
Qed.

(** [validateWhatsApp] calls the proxy only when the browser is online,
    the performance budget holds and the field has at least
    MIN_PHONE_LENGTH characters once trimmed; the number it posts is
    [PhoneFormatter.normalize] of the trimmed field. *)
Theorem request_preconditions (n : nat) (st : state) (c : RequestManager.call) :
  In c (RequestManager.in_flight
          (requestManager (fst (validateWhatsApp_begin C n st)))) ->
  ~ In c (RequestManager.in_flight (requestManager st)) ->
  online st = true /\ budget_ok st = true /\ errors st <= 5
  /\ MIN_PHONE_LENGTH C <= JsString.len (JsString.trim (input_value st))
  /\ RequestManager.call_phone c
     = PhoneFormatter.normalize (JsString.trim (input_value st)).
Proof.
  rewrite validateWhatsApp_begin_unfold. unfold handleGracefulDegradation.
  destruct (5 <? errors st) eqn:He; [intros Hc Hn; now destruct Hn|].
  apply Z.ltb_ge in He. cbv beta iota.
  destruct (online st); cbn [negb].
  2:{ intros Hc Hn. exfalso. apply Hn.
      destruct (steady_updateUI None "Tidak ada koneksi internet" false st) as (_ & _ & A3 & _).
      cbn [fst] in Hc. now rewrite <- A3. }
  destruct (budget_ok st); cbn [negb]; [|intros Hc Hn; now destruct Hn].
  set (st1 := if failsafeMode st && (n =? 0)%nat then set_failsafeMode false st else st).
  assert (H1 : input_value st1 = input_value st
               /\ requestManager st1 = requestManager st)
    by (subst st1; destruct (_ && _); split; reflexivity).
  destruct H1 as [Hi Hrm]. cbv zeta.
  destruct (failsafeMode st1 && negb (isRetrying st1)).
  { intros Hc Hn. exfalso. apply Hn.
    destruct (steady_updateInputIcon NoIcon st1) as (_ & _ & A3 & _).
    cbn [fst] in Hc. rewrite A3, Hrm in Hc. exact Hc. }
  intros Hc Hn. apply begin_body_call in Hc. rewrite Hi, Hrm in Hc.
  destruct Hc as [Hc | (Hp & Hl)]; [contradiction|].
  repeat split; auto.
Qed.

End RequestConditions.

Section RequestConditionsExample.
Import WhatsApp.

Lemma request_preconditions_witness :
  online (initial default_config "081234567890" false (Storage.mk [] true)) = true
  /\ budget_ok (initial default_config "081234567890" false (Storage.mk [] true)) = true
  /\ errors (initial default_config "081234567890" false (Storage.mk [] true)) <= 5
  /\ MIN_PHONE_LENGTH default_config
     <= JsString.len (JsString.trim
                        (input_value (initial default_config "081234567890" false
                                        (Storage.mk [] true))))
  /\ RequestManager.call_phone (RequestManager.mkCall 0 "+6281234567890" 7000)
     = PhoneFormatter.normalize
         (JsString.trim (input_value (initial default_config "081234567890" false
                                        (Storage.mk [] true)))).
Proof.
  apply (request_preconditions default_config 0
           (initial default_config "081234567890" false (Storage.mk [] true))
           (RequestManager.mkCall 0 "+6281234567890" 7000)).
  - vm_compute. left. reflexivity.
  - vm_compute. intros [].
Defined.

End RequestConditionsExample.

(** ** Verdicts are remembered *)

Section WrittenEntries.
Import Storage Cache.
Context {R : Type}.
Variable C : config.
Variable test_key : string.

(** What [get] answers after a successful [set], for either
    time-to-live. *)
Lemma get_after_set (m m1 : manager) (s s1 : Storage.t R) (key : string) (result : R)
    (isSuccess : bool) (t0 t0' tc now : Z) :
  available m <> Some false -> writable s = true ->
  now <= t0 + (if isSuccess then SUCCESS_TTL C else FAILURE_TTL C) ->
  (email_set C test_key t0 t0' key result isSuccess m s = (m1, s1)
   \/ exists scheduled,
        wa_set C test_key t0 t0' tc key result isSuccess m s = (m1, s1, scheduled)) ->
  get C test_key now key m1 s1 = (Value result, m1, s1).
Proof.
  intros Hm Hw Hnow Hset.
  destruct (isAvailable_writable test_key m s Hm Hw)
    as (m' & s' & Ha & Hm' & Hw' & Ha').
  assert (Hget : forall m2 s2,
            available m2 = Some true ->
            setItem (KEY_PREFIX C +:+ key) (entry C result isSuccess t0 t0') s' = Some s2 ->
            get C test_key now key m2 s2 = (Value result, m2, s2)).
  { intros m2 s2 Hm2 Hs2.
    destruct (getItem_setItem _ _ _ _ Hs2) as [Hg Hw2]. unfold entry in Hg.
    assert (Ha2 : isAvailable test_key m2 s2 = (true, m2, s2))
      by (unfold isAvailable; now rewrite Hm2).
    rewrite (get_after_write C test_key m2 s2 key result _ t0 t0' now Ha2 Hg).
    replace (_ <? now) with false by (symmetry; apply Z.ltb_ge; lia). reflexivity. }
  assert (Hwrite : exists s2, setItem (KEY_PREFIX C +:+ key)
                                (entry C result isSuccess t0 t0') s' = Some s2).
  { unfold setItem. rewrite Hw'. eauto. }
  destruct Hwrite as [s2 Hs2].
  destruct Hset as [Hset | [scheduled Hset]].
  - unfold email_set in Hset. rewrite Ha in Hset. cbn [negb] in Hset.
    rewrite Hs2 in Hset. injection Hset as <- <-. now apply Hget.
  - unfold wa_set in Hset. rewrite Ha in Hset. cbn [negb] in Hset.
    destruct (scheduleCleanup m') as [m2 sch] eqn:Hs.
    assert (Hm2 : available m2 = Some true).
    { unfold scheduleCleanup in Hs. destruct (cleanupScheduled m');
        injection Hs as <- <-; exact Hm'. }
    rewrite Hs2 in Hset. injection Hset as <- <- <-. now apply Hget.
Qed.

End WrittenEntries.

Section WaRemembered.
Import WhatsApp.
Variable C : config.

Lemma handleValidationResult_storage r phone st :
  cacheManager (handleValidationResult r phone st) = cacheManager st
  /\ storage (handleValidationResult r phone st) = storage st.
Proof.
  unfold handleValidationResult, updateUI, schedule.
  destruct r; destruct (negb (domModified st)); split; reflexivity.
Qed.

(** What [validateWhatsApp] leaves in the cache when it has read a
    verdict from the answer. *)
Lemma resolved_cache (w : waiter) (data : Js.jsval) (registered : bool) (st : state) :
  isRegistered_of data = Some registered ->
  exists scheduled,
    Cache.wa_set (CACHE C) TEST_KEY (clock st) (clock st) (clock st)
      (w_rawValue w) registered registered (cacheManager st) (storage st)
    = (cacheManager (fst (validateWhatsApp_resolved C w data st)),
       storage (fst (validateWhatsApp_resolved C w data st)), scheduled).
Proof.
  intros Hr. unfold validateWhatsApp_resolved. rewrite Hr.
  change (clock (set_retryController false (set_isRetrying false st))) with (clock st).
  change (cacheManager (set_retryController false (set_isRetrying false st)))
    with (cacheManager st).
  change (storage (set_retryController false (set_isRetrying false st)))
    with (storage st).
  destruct (Cache.wa_set _ _ _ _ _ _ _ _ _ _) as [[m s] scheduled].
  exists scheduled. cbn [fst].
  destruct (handleValidationResult_storage registered (w_phone w)
              (set_storage s (set_cacheManager m
                 (set_retryController false (set_isRetrying false st))))) as [-> ->].
  reflexivity.
Qed.

(** A verdict the proxy gave is remembered.  Let [validateWhatsApp]
    store the verdict for a text (registered: for SUCCESS_TTL, not
    registered: for FAILURE_TTL) on a storage that takes the write, with
    a cache not known to be unavailable.  Then a first attempt (attempt
    0) for the same text that finds the cache and the storage as that
    write left them, within that time, while the validator is not
    degraded (at most five captured errors, the browser online, the
    performance budgets kept) and the text is not empty and has at least
    MIN_PHONE_LENGTH characters, applies the stored verdict and ends
    without a request. *)
Theorem wa_verdict_remembered (w : waiter) (data : Js.jsval) (registered : bool)
    (st st2 : state) :
  isRegistered_of data = Some registered ->
  Cache.available (cacheManager st) <> Some false ->
  Storage.writable (storage st) = true ->
  cacheManager st2 = cacheManager (fst (validateWhatsApp_resolved C w data st)) ->
  storage st2 = storage (fst (validateWhatsApp_resolved C w data st)) ->
  clock st2 <= clock st + (if registered then Cache.SUCCESS_TTL (CACHE C)
                           else Cache.FAILURE_TTL (CACHE C)) ->
  JsString.trim (input_value st2) = w_rawValue w ->
  errors st2 <= 5 -> online st2 = true -> budget_ok st2 = true ->
  JsString.truthy (w_rawValue w) = true ->
  MIN_PHONE_LENGTH C <= JsString.len (w_rawValue w) ->
  snd (validateWhatsApp_begin C 0 st2) = true
  /\ validationState (fst (validateWhatsApp_begin C 0 st2)) = Some registered
  /\ requestManager (fst (validateWhatsApp_begin C 0 st2)) = requestManager st2
  /\ waiting (fst (validateWhatsApp_begin C 0 st2)) = waiting st2.
Proof.
  intros Hr Hm Hw Hcm Hst Hclock Hraw He Ho Hb Ht Hl.
  destruct (resolved_cache w data registered st Hr) as [scheduled Hset].
  rewrite <- Hcm, <- Hst in Hset.
  apply (begin_cache_hit C st2 registered (cacheManager st2) (storage st2));
    try assumption.
  - now rewrite Hraw.
  - now rewrite Hraw.
  - rewrite Hraw.
    apply (get_after_set (CACHE C) TEST_KEY (cacheManager st) (cacheManager st2)
             (storage st) (storage st2)
             (w_rawValue w) registered registered (clock st) (clock st) (clock st)
             (clock st2) Hm Hw Hclock).
    right. now exists scheduled.
Qed.

End WaRemembered.

Section WaRememberedExample.
Import WhatsApp.

(** The answer of the proxy for a number that is not registered,
    received by a first attempt for 081234567890 on a fresh page. *)
Definition not_registered : Js.jsval :=
  Js.JObj [("data", Js.JObj [("status", Js.JBool false)])].

Definition first_attempt : waiter := mkWaiter 0 "081234567890" "+6281234567890" 0.

Definition asked : state :=
  initial default_config "081234567890" false (Storage.mk [] true).

Lemma wa_verdict_remembered_witness :
  snd (validateWhatsApp_begin default_config 0
         (fst (validateWhatsApp_resolved default_config first_attempt not_registered asked)))
  = true
  /\ validationState
       (fst (validateWhatsApp_begin default_config 0
               (fst (validateWhatsApp_resolved default_config first_attempt
                       not_registered asked)))) = Some false
  /\ requestManager
       (fst (validateWhatsApp_begin default_config 0
               (fst (validateWhatsApp_resolved default_config first_attempt
                       not_registered asked))))
     = requestManager
         (fst (validateWhatsApp_resolved default_config first_attempt not_registered asked))
  /\ waiting
       (fst (validateWhatsApp_begin default_config 0
               (fst (validateWhatsApp_resolved default_config first_attempt
                       not_registered asked))))
     = waiting
         (fst (validateWhatsApp_resolved default_config first_attempt not_registered asked)).
Proof.
  apply (wa_verdict_remembered default_config first_attempt not_registered false asked
           (fst (validateWhatsApp_resolved default_config first_attempt not_registered
                   asked)));
    try reflexivity; try discriminate.
Defined.

End WaRememberedExample.

Section EmailRemembered.
Import Email.
Variable E : Js.engine.

Lemma conclude_valid_cache (email : string) (data : Js.jsval) (st : state) :
  Js.property "result" data = Js.JStr "valid" ->
  Cache.email_set Cache.email_config TEST_KEY (clock st) (clock st) email true true
    (cacheManager st) (storage st)
  = (cacheManager (validateEmail_conclude E email data st),
     storage (validateEmail_conclude E email data st))
  /\ validationState (validateEmail_conclude E email data st) = Some true.
Proof.
  intros Hr. unfold validateEmail_conclude. rewrite Hr.
  assert (Ht : Js.truthy data = true) by (destruct data; try discriminate; reflexivity).
  rewrite Ht.
  change (negb true || Js.is_string "unknown" (Js.JStr "valid")) with false.
  change (Js.is_string "valid" (Js.JStr "valid")) with true.
  cbv iota.
  destruct (Cache.email_set _ _ _ _ _ _ _ _ _) as [m s]. split; reflexivity.
Qed.

(** The email validator remembers a valid address: once an answer
    whose [result] is "valid" has been stored, a validation of the same
    address within SUCCESS_TTL (ten minutes) ends at once as valid and
    starts no fetch, provided the storage took the write. *)
Theorem email_valid_remembered (email : string) (data : Js.jsval) (st st2 : state) :
  Js.property "result" data = Js.JStr "valid" ->
  Cache.available (cacheManager st) <> Some false ->
  Storage.writable (storage st) = true ->
  cacheManager st2 = cacheManager (validateEmail_conclude E email data st) ->
  storage st2 = storage (validateEmail_conclude E email data st) ->
  clock st2 <= clock st + 600000 ->
  snd (validateEmail_begin email st2) = true
  /\ validations (fst (validateEmail_begin email st2)) = validations st2
  /\ validationState (fst (validateEmail_begin email st2)) = Some true.
Proof.
  intros Hr Hm Hw Hcm Hst Hclock.
  destruct (conclude_valid_cache email data st Hr) as [Hset _].
  rewrite <- Hcm, <- Hst in Hset.
  apply (email_cache_hit_no_fetch email st2 (cacheManager st2) (storage st2)).
  apply (get_after_set Cache.email_config TEST_KEY (cacheManager st) (cacheManager st2)
           (storage st) (storage st2)
           email true true (clock st) (clock st) 0 (clock st2) Hm Hw Hclock).
  now left.
Qed.

End EmailRemembered.

Section EmailRememberedExample.
Import Email.

(** The body of an answer that finds the address valid. *)
Definition found_valid : Js.jsval := Js.JObj [("result", Js.JStr "valid")].

Lemma email_valid_remembered_witness :
  snd (validateEmail_begin "a@x.io"
         (validateEmail_conclude sample_engine "a@x.io" found_valid
            (initial "a@x.io" false (Storage.mk [] true)))) = true
  /\ validations
       (fst (validateEmail_begin "a@x.io"
               (validateEmail_conclude sample_engine "a@x.io" found_valid
                  (initial "a@x.io" false (Storage.mk [] true)))))
     = validations (validateEmail_conclude sample_engine "a@x.io" found_valid
                      (initial "a@x.io" false (Storage.mk [] true)))
  /\ validationState
       (fst (validateEmail_begin "a@x.io"
               (validateEmail_conclude sample_engine "a@x.io" found_valid
                  (initial "a@x.io" false (Storage.mk [] true))))) = Some true.
Proof.
  apply (email_valid_remembered sample_engine "a@x.io" found_valid
           (initial "a@x.io" false (Storage.mk [] true))
           (validateEmail_conclude sample_engine "a@x.io" found_valid
              (initial "a@x.io" false (Storage.mk [] true))));
    try reflexivity; try discriminate.
Defined.

End EmailRememberedExample.

(** ** The email validator fails open, and retries a bounded number of times *)

Section EmailOutcomes.
Import Email.
Variable E : Js.engine.
Variable checkValidity : string -> bool.

(** Submission is not blocked. *)
Definition open_for_submit (st : state) : Prop := validationState st <> Some false.

Lemma open_begin email st :
  open_for_submit st -> open_for_submit (fst (validateEmail_begin email st)).
Proof.
  intros H. unfold validateEmail_begin.
  destruct (Cache.get _ _ _ _ _ _) as [[cached m] s].
  destruct cached as [| |[]]; cbn; try exact H. discriminate.
Qed.

Lemma open_complete fuel email st :
  open_for_submit st -> open_for_submit (complete fuel email st).
Proof.
  revert email st. induction fuel as [|fuel IH]; intros email st H; cbn [complete];
    destruct (Queue.next _) as [[rest entry]|]; try exact H.
  - pose proof (open_begin (Queue.job entry)
        (set_queueManager
           (Queue.process (Queue.release email (queueManager (validateEmail_finally st))))
           (validateEmail_finally st)) H) as Hb.
    destruct (validateEmail_begin _ _) as [st' finished]. destruct finished; exact Hb.
  - pose proof (open_begin (Queue.job entry)
        (set_queueManager
           (Queue.process (Queue.release email (queueManager (validateEmail_finally st))))
           (validateEmail_finally st)) H) as Hb.
    destruct (validateEmail_begin _ _) as [st' finished].
    destruct finished; [now apply IH | exact Hb].
Qed.

Lemma open_settle email r : open_for_submit (fst r) -> open_for_submit (settle email r).
Proof.
  destruct r as [st finished]. unfold settle. cbn [fst]. intros H.
  destruct finished; [now apply open_complete | exact H].
Qed.

Lemma open_conclude email data st :
  Js.is_string "invalid" (Js.property "result" data) = false ->
  open_for_submit (validateEmail_conclude E email data st).
Proof.
  intros Hr. unfold validateEmail_conclude, open_for_submit. rewrite Hr.
  destruct (negb (Js.truthy data) || _); [cbn; discriminate|].
  destruct (Js.is_string "valid" _).
  - destruct (Cache.email_set _ _ _ _ _ _ _ _ _) as [m s]. cbn. discriminate.
  - cbn. discriminate.
Qed.

(** The body can be read: it is neither null nor undefined. *)
Definition readable (data : Js.jsval) : bool :=
  match data with
  | Js.JNull | Js.JUndefined => false
  | _ => true
  end.

(** The email validator fails open.  When the fetch of a validation
    fails (network error, abort after 3 s, a body that is no JSON), when
    its answer is a body other than null whose [result] is neither
    "invalid" nor "unknown", or when the third answer in a row is such a
    body with the result "unknown", the validation ends with a
    validation state that is not Invalid, and the submit handlers let
    the form through.  (A body null is left out: reading its [result]
    throws, and the validation state stays what it was.) *)
Theorem email_fails_open (n : nat) (email : string) (i : nat) (o : fetch_outcome)
    (st : state) :
  validations st !! n = Some (mkValidation email i Fetching) ->
  (o = Failed
   \/ exists data, o = Answered data /\ readable data = true
                   /\ Js.is_string "invalid" (Js.property "result" data) = false
                   /\ (Js.is_string "unknown" (Js.property "result" data) = false
                       \/ (2 <= i)%nat)) ->
  let st' := step E checkValidity (FetchSettles n o) st in
  validationState st' <> Some false
  /\ handleSubmit st' = (mkEffect false false, st')
  /\ handleSubmitClick st' = (mkEffect false false, st').
Proof.
  intros Hv Ho st'.
  assert (H : open_for_submit st').
  { subst st'. cbn [step]. rewrite Hv. apply open_settle.
    destruct Ho as [-> | (data & -> & Hread & Hinv & Hunk)]; [cbn; discriminate|].
    unfold validateEmail_fetched.
    destruct (negb (String.eqb _ email)); [cbn; discriminate|].
    assert (Hgoal : open_for_submit
              (fst (if negb (Js.is_string "unknown" (Js.property "result" data))
                    then (validateEmail_conclude E email data (drop_validation n st), true)
                    else if (i <? 2)%nat
                         then (set_validations
                                 (validations (drop_validation n st)
                                  ++ [mkValidation email i Waiting])
                                 (drop_validation n st), false)
                         else (validateEmail_conclude E email data (drop_validation n st),
                               true)))).
    { destruct (Js.is_string "unknown" (Js.property "result" data)) eqn:Hu; cbn [negb].
      - destruct Hunk as [Hunk | Hi]; [discriminate|].
        replace (i <? 2)%nat with false by (symmetry; apply Nat.ltb_ge; lia).
        cbn [fst]. now apply open_conclude.
      - cbn [fst]. now apply open_conclude. }
    destruct data; try discriminate; exact Hgoal. }
  split; [exact H|]. unfold handleSubmit, handleSubmitClick. unfold open_for_submit in H.
  destruct (validationState st') as [[]|]; try contradiction; auto.
Qed.

(** A fetch of round 0, 1 or 2, or a pause after round 0 or 1. *)
Definition in_bounds (v : validation) : Prop :=
  match v_phase v with
  | Fetching => (v_round v <= 2)%nat
  | Waiting => (v_round v <= 1)%nat
  end.

Definition rounds_bounded (st : state) : Prop := Forall in_bounds (validations st).

Lemma bounded_begin_email email st :
  rounds_bounded st -> rounds_bounded (fst (validateEmail_begin email st)).
Proof.
  intros H. unfold validateEmail_begin.
  destruct (Cache.get _ _ _ _ _ _) as [[cached m] s].
  assert (Hadd : rounds_bounded
            (set_validations
               (validations st ++ [mkValidation email 0 Fetching])
               (updateUI None EmptyString true
                  (set_storage s (set_cacheManager m
                     (set_invalidEdited false
                        (set_activeEmail (Some email) (set_isValidating true st)))))))).
  { unfold rounds_bounded. cbn. apply Forall_app. split; [exact H|].
    constructor; [cbn; lia | constructor]. }
  destruct cached as [| |[]]; cbn [fst]; try exact Hadd. exact H.
Qed.

Lemma bounded_complete_email fuel email st :
  rounds_bounded st -> rounds_bounded (complete fuel email st).
Proof.
  revert email st. induction fuel as [|fuel IH]; intros email st H; cbn [complete];
    destruct (Queue.next _) as [[rest entry]|]; try exact H.
  - pose proof (bounded_begin_email (Queue.job entry)
        (set_queueManager
           (Queue.process (Queue.release email (queueManager (validateEmail_finally st))))
           (validateEmail_finally st)) H) as Hb.
    destruct (validateEmail_begin _ _) as [st' finished]. destruct finished; exact Hb.
  - pose proof (bounded_begin_email (Queue.job entry)
        (set_queueManager
           (Queue.process (Queue.release email (queueManager (validateEmail_finally st))))
           (validateEmail_finally st)) H) as Hb.
    destruct (validateEmail_begin _ _) as [st' finished].
    destruct finished; [now apply IH | exact Hb].
Qed.

Lemma bounded_settle_email email r :
  rounds_bounded (fst r) -> rounds_bounded (settle email r).
Proof.
  destruct r as [st finished]. unfold settle. cbn [fst]. intros H.
  destruct finished; [now apply bounded_complete_email | exact H].
Qed.

Lemma bounded_queueValidation_email st :
  rounds_bounded st -> rounds_bounded (queueValidation checkValidity st).
Proof.
  intros H. unfold queueValidation, enqueue.
  destruct (_ || _); [exact H|].
  destruct (_ || _); [exact H|].
  destruct (_ <? Queue.MAX_SIZE); [|exact H].
  destruct (Queue.next _) as [[rest entry]|]; [|exact H].
  apply bounded_settle_email, bounded_begin_email. exact H.
Qed.

Lemma bounded_conclude_email email data st :
  rounds_bounded st -> rounds_bounded (validateEmail_conclude E email data st).
Proof.
  intros H. unfold validateEmail_conclude.
  destruct (_ || _); [exact H|].
  destruct (Js.is_string "valid" _).
  { destruct (Cache.email_set _ _ _ _ _ _ _ _ _) as [m s]. exact H. }
  destruct (_ && _); [destruct (Js.js_String E _); exact H|].
  destruct (Js.is_string "invalid" _); exact H.
Qed.

Lemma bounded_run_op_email op st : rounds_bounded st -> rounds_bounded (run_op op st).
Proof.
  intros H. unfold run_op, updateInputIcon, updateSubmitButton, schedule.
  destruct op as [isValid message isLoading|type|[]| |suggestion];
    repeat match goal with
      | |- context [if ?b then _ else _] => destruct b
      | |- context [match ?x with _ => _ end] => destruct x
      end; exact H.
Qed.

Lemma bounded_flush_email st : rounds_bounded st -> rounds_bounded (flush st).
Proof.
  intros H. unfold flush.
  assert (H0 : rounds_bounded (set_batch [] st)) by exact H.
  revert H0. generalize (set_batch [] st). induction (batch st) as [|op ops IH]; simpl.
  - auto.
  - intros s Hs. apply IH. now apply bounded_run_op_email.
Qed.

Lemma bounded_drop_validation n st :
  rounds_bounded st -> rounds_bounded (drop_validation n st).
Proof.
  intros H. unfold rounds_bounded, drop_validation. cbn. apply Forall_app. split.
  - now apply Forall_take.
  - now apply Forall_drop.
Qed.

Lemma bounded_step_email e st :
  rounds_bounded st -> rounds_bounded (step E checkValidity e st).
Proof.
  intros H. destruct e; cbn [step].
  - unfold handleInput. cbv zeta.
    repeat match goal with
      | |- context [match ?x with _ => _ end] => destruct x
      end; exact H.
  - unfold handleBlur. destruct (validationState st) as [[]|]; try exact H.
    destruct (_ && _); [|exact H].
    apply (bounded_queueValidation_email st H).
  - unfold handleSubmit. destruct (validationState st) as [[]|]; exact H.
  - unfold handleSubmitClick. destruct (validationState st) as [[]|]; exact H.
  - destruct (debounceTimer st); [|exact H].
    now apply bounded_queueValidation_email.
  - destruct (validations st !! n) as [[email i []]|] eqn:Hv; try exact H.
    apply bounded_settle_email. pose proof (bounded_drop_validation n st H) as Hd.
    unfold validateEmail_fetched. destruct o as [|data]; [exact Hd|].
    destruct (negb (String.eqb _ email)); [exact Hd|].
    assert (Hgoal : rounds_bounded
              (fst (if negb (Js.is_string "unknown" (Js.property "result" data))
                    then (validateEmail_conclude E email data (drop_validation n st), true)
                    else if (i <? 2)%nat
                         then (set_validations
                                 (validations (drop_validation n st)
                                  ++ [mkValidation email i Waiting])
                                 (drop_validation n st), false)
                         else (validateEmail_conclude E email data (drop_validation n st),
                               true)))).
    { destruct (negb (Js.is_string "unknown" (Js.property "result" data))).
      { cbn [fst]. now apply bounded_conclude_email. }
      destruct (i <? 2)%nat eqn:Hi; cbn [fst]; [|now apply bounded_conclude_email].
      apply Nat.ltb_lt in Hi. unfold rounds_bounded. cbn. apply Forall_app.
      split; [exact Hd|]. constructor; [cbn; lia | constructor]. }
    destruct data; try exact Hd; exact Hgoal.
  - destruct (validations st !! n) as [[email i []]|] eqn:Hv; try exact H.
    apply bounded_settle_email. pose proof (bounded_drop_validation n st H) as Hd.
    assert (Hi : (i <= 1)%nat).
    { unfold rounds_bounded in H. rewrite Forall_forall in H.
      apply (H (mkValidation email i Waiting)). eapply list_elem_of_lookup_2. exact Hv. }
    unfold validateEmail_waited. destruct (negb (String.eqb _ email)); [exact Hd|].
    cbn [fst]. unfold rounds_bounded. cbn. apply Forall_app.
    split; [exact Hd|]. constructor; [cbn; lia | constructor].
  - destruct (suggestion_handler (view st)); [|exact H].
    now apply bounded_queueValidation_email.
  - now apply bounded_flush_email.
  - exact H.
Qed.

(** A validation fetches at most three times.  In every state the
    email validator reaches, each fetch in flight is round 0, 1 or 2 of
    its validation and each pause follows round 0 or 1: after a third
    "unknown" the validation gives up. *)
Theorem email_rounds_bounded (value : string) (disabled : bool)
    (store : Storage.t bool) (events : list event) (v : validation) :
  In v (validations (run E checkValidity events (initial value disabled store))) ->
  (v_round v <= 2)%nat
  /\ (v_phase v = Waiting -> (v_round v <= 1)%nat).
Proof.
  assert (H : rounds_bounded (run E checkValidity events (initial value disabled store))).
  { assert (H0 : rounds_bounded (initial value disabled store)) by constructor.
    revert H0. generalize (initial value disabled store).
    induction events as [|e es IH]; intros st0 H0; cbn [run foldl]; [exact H0|].
    apply IH. now apply bounded_step_email. }
  intros Hv. unfold rounds_bounded in H. rewrite Forall_forall in H.
  specialize (H v ltac:(now apply list_elem_of_In)). unfold in_bounds in H.
  destruct (v_phase v); split; try lia; try exact H; try discriminate; auto.
Qed.

End EmailOutcomes.

Section EmailOutcomesExample.
Import Email.

(** The user typed a@x.io, the validation is waiting for its first
    answer. *)
Definition awaiting_answer : state :=
  run sample_engine (fun _ => true) [Input "a@x.io"; DebounceFires] (initial EmptyString false (Storage.mk [] true)).

Lemma email_fails_open_witness :
  validationState (step sample_engine (fun _ => true) (FetchSettles 0 Failed) awaiting_answer) <> Some false
  /\ handleSubmit (step sample_engine (fun _ => true) (FetchSettles 0 Failed) awaiting_answer)
     = (mkEffect false false, step sample_engine (fun _ => true) (FetchSettles 0 Failed) awaiting_answer)
  /\ handleSubmitClick (step sample_engine (fun _ => true) (FetchSettles 0 Failed) awaiting_answer)
     = (mkEffect false false, step sample_engine (fun _ => true) (FetchSettles 0 Failed) awaiting_answer).
Proof.
  apply (email_fails_open sample_engine (fun _ => true) 0 "a@x.io" 0 Failed awaiting_answer).
  - reflexivity.
  - now left.
Defined.

Lemma email_rounds_bounded_witness :
  (v_round (mkValidation "a@x.io" 0 Fetching) <= 2)%nat
  /\ (v_phase (mkValidation "a@x.io" 0 Fetching) = Waiting ->
      (v_round (mkValidation "a@x.io" 0 Fetching) <= 1)%nat).
Proof.
  apply (email_rounds_bounded sample_engine (fun _ => true) EmptyString false (Storage.mk [] true)
           [Input "a@x.io"; DebounceFires] (mkValidation "a@x.io" 0 Fetching)).
  vm_compute. left. reflexivity.
Defined.

End EmailOutcomesExample.


(** ** Refused validations of the WhatsApp validator *)

Section WaRefusals.
Import WhatsApp.
Variable C : config.

(** Calls of [performanceBudget.incrementRequest()] made at the clock
    readings [ts], in this order. *)
Fixpoint budget_calls (ts : list Z) (st : state) : list bool * state :=
  match ts with
  | [] => ([], st)
  | t :: ts' =>
      let '(ok, st) := incrementRequest (set_clock t st) in
      let '(oks, st) := budget_calls ts' st in
      (ok :: oks, st)
  end.

Lemma budget_calls_within (ts : list Z) (st : state) :
  Forall (fun t => t - lastRequestReset st <= 60000) ts ->
  fst (budget_calls ts st)
  = imap (fun i _ => requestCount st + 1 + Z.of_nat i <? 15) ts
  /\ requestCount (snd (budget_calls ts st)) = requestCount st + Z.of_nat (length ts)
  /\ lastRequestReset (snd (budget_calls ts st)) = lastRequestReset st.
Proof.
  revert st. induction ts as [|t ts IH]; intros st Hts.
  - simpl. repeat split. lia.
  - inversion Hts as [|? ? Ht Hrest]; subst.
    cbn [budget_calls]. unfold incrementRequest.
    change (clock (set_clock t st)) with t.
    change (lastRequestReset (set_clock t st)) with (lastRequestReset st).
    replace (60000 <? t - lastRequestReset st) with false
      by (symmetry; apply Z.ltb_ge; exact Ht).
    cbv zeta.
    set (st1 := set_requestCount (requestCount (set_clock t st) + 1) (set_clock t st)).
    assert (Hc : requestCount st1 = requestCount st + 1) by reflexivity.
    assert (Hr : lastRequestReset st1 = lastRequestReset st) by reflexivity.
    assert (Hrest' : Forall (fun t => t - lastRequestReset st1 <= 60000) ts)
      by (rewrite Hr; exact Hrest).
    clearbody st1.
    destruct (IH st1 Hrest') as (I1 & I2 & I3).
    destruct (budget_calls ts st1) as [oks st2]. cbn [fst snd] in *.
    rewrite imap_cons. repeat split.
    + f_equal.
      * rewrite Hc. f_equal. lia.
      * rewrite I1. apply imap_ext. intros i x _. unfold compose. rewrite Hc.
        f_equal. lia.
    + rewrite I2, Hc. cbn [length]. lia.
    + rewrite I3. exact Hr.
Qed.

(** The request budget is a fixed window: within a minute of the last
    reset, the call that brings the counter to [k] is let through
    exactly when [k < 15], every call counts (also a refused one), and
    the window does not move; the first call made more than a minute
    after the last reset is let through and opens a new window with the
    counter at one.  A fresh window so lets fourteen requests through. *)
Theorem request_budget_window (ts : list Z) (t : Z) (st : state) :
  (Forall (fun t => t - lastRequestReset st <= 60000) ts ->
   fst (budget_calls ts st)
   = imap (fun i _ => requestCount st + 1 + Z.of_nat i <? 15) ts
   /\ requestCount (snd (budget_calls ts st)) = requestCount st + Z.of_nat (length ts)
   /\ lastRequestReset (snd (budget_calls ts st)) = lastRequestReset st)
  /\ (60000 < t - lastRequestReset st ->
      fst (incrementRequest (set_clock t st)) = true
      /\ requestCount (snd (incrementRequest (set_clock t st))) = 1
      /\ lastRequestReset (snd (incrementRequest (set_clock t st))) = t).
Proof.
  split.
  - apply budget_calls_within.
  - intros Ht. unfold incrementRequest.
    change (clock (set_clock t st)) with t.
    change (lastRequestReset (set_clock t st)) with (lastRequestReset st).
    replace (60000 <? t - lastRequestReset st) with true
      by (symmetry; apply Z.ltb_lt; exact Ht).
    repeat split.
Qed.

(** The flags that a flush of the DOM batch leaves alone. *)
Definition calm (st st' : state) : Prop :=
  failsafeMode st' = failsafeMode st /\ isRetrying st' = isRetrying st
  /\ retryController st' = retryController st.

Lemma calm_run_op op st : calm st (run_op op st).
Proof.
  unfold run_op, updateInputIcon, updateSubmitButton, schedule.
  destruct op as [status message isLoading hasOtherError|type|[]| |];
    repeat match goal with
      | |- context [if ?b then _ else _] => destruct b
      | |- context [match ?x with _ => _ end] => destruct x
      end; repeat split.
Qed.

Lemma calm_foldl ops st : calm st (foldl (fun st op => run_op op st) st ops).
Proof.
  revert st. induction ops as [|op ops IH]; intros st; simpl.
  - repeat split.
  - destruct (IH (run_op op st)) as (A1 & A2 & A3).
    destruct (calm_run_op op st) as (B1 & B2 & B3).
    repeat split; congruence.
Qed.

Lemma flush_schedule op st :
  flush (schedule op st)
  = run_op op (foldl (fun st op => run_op op st) (set_batch [] st) (batch st)).
Proof.
  unfold flush.
  change (batch (schedule op st)) with (batch st ++ [op]).
  change (set_batch [] (schedule op st)) with (set_batch [] st).
  now rewrite foldl_app.
Qed.

Lemma run_op_invalid (message : string) (st : state) :
  JsString.truthy message = true ->
  validationState (run_op (UpdateUI (Some false) message false false) st) = Some false
  /\ status_text (view (run_op (UpdateUI (Some false) message false false) st))
     = Some (message, true)
  /\ calm st (run_op (UpdateUI (Some false) message false false) st).
Proof.
  intros Hm. split; [|split; [|apply calm_run_op]].
  - unfold run_op, updateInputIcon, updateSubmitButton, schedule.
    destruct st. cbn.
    repeat match goal with |- context [negb ?b] => destruct b; cbn end; reflexivity.
  - unfold run_op, updateInputIcon, updateSubmitButton, schedule.
    destruct st. cbn.
    repeat match goal with |- context [negb ?b] => destruct b; cbn end;
      rewrite Hm; reflexivity.
Qed.

(** A validation refused by the client's rate limiter is shown as an
    invalid number.  Take a first attempt (attempt 0) made while the
    validator is not degraded (at most five captured errors, the browser
    online, the performance budgets kept), after the user's first
    interaction (the page may be modified), while no other error message
    is shown for the field, no retry controller is set, and the trimmed
    text of the field is not empty, has at least MIN_PHONE_LENGTH
    characters and is not answered by the cache.  When the rate limiter
    refuses the request, the call ends at once without a request
    (nothing is added to the suspended calls or to the calls in flight,
    and the request budget is not charged), and after the next animation
    frame the field is marked invalid with the RATE_LIMIT message and a
    form submission is blocked. *)
Theorem rate_limited_validation_blocks (st : state) (m : Cache.manager)
    (s : Storage.t bool) :
  errors st <= 5 -> online st = true -> budget_ok st = true ->
  domModified st = true -> other_error st = false -> retryController st = false ->
  JsString.truthy (JsString.trim (input_value st)) = true ->
  MIN_PHONE_LENGTH C <= JsString.len (JsString.trim (input_value st)) ->
  Cache.get (CACHE C) TEST_KEY (clock st) (JsString.trim (input_value st))
    (cacheManager st) (storage st) = (Cache.Null, m, s) ->
  fst (RateLimiter.canMakeRequest (clock st)
         (RequestManager.rateLimiter (requestManager st))) = false ->
  let r := validateWhatsApp_begin C 0 st in
  snd r = true
  /\ waiting (fst r) = waiting st
  /\ RequestManager.in_flight (requestManager (fst r))
     = RequestManager.in_flight (requestManager st)
  /\ requestCount (fst r) = requestCount st
  /\ validationState (flush (fst r)) = Some false
  /\ status_text (view (flush (fst r))) = Some (RATE_LIMIT, true)
  /\ fst (handleFormSubmit (flush (fst r))) = mkEffect true true.
Proof.
  intros He Ho Hb Hd Hoe Hrc Ht Hl Hg Hlim. cbv zeta.
  rewrite validateWhatsApp_begin_unfold.
  unfold handleGracefulDegradation.
  replace (5 <? errors st) with false by (symmetry; apply Z.ltb_ge; lia).
  rewrite Ho, Hb. simpl negb. cbv iota.
  change (0 =? 0)%nat with true. rewrite andb_true_r.
  set (st1 := if failsafeMode st then set_failsafeMode false st else st).
  assert (H1 : failsafeMode st1 = false)
    by (subst st1; destruct (failsafeMode st) eqn:Hf; [reflexivity | exact Hf]).
  assert (Hsame : input_value st1 = input_value st /\ clock st1 = clock st
                  /\ cacheManager st1 = cacheManager st /\ storage st1 = storage st
                  /\ requestManager st1 = requestManager st /\ waiting st1 = waiting st
                  /\ domModified st1 = domModified st /\ other_error st1 = other_error st
                  /\ retryController st1 = retryController st
                  /\ requestCount st1 = requestCount st
                  /\ isRetrying st1 = isRetrying st)
    by (subst st1; destruct (failsafeMode st); repeat split).
  destruct Hsame as (E1 & E2 & E3 & E4 & E5 & E6 & E7 & E8 & E9 & E10 & E11).
  rewrite H1. simpl andb. cbv iota.
  unfold begin_body. rewrite E1, E2, E3, E4, Ht. simpl negb. cbv iota.
  replace (JsString.len (JsString.trim (input_value st)) <? MIN_PHONE_LENGTH C)
    with false by (symmetry; apply Z.ltb_ge; lia).
  rewrite Hg. cbv iota beta.
  change (0 =? 0)%nat with true. cbv iota.
  unfold canMakeRequest.
  change (requestManager (set_storage s (set_cacheManager m st1)))
    with (requestManager st1).
  change (clock (set_storage s (set_cacheManager m st1))) with (clock st1).
  rewrite E5, E2.
  destruct (RateLimiter.canMakeRequest (clock st)
              (RequestManager.rateLimiter (requestManager st))) as [ok rl].
  cbn [fst] in Hlim. subst ok. cbv iota beta. simpl negb. cbv iota.
  set (st2 := set_requestManager _ _).
  assert (Hst2 : domModified st2 = true /\ other_error st2 = false
                 /\ waiting st2 = waiting st
                 /\ RequestManager.in_flight (requestManager st2)
                    = RequestManager.in_flight (requestManager st)
                 /\ requestCount st2 = requestCount st
                 /\ failsafeMode st2 = false
                 /\ retryController st2 = false).
  { subst st2. cbn. rewrite E6, E7, E8, E9, E10, H1. repeat split; assumption. }
  destruct Hst2 as (D1 & D2 & D3 & D4 & D5 & D6 & D7).
  unfold updateUI. rewrite D1, D2. simpl negb. cbv iota. cbn [fst snd].
  rewrite flush_schedule.
  set (st3 := foldl _ _ _).
  assert (Hst3 : calm st2 st3).
  { subst st3. pose proof (calm_foldl (batch st2) (set_batch [] st2)) as K.
    exact K. }
  destruct Hst3 as (F1 & F2 & F3).
  destruct (run_op_invalid RATE_LIMIT st3 eq_refl) as (R1 & R2 & R3 & R4 & R5).
  repeat split; try assumption.
  unfold handleFormSubmit.
  rewrite R5, F3, D7, andb_false_r, R3, F1, D6, R1. reflexivity.
Qed.

End WaRefusals.

Section WaRefusalsExample.
Import WhatsApp.

(** One request per minute. *)
Definition strict_config : config :=
  mkConfig 10 1000 [3000; 5000] [10000; 7000; 5000] 1 60000 (Cache.wa_config None None).

(** A first number was validated; the user then types a second one. *)
Definition second_number : state :=
  run strict_config
    [Focus; Input "081234567890"; DebounceFires;
     NetworkSettles 0 (NetData (Js.JObj [("status", Js.JBool true)]));
     Frame; Input "081234567891"]
    (initial strict_config EmptyString false (Storage.mk [] true)).

Lemma rate_limited_validation_blocks_witness :
  snd (validateWhatsApp_begin strict_config 0 second_number) = true
  /\ waiting (fst (validateWhatsApp_begin strict_config 0 second_number))
     = waiting second_number
  /\ RequestManager.in_flight
       (requestManager (fst (validateWhatsApp_begin strict_config 0 second_number)))
     = RequestManager.in_flight (requestManager second_number)
  /\ requestCount (fst (validateWhatsApp_begin strict_config 0 second_number))
     = requestCount second_number
  /\ validationState (flush (fst (validateWhatsApp_begin strict_config 0 second_number)))
     = Some false
  /\ status_text
       (view (flush (fst (validateWhatsApp_begin strict_config 0 second_number))))
     = Some (RATE_LIMIT, true)
  /\ fst (handleFormSubmit
            (flush (fst (validateWhatsApp_begin strict_config 0 second_number))))
     = mkEffect true true.
Proof.
  apply (rate_limited_validation_blocks strict_config second_number
           (cacheManager second_number) (storage second_number));
    try (vm_compute; reflexivity); vm_compute; discriminate.
Defined.

End WaRefusalsExample.
